(** * pubsjs: the connection lifecycle and message correlation of [Pubs]

    A shallow embedding of [src/pubs.ts] (class [Pubs], the module-level
    counter [websocketSequence] and the static [PubsInit.options]) together
    with the carriers of [src/models.ts] and [src/events.ts].

    The program is single-threaded and event-driven.  A state of the model is
    the module-level state, the fields of one [Pubs] instance and the part of
    the JavaScript run time its closures live in: timers, promises, sockets.
    Every closure of the source is a constructor or a function here:
      - a timer callback is a [TimerCallback];
      - the closure environment of one [connect()] call is a [ConnectCall],
        the one of a [connectStreamWebSocket] call an [Attempt];
      - a reaction registered with [.then] is stored with the promise it
        waits for.
    One macrotask of the event loop is one [Event]; [step] runs it to
    completion.  Promise reactions run when the promise settles: in the
    source every [resolve]/[reject] call is the last effect of its
    callback, so running the reactions at once or as microtasks is the same.

    Numbers: the millisecond options are integers ([Z]), the reconnect
    factor and the result of [Math.random()] are rationals ([Q]); arithmetic
    is exact (no rounding, no overflow to [Infinity]).  Handlers assigned to
    [onstatechanged], [onerror] and [onstreamevent] are observers: they do
    not call back into the instance.  In the state machine a handshake is
    its end, a [FetchResult]; the request, the treatment of the response
    and the URL of the socket are pure functions of their own
    ([makeAbsoluteURL] is the DOM's and stays outside). *)

From Stdlib Require Import QArith Qround Qminmax Qpower Ascii.
From stdpp Require Import gmap strings list fin_maps pretty sorting.

Local Open Scope Z_scope.

(** ** Carriers ([models.ts], [events.ts]) *)

Record IStreamInfo := {
  ref : option string;
  topics : option (list string);
}.

(** [data] is [any] in the source: kept as its JSON text. *)
Record IStreamEnvelope := {
  type : string;
  state : string;
  info : option IStreamInfo;
  data : option string;
}.

Record IErrorWithCodeAndMessage := {
  code : string;
  msg : option string;
}.

(** A missing [streamUrl] and the empty one are both falsy: [""]. *)
Record IStreamWebsocketConnectResponse := {
  error : option IErrorWithCodeAndMessage;
  streamUrl : string;
}.

(** What a promise of the program is rejected with. *)
Inductive Rejection :=
  | Error (message : string)            (* new Error(message) *)
  | PubsDataError (c : string) (m : string)
  | SocketErrorEvent (sock : nat)       (* the Event given to onerror *)
  | Thrown (what : string)              (* what socket.send threw *)
  | Undefined.                          (* gateReject() *)

Inductive PState (A : Type) :=
  | Pending
  | Fulfilled (v : A)
  | Rejected (e : Rejection).
Arguments Pending {A}.
Arguments Fulfilled {A} v.
Arguments Rejected {A} e.

Definition is_pending {A} (p : PState A) : bool :=
  match p with Pending => true | _ => false end.
Definition is_fulfilled {A} (p : PState A) : bool :=
  match p with Fulfilled _ => true | _ => false end.
Definition is_rejected {A} (p : PState A) : bool :=
  match p with Rejected _ => true | _ => false end.

(** [events.ts]; [target] is the instance itself. *)
Inductive PubsEvent :=
  | PubsStateChangedEvent (connecting connected reconnecting : bool)
  | PubsStreamEvent (d : option string) (i : option IStreamInfo)
  | PubsErrorEvent (c : string) (m : option string).

(** ** Module-level state of [pubs.ts] *)

Record Options := {
  connectTimeout : Z;
  heartbeatInterval : Z;
  maxReconnectInterval : Z;
  reconnectEnabled : bool;
  reconnectFactor : Q;
  reconnectInterval : Z;
  reconnectSpreader : Z;
  streamAckTimeout : Z;
}.

(** [PubsInit.options] as declared. *)
Definition PubsInit_options : Options := {|
  connectTimeout := 5000;
  heartbeatInterval := 5000;
  maxReconnectInterval := 30000;
  reconnectEnabled := true;
  reconnectFactor := 3 # 2;
  reconnectInterval := 1000;
  reconnectSpreader := 500;
  streamAckTimeout := 20000;
|}.

(** [let websocketSequence = 0] and the static [PubsInit.options]: one per
    loaded module, whatever the number of instances. *)
Record Global := {
  websocketSequence : N;
  options : Options;
}.

(** ** Closures *)

(** The callbacks given to [setTimeout]. *)
Inductive TimerCallback :=
  | ReconnectNow                       (* () => { this.connect(); } *)
  | ReplyTimeout (send : nat)          (* () => { reject(new Error('timeout')); } *)
  | ResolveSend (send : nat)           (* setTimeout(resolve, 0) *)
  | ConnectTimeout (sock : nat)        (* the connect timeout of a socket *)
  | CloseSocket (sock : nat)           (* () => { this.closeStreamWebsocket(socket); } *)
  | RejectAttempt (sock : nat).        (* () => { reject(event); } *)

Record IStreamReplyTimeoutRecord := {
  resolve : nat;       (* the send call whose promise it resolves *)
  timeout : nat;       (* timer handle *)
}.

(** One [connect()] call: the promise it returns, the gate object it
    creates ([gate.promise] with the reactions [pubsub] registered on it,
    and whether [gate.reject] is still set) and whether the handshake is
    still awaited. *)
Record ConnectCall := {
  call_promise : PState unit;
  gate_promise : PState unit;
  gate_reject : bool;
  gate_reactions : list (IStreamEnvelope * nat);
  awaiting : bool;
}.

(** One [connectStreamWebSocket] call, made by the [connect()] call of the
    same number; the socket it creates carries that number too. *)
Record Attempt := {
  isTimeout : bool;
  connect_timer : nat;
  has_reconnector : bool;
  attempt_promise : PState unit;
  onmessage : bool;
}.

(** One [sendStreamWebSocketPayload] call: its promise and the [pubsub]
    call that reacts to it, if any. *)
Record SendCall := {
  send_promise : PState (option IStreamEnvelope);
  send_then : option nat;
}.

(** ** The instance and the run time *)

(** The fields of [Pubs].  A handler slot is [true] when a handler is
    assigned.  [socket] and [gate] hold references: the number of the
    socket, the number of the [connect()] call that made the gate ([None] is
    the empty gate of the constructor).  [this_reconnector] is the field
    [this.reconnector], a timer handle. *)
Record Pubs := {
  connecting : bool;
  connected : bool;
  reconnecting : bool;
  onstatechanged : bool;
  onerror : bool;
  onstreamevent : bool;
  socket : option nat;
  closing : bool;
  this_reconnector : nat;
  reconnectAttempts : nat;
  replyHandlers : gmap string IStreamReplyTimeoutRecord;
  gate : option nat;
}.

(** Timers with their delay, promises, sockets; what went out ([wire]:
    payloads given to [socket.send], [closes]: sockets [close()] was called
    on, [dispatched]: events given to [dispatchEvent], [delivered]: events
    given to a handler); and what the environment decides: the results of
    [Math.random()] and whether a [socket.send] throws. *)
Record Runtime := {
  timers : gmap nat (Z * TimerCallback);
  next_handle : nat;
  calls : list ConnectCall;
  attempts : gmap nat Attempt;
  pubsubs : list (PState unit);
  sends : list SendCall;
  wire : list (nat * IStreamEnvelope);
  closes : list nat;
  dispatched : list PubsEvent;
  delivered : list PubsEvent;
  math_random : nat → Q;
  random_calls : nat;
  send_throws : nat → option string;
  send_calls : nat;
}.

Record World := {
  glob : Global;
  this : Pubs;
  rt : Runtime;
}.
(** ** Field updates *)

Definition set_connecting (v : bool) (p : Pubs) : Pubs :=
  {| connecting := v; connected := connected p; reconnecting := reconnecting
  p; onstatechanged := onstatechanged p; onerror := onerror p; onstreamevent
  := onstreamevent p; socket := socket p; closing := closing p;
  this_reconnector := this_reconnector p; reconnectAttempts :=
  reconnectAttempts p; replyHandlers := replyHandlers p; gate := gate p |}.
Definition set_connected (v : bool) (p : Pubs) : Pubs :=
  {| connecting := connecting p; connected := v; reconnecting := reconnecting
  p; onstatechanged := onstatechanged p; onerror := onerror p; onstreamevent
  := onstreamevent p; socket := socket p; closing := closing p;
  this_reconnector := this_reconnector p; reconnectAttempts :=
  reconnectAttempts p; replyHandlers := replyHandlers p; gate := gate p |}.
Definition set_reconnecting (v : bool) (p : Pubs) : Pubs :=
  {| connecting := connecting p; connected := connected p; reconnecting := v;
  onstatechanged := onstatechanged p; onerror := onerror p; onstreamevent :=
  onstreamevent p; socket := socket p; closing := closing p; this_reconnector
  := this_reconnector p; reconnectAttempts := reconnectAttempts p;
  replyHandlers := replyHandlers p; gate := gate p |}.
Definition set_onstatechanged (v : bool) (p : Pubs) : Pubs :=
  {| connecting := connecting p; connected := connected p; reconnecting :=
  reconnecting p; onstatechanged := v; onerror := onerror p; onstreamevent :=
  onstreamevent p; socket := socket p; closing := closing p; this_reconnector
  := this_reconnector p; reconnectAttempts := reconnectAttempts p;
  replyHandlers := replyHandlers p; gate := gate p |}.
Definition set_onerror (v : bool) (p : Pubs) : Pubs :=
  {| connecting := connecting p; connected := connected p; reconnecting :=
  reconnecting p; onstatechanged := onstatechanged p; onerror := v;
  onstreamevent := onstreamevent p; socket := socket p; closing := closing p;
  this_reconnector := this_reconnector p; reconnectAttempts :=
  reconnectAttempts p; replyHandlers := replyHandlers p; gate := gate p |}.
Definition set_onstreamevent (v : bool) (p : Pubs) : Pubs :=
  {| connecting := connecting p; connected := connected p; reconnecting :=
  reconnecting p; onstatechanged := onstatechanged p; onerror := onerror p;
  onstreamevent := v; socket := socket p; closing := closing p;
  this_reconnector := this_reconnector p; reconnectAttempts :=
  reconnectAttempts p; replyHandlers := replyHandlers p; gate := gate p |}.
Definition set_socket (v : option nat) (p : Pubs) : Pubs :=
  {| connecting := connecting p; connected := connected p; reconnecting :=
  reconnecting p; onstatechanged := onstatechanged p; onerror := onerror p;
  onstreamevent := onstreamevent p; socket := v; closing := closing p;
  this_reconnector := this_reconnector p; reconnectAttempts :=
  reconnectAttempts p; replyHandlers := replyHandlers p; gate := gate p |}.
Definition set_closing (v : bool) (p : Pubs) : Pubs :=
  {| connecting := connecting p; connected := connected p; reconnecting :=
  reconnecting p; onstatechanged := onstatechanged p; onerror := onerror p;
  onstreamevent := onstreamevent p; socket := socket p; closing := v;
  this_reconnector := this_reconnector p; reconnectAttempts :=
  reconnectAttempts p; replyHandlers := replyHandlers p; gate := gate p |}.
Definition set_this_reconnector (v : nat) (p : Pubs) : Pubs :=
  {| connecting := connecting p; connected := connected p; reconnecting :=
  reconnecting p; onstatechanged := onstatechanged p; onerror := onerror p;
  onstreamevent := onstreamevent p; socket := socket p; closing := closing p;
  this_reconnector := v; reconnectAttempts := reconnectAttempts p;
  replyHandlers := replyHandlers p; gate := gate p |}.
Definition set_reconnectAttempts (v : nat) (p : Pubs) : Pubs :=
  {| connecting := connecting p; connected := connected p; reconnecting :=
  reconnecting p; onstatechanged := onstatechanged p; onerror := onerror p;
  onstreamevent := onstreamevent p; socket := socket p; closing := closing p;
  this_reconnector := this_reconnector p; reconnectAttempts := v;
  replyHandlers := replyHandlers p; gate := gate p |}.
Definition set_replyHandlers (v : gmap string IStreamReplyTimeoutRecord) (p : Pubs) : Pubs :=
  {| connecting := connecting p; connected := connected p; reconnecting :=
  reconnecting p; onstatechanged := onstatechanged p; onerror := onerror p;
  onstreamevent := onstreamevent p; socket := socket p; closing := closing p;
  this_reconnector := this_reconnector p; reconnectAttempts :=
  reconnectAttempts p; replyHandlers := v; gate := gate p |}.
Definition set_gate (v : option nat) (p : Pubs) : Pubs :=
  {| connecting := connecting p; connected := connected p; reconnecting :=
  reconnecting p; onstatechanged := onstatechanged p; onerror := onerror p;
  onstreamevent := onstreamevent p; socket := socket p; closing := closing p;
  this_reconnector := this_reconnector p; reconnectAttempts :=
  reconnectAttempts p; replyHandlers := replyHandlers p; gate := v |}.

Definition rt_timers (v : gmap nat (Z * TimerCallback)) (r : Runtime) : Runtime :=
  {| timers := v; next_handle := next_handle r; calls := calls r; attempts :=
  attempts r; pubsubs := pubsubs r; sends := sends r; wire := wire r; closes
  := closes r; dispatched := dispatched r; delivered := delivered r;
  math_random := math_random r; random_calls := random_calls r; send_throws :=
  send_throws r; send_calls := send_calls r |}.
Definition rt_next_handle (v : nat) (r : Runtime) : Runtime :=
  {| timers := timers r; next_handle := v; calls := calls r; attempts :=
  attempts r; pubsubs := pubsubs r; sends := sends r; wire := wire r; closes
  := closes r; dispatched := dispatched r; delivered := delivered r;
  math_random := math_random r; random_calls := random_calls r; send_throws :=
  send_throws r; send_calls := send_calls r |}.
Definition rt_calls (v : list ConnectCall) (r : Runtime) : Runtime :=
  {| timers := timers r; next_handle := next_handle r; calls := v; attempts :=
  attempts r; pubsubs := pubsubs r; sends := sends r; wire := wire r; closes
  := closes r; dispatched := dispatched r; delivered := delivered r;
  math_random := math_random r; random_calls := random_calls r; send_throws :=
  send_throws r; send_calls := send_calls r |}.
Definition rt_attempts (v : gmap nat Attempt) (r : Runtime) : Runtime :=
  {| timers := timers r; next_handle := next_handle r; calls := calls r;
  attempts := v; pubsubs := pubsubs r; sends := sends r; wire := wire r;
  closes := closes r; dispatched := dispatched r; delivered := delivered r;
  math_random := math_random r; random_calls := random_calls r; send_throws :=
  send_throws r; send_calls := send_calls r |}.
Definition rt_pubsubs (v : list (PState unit)) (r : Runtime) : Runtime :=
  {| timers := timers r; next_handle := next_handle r; calls := calls r;
  attempts := attempts r; pubsubs := v; sends := sends r; wire := wire r;
  closes := closes r; dispatched := dispatched r; delivered := delivered r;
  math_random := math_random r; random_calls := random_calls r; send_throws :=
  send_throws r; send_calls := send_calls r |}.
Definition rt_sends (v : list SendCall) (r : Runtime) : Runtime :=
  {| timers := timers r; next_handle := next_handle r; calls := calls r;
  attempts := attempts r; pubsubs := pubsubs r; sends := v; wire := wire r;
  closes := closes r; dispatched := dispatched r; delivered := delivered r;
  math_random := math_random r; random_calls := random_calls r; send_throws :=
  send_throws r; send_calls := send_calls r |}.
Definition rt_wire (v : list (nat * IStreamEnvelope)) (r : Runtime) : Runtime :=
  {| timers := timers r; next_handle := next_handle r; calls := calls r;
  attempts := attempts r; pubsubs := pubsubs r; sends := sends r; wire := v;
  closes := closes r; dispatched := dispatched r; delivered := delivered r;
  math_random := math_random r; random_calls := random_calls r; send_throws :=
  send_throws r; send_calls := send_calls r |}.
Definition rt_closes (v : list nat) (r : Runtime) : Runtime :=
  {| timers := timers r; next_handle := next_handle r; calls := calls r;
  attempts := attempts r; pubsubs := pubsubs r; sends := sends r; wire := wire
  r; closes := v; dispatched := dispatched r; delivered := delivered r;
  math_random := math_random r; random_calls := random_calls r; send_throws :=
  send_throws r; send_calls := send_calls r |}.
Definition rt_dispatched (v : list PubsEvent) (r : Runtime) : Runtime :=
  {| timers := timers r; next_handle := next_handle r; calls := calls r;
  attempts := attempts r; pubsubs := pubsubs r; sends := sends r; wire := wire
  r; closes := closes r; dispatched := v; delivered := delivered r;
  math_random := math_random r; random_calls := random_calls r; send_throws :=
  send_throws r; send_calls := send_calls r |}.
Definition rt_delivered (v : list PubsEvent) (r : Runtime) : Runtime :=
  {| timers := timers r; next_handle := next_handle r; calls := calls r;
  attempts := attempts r; pubsubs := pubsubs r; sends := sends r; wire := wire
  r; closes := closes r; dispatched := dispatched r; delivered := v;
  math_random := math_random r; random_calls := random_calls r; send_throws :=
  send_throws r; send_calls := send_calls r |}.
Definition rt_random_calls (v : nat) (r : Runtime) : Runtime :=
  {| timers := timers r; next_handle := next_handle r; calls := calls r;
  attempts := attempts r; pubsubs := pubsubs r; sends := sends r; wire := wire
  r; closes := closes r; dispatched := dispatched r; delivered := delivered r;
  math_random := math_random r; random_calls := v; send_throws := send_throws
  r; send_calls := send_calls r |}.
Definition rt_send_calls (v : nat) (r : Runtime) : Runtime :=
  {| timers := timers r; next_handle := next_handle r; calls := calls r;
  attempts := attempts r; pubsubs := pubsubs r; sends := sends r; wire := wire
  r; closes := closes r; dispatched := dispatched r; delivered := delivered r;
  math_random := math_random r; random_calls := random_calls r; send_throws :=
  send_throws r; send_calls := v |}.

Definition set_call_promise (v : PState unit) (c : ConnectCall) : ConnectCall :=
  {| call_promise := v; gate_promise := gate_promise c; gate_reject :=
  gate_reject c; gate_reactions := gate_reactions c; awaiting := awaiting c
  |}.
Definition set_gate_promise (v : PState unit) (c : ConnectCall) : ConnectCall :=
  {| call_promise := call_promise c; gate_promise := v; gate_reject :=
  gate_reject c; gate_reactions := gate_reactions c; awaiting := awaiting c
  |}.
Definition set_gate_reject (v : bool) (c : ConnectCall) : ConnectCall :=
  {| call_promise := call_promise c; gate_promise := gate_promise c;
  gate_reject := v; gate_reactions := gate_reactions c; awaiting := awaiting c
  |}.
Definition set_gate_reactions (v : list (IStreamEnvelope * nat)) (c : ConnectCall) : ConnectCall :=
  {| call_promise := call_promise c; gate_promise := gate_promise c;
  gate_reject := gate_reject c; gate_reactions := v; awaiting := awaiting c
  |}.
Definition set_awaiting (v : bool) (c : ConnectCall) : ConnectCall :=
  {| call_promise := call_promise c; gate_promise := gate_promise c;
  gate_reject := gate_reject c; gate_reactions := gate_reactions c; awaiting
  := v |}.

Definition set_isTimeout (v : bool) (a : Attempt) : Attempt :=
  {| isTimeout := v; connect_timer := connect_timer a; has_reconnector :=
  has_reconnector a; attempt_promise := attempt_promise a; onmessage :=
  onmessage a |}.
Definition set_attempt_promise (v : PState unit) (a : Attempt) : Attempt :=
  {| isTimeout := isTimeout a; connect_timer := connect_timer a;
  has_reconnector := has_reconnector a; attempt_promise := v; onmessage :=
  onmessage a |}.
Definition set_onmessage (v : bool) (a : Attempt) : Attempt :=
  {| isTimeout := isTimeout a; connect_timer := connect_timer a;
  has_reconnector := has_reconnector a; attempt_promise := attempt_promise a;
  onmessage := v |}.

Definition on_glob (f : Global → Global) (w : World) : World :=
  {| glob := f (glob w); this := this w; rt := rt w |}.
Definition on_this (f : Pubs → Pubs) (w : World) : World :=
  {| glob := glob w; this := f (this w); rt := rt w |}.
Definition on_rt (f : Runtime → Runtime) (w : World) : World :=
  {| glob := glob w; this := this w; rt := f (rt w) |}.

(** ** Run-time primitives *)

(** [setTimeout(cb, delay)]; the handle it returns is [next_handle] of the
    state before the call.  Handles start at 1 and are never reused. *)
Definition setTimeout (cb : TimerCallback) (delay : Z) (w : World) : World :=
  on_rt (λ r, rt_next_handle (S (next_handle r))
                (rt_timers (<[next_handle r := (delay, cb)]> (timers r)) r)) w.

Definition clearTimeout (h : nat) (w : World) : World :=
  on_rt (λ r, rt_timers (delete h (timers r)) r) w.

(** [Math.random()]: the value, and the state after the call. *)
Definition Math_random (w : World) : Q :=
  math_random (rt w) (random_calls (rt w)).
Definition Math_random_called (w : World) : World :=
  on_rt (λ r, rt_random_calls (S (random_calls r)) r) w.

Definition Math_pow (x : Q) (n : nat) : Q := Qpower x (Z.of_nat n).
Definition Math_trunc (x : Q) : Z := Z.quot (Qnum x) (Z.pos (Qden x)).
Definition Math_floor (x : Q) : Z := Qfloor x.

(** ** Event dispatch *)

(** The handler slot [dispatchEvent] selects for an event. *)
Definition handler_of (event : PubsEvent) (p : Pubs) : bool :=
  match event with
  | PubsStateChangedEvent _ _ _ => onstatechanged p
  | PubsStreamEvent _ _ => onstreamevent p
  | PubsErrorEvent _ _ => onerror p
  end.

Definition dispatchEvent (event : PubsEvent) (w : World) : World :=
  on_rt (λ r, rt_delivered
           (if handler_of event (this w) then delivered r ++ [event]
            else delivered r)
           (rt_dispatched (dispatched r ++ [event]) r)) w.

Definition dispatchStateChangedEvent (w : World) : World :=
  dispatchEvent (PubsStateChangedEvent (connecting (this w))
                   (connected (this w)) (reconnecting (this w))) w.

Definition dispatchStreamEvent (d : option string) (i : option IStreamInfo)
    (w : World) : World :=
  dispatchEvent (PubsStreamEvent d i) w.

Definition dispatchErrorEvent (err : IErrorWithCodeAndMessage) (w : World)
    : World :=
  dispatchEvent (PubsErrorEvent (code err) (msg err)) w.

(** ** The reconnect scheduler: the closure [reconnector] of [connect()] *)

(** The delay [reconnector] computes, [r] being the result of
    [Math.random()]. *)
Definition reconnectTimeout (o : Options) (fast : bool) (attempts : nat)
    (r : Q) : Z :=
  let reconnectTimeout := reconnectInterval o in
  if fast then reconnectTimeout
  else
    let reconnectTimeout :=
      reconnectTimeout * Math_trunc (Math_pow (reconnectFactor o) attempts) in
    let reconnectTimeout :=
      if maxReconnectInterval o <? reconnectTimeout
      then maxReconnectInterval o else reconnectTimeout in
    reconnectTimeout + Math_floor (r * inject_Z (reconnectSpreader o)).

Definition reconnector (fast : bool) (w : World) : World :=
  let w := clearTimeout (this_reconnector (this w)) w in
  if negb (reconnecting (this w)) then w
  else
    let delay := reconnectTimeout (options (glob w)) fast
                   (reconnectAttempts (this w)) (Math_random w) in
    let w := if fast then w else Math_random_called w in
    let handle := next_handle (rt w) in
    let w := setTimeout ReconnectNow delay w in
    let w := on_this (set_this_reconnector handle) w in
    on_this (λ p, set_reconnectAttempts (S (reconnectAttempts p)) p) w.

(** ** Promises of [pubsub] and [sendStreamWebSocketPayload] *)

Definition settle {A} (s : PState A) (p : PState A) : PState A :=
  if is_pending p then s else p.

Definition resolve_pubsub (p : nat) (w : World) : World :=
  on_rt (λ r, rt_pubsubs (alter (settle (Fulfilled ())) p (pubsubs r)) r) w.

Definition reject_pubsub (p : nat) (e : Rejection) (w : World) : World :=
  on_rt (λ r, rt_pubsubs (alter (settle (Rejected e)) p (pubsubs r)) r) w.

Definition set_send_promise (s : PState (option IStreamEnvelope))
    (c : SendCall) : SendCall :=
  {| send_promise := s; send_then := send_then c |}.

(** [resolve(message)] of a send call; its reaction, if registered, is
    [() => { resolve(); }] of the [pubsub] call. *)
Definition resolve_send (s : nat) (v : option IStreamEnvelope) (w : World)
    : World :=
  match sends (rt w) !! s with
  | Some c =>
      if is_pending (send_promise c) then
        let w := on_rt (λ r, rt_sends
                   (alter (set_send_promise (Fulfilled v)) s (sends r)) r) w in
        match send_then c with
        | Some p => resolve_pubsub p w
        | None => w
        end
      else w
  | None => w
  end.

(** [reject(err)] of a send call: [pubsub] registers no rejection handler. *)
Definition reject_send (s : nat) (e : Rejection) (w : World) : World :=
  on_rt (λ r, rt_sends
    (alter (λ c, set_send_promise (settle (Rejected e) (send_promise c)) c)
       s (sends r)) r) w.

(** [sendPromise.then(() => { resolve(); })]: the reaction is kept with the
    send call; it runs at once when the promise is fulfilled already, and
    never when it is rejected. *)
Definition then_send (s p : nat) (w : World) : World :=
  let fulfilled :=
    match sends (rt w) !! s with
    | Some c => is_fulfilled (send_promise c)
    | None => false
    end in
  let w := on_rt (λ r, rt_sends
             (alter (λ c, {| send_promise := send_promise c;
                             send_then := Some p |}) s (sends r)) r) w in
  if fulfilled then resolve_pubsub p w else w.

(** ** [sendStreamWebSocketPayload] *)

Definition set_state (v : string) (payload : IStreamEnvelope)
    : IStreamEnvelope :=
  {| type := type payload; state := v; info := info payload;
     data := data payload |}.

(** The promise of the call is the entry [length (sends (rt w))] of [sends]
    afterwards. *)
Definition sendStreamWebSocketPayload (payload : IStreamEnvelope)
    (replyTimeout : Z) (w : World) : World :=
  let replyTimeout :=
    if replyTimeout =? 0 then streamAckTimeout (options (glob w))
    else replyTimeout in
  let s := length (sends (rt w)) in
  let w := on_rt (λ r, rt_sends
             (sends r ++ [{| send_promise := Pending; send_then := None |}]) r)
             w in
  match connected (this w), socket (this w), closing (this w) with
  | true, Some sock, false =>
      let w := on_glob (λ g, {| websocketSequence := websocketSequence g + 1;
                                options := options g |}) w in
      let payload := set_state (pretty (websocketSequence (glob w))) payload in
      let throws := send_throws (rt w) (send_calls (rt w)) in
      let w := on_rt (λ r, rt_send_calls (S (send_calls r)) r) w in
      match throws with
      | Some err => reject_send s (Thrown err) w
      | None =>
          let w := on_rt (λ r, rt_wire (wire r ++ [(sock, payload)]) r) w in
          if 0 <? replyTimeout then
            let handle := next_handle (rt w) in
            let w := setTimeout (ReplyTimeout s) replyTimeout w in
            on_this (λ p, set_replyHandlers
              (<[state payload := {| resolve := s; timeout := handle |}]>
                 (replyHandlers p)) p) w
          else setTimeout (ResolveSend s) 0 w
      end
  | _, _, _ => reject_send s (Error "no_connection") w
  end.

(** ** The gate and [pubsub] *)

(** The reaction [pubsub] registers on [gate.promise]. *)
Definition pubsub_reaction (w : World) (reaction : IStreamEnvelope * nat)
    : World :=
  let s := length (sends (rt w)) in
  let w := sendStreamWebSocketPayload reaction.1 0 w in
  then_send s reaction.2 w.

Definition on_call (k : nat) (f : ConnectCall → ConnectCall) (w : World)
    : World :=
  on_rt (λ r, rt_calls (alter f k (calls r)) r) w.

Definition gateResolve (k : nat) (w : World) : World :=
  match calls (rt w) !! k with
  | Some c =>
      if is_pending (gate_promise c) then
        let w := on_call k (λ c, set_gate_reactions []
                   (set_gate_promise (Fulfilled ()) c)) w in
        foldl pubsub_reaction w (gate_reactions c)
      else w
  | None => w
  end.

Definition gateReject (k : nat) (w : World) : World :=
  match calls (rt w) !! k with
  | Some c =>
      if is_pending (gate_promise c) then
        on_call k (λ c, set_gate_reactions []
          (set_gate_promise (Rejected Undefined) c)) w
      else w
  | None => w
  end.

(** [this.gate.promise.then(() => { ... })] *)
Definition then_gate (k : nat) (reaction : IStreamEnvelope * nat) (w : World)
    : World :=
  match calls (rt w) !! k with
  | Some c =>
      match gate_promise c with
      | Pending =>
          on_call k (λ c, set_gate_reactions (gate_reactions c ++ [reaction]) c)
            w
      | Fulfilled _ => pubsub_reaction w reaction
      | Rejected _ => w
      end
  | None => w
  end.

(** The promise of the call is the entry [length (pubsubs (rt w))] of
    [pubsubs] afterwards. *)
Definition pubsub (ty : string) (tops : list string) (w : World) : World :=
  let payload :=
    {| info := Some {| ref := None; topics := Some tops |};
       state := ""; type := ty; data := None |} in
  let p := length (pubsubs (rt w)) in
  let w := on_rt (λ r, rt_pubsubs (pubsubs r ++ [Pending]) r) w in
  match gate (this w) with
  | None => reject_pubsub p (Error "no gate - connected not called?") w
  | Some k => then_gate k (payload, p) w
  end.

Definition sub (tops : list string) (w : World) : World := pubsub "sub" tops w.
Definition unsub (tops : list string) (w : World) : World :=
  pubsub "unsub" tops w.

(** ** Sockets *)

Definition closeStreamWebsocket (sock : nat) (w : World) : World :=
  let w := on_this (λ p, if bool_decide (socket p = Some sock)
                         then set_closing true p else p) w in
  on_rt (λ r, rt_closes (closes r ++ [sock]) r) w.

Definition on_attempt (k : nat) (f : Attempt → Attempt) (w : World) : World :=
  on_rt (λ r, rt_attempts (alter f k (attempts r)) r) w.

(** The body of [connectStreamWebSocket], called by the [connect()] call
    [k]; [reconn] tells whether a reconnector is passed. *)
Definition connectStreamWebSocket (k : nat) (reconn : bool) (w : World)
    : World :=
  let w :=
    match socket (this w) with
    | Some oldSocket =>
        let w := on_this (set_socket None) w in
        let w := on_this (set_connected false) w in
        closeStreamWebsocket oldSocket w
    | None => w
    end in
  let handle := next_handle (rt w) in
  let w := setTimeout (ConnectTimeout k) (connectTimeout (options (glob w))) w in
  let w := on_rt (λ r, rt_attempts
             (<[k := {| isTimeout := false; connect_timer := handle;
                        has_reconnector := reconn;
                        attempt_promise := Pending; onmessage := false |}]>
                (attempts r)) r) w in
  let w := on_this (set_closing false) w in
  on_this (set_socket (Some k)) w.

(** ** [connect()] *)

Definition resolve_call (k : nat) (w : World) : World :=
  on_call k (λ c, set_call_promise (settle (Fulfilled ()) (call_promise c)) c) w.

Definition reject_call (k : nat) (e : Rejection) (w : World) : World :=
  on_call k (λ c, set_call_promise (settle (Rejected e) (call_promise c)) c) w.

(** The synchronous part of [connect()], up to the [await] of the
    handshake.  The call is number [length (calls (rt w))]. *)
Definition connect (w : World) : World :=
  let w := clearTimeout (this_reconnector (this w)) w in
  let w := on_this (set_reconnecting
             (reconnectEnabled (options (glob w)) || true)) w in
  let w := on_this (set_connecting true) w in
  let w := dispatchStateChangedEvent w in
  let k := length (calls (rt w)) in
  let w := on_rt (λ r, rt_calls
             (calls r ++ [{| call_promise := Pending; gate_promise := Pending;
                             gate_reject := true; gate_reactions := [];
                             awaiting := true |}]) r) w in
  on_this (set_gate (Some k)) w.

(** How the awaited handshake ends: with the response of the server (or
    the [http_error_<status>] one made up for a status that is not ok), or
    with an exception. *)
Inductive FetchResult :=
  | Fetched (r : IStreamWebsocketConnectResponse)
  | FetchFailed (err : string).

Definition connectResponse_of (f : FetchResult)
    : IStreamWebsocketConnectResponse :=
  match f with
  | Fetched r => r
  | FetchFailed err =>
      {| error := Some {| code := "request_failed"; msg := Some err |};
         streamUrl := "" |}
  end.

(** The handlers [connect()] gives to [connectStreamWebSocket(...).then]. *)
Definition connection_established (k : nat) (w : World) : World :=
  let w := on_this (set_reconnectAttempts 0%nat) w in
  let w := on_call k (set_gate_reject false) w in
  let w := resolve_call k w in
  gateResolve k w.

Definition connection_failed (k : nat) (err : Rejection) (w : World) : World :=
  if reconnecting (this w) then reconnector false w
  else
    let w := on_call k (set_gate_reject false) w in
    let w := reject_call k err w in
    gateReject k w.

Definition resolve_attempt (k : nat) (w : World) : World :=
  match attempts (rt w) !! k with
  | Some a =>
      if is_pending (attempt_promise a) then
        connection_established k
          (on_attempt k (set_attempt_promise (Fulfilled ())) w)
      else w
  | None => w
  end.

Definition reject_attempt (k : nat) (err : Rejection) (w : World) : World :=
  match attempts (rt w) !! k with
  | Some a =>
      if is_pending (attempt_promise a) then
        connection_failed k err
          (on_attempt k (set_attempt_promise (Rejected err)) w)
      else w
  | None => w
  end.

(** [connect()] from the handshake's end on, for the call [k]. *)
Definition connect_continue (k : nat) (f : FetchResult) (w : World) : World :=
  let connectResponse := connectResponse_of f in
  if String.eqb (streamUrl connectResponse) "" then
    let w := on_this (set_connecting false) w in
    let w := dispatchStateChangedEvent w in
    if reconnecting (this w) then
      let w :=
        match error connectResponse with
        | Some err =>
            if String.eqb (code err) "http_error_403" then
              let w := on_this (set_reconnecting false) w in
              let w := dispatchStateChangedEvent w in
              dispatchErrorEvent err w
            else w
        | None => w
        end in
      reconnector false w
    else
      match error connectResponse with
      | Some err =>
          reject_call k (PubsDataError (code err) (default "" (msg err))) w
      | None => reject_call k (PubsDataError "unknown_error" "") w
      end
  else
    connectStreamWebSocket k (reconnecting (this w)) w.

(** ** The callbacks of a socket *)

Definition is_current (k : nat) (w : World) : bool :=
  bool_decide (socket (this w) = Some k).

(** The connect timeout of the socket [k]. *)
Definition connect_timeout (k : nat) (w : World) : World :=
  let w := on_attempt k (set_isTimeout true) w in
  let w :=
    if is_current k w then
      let w := on_this (set_socket None) w in
      let w := on_this (set_connected false) w in
      let w := on_this (set_connecting false) w in
      dispatchStateChangedEvent w
    else w in
  let w := setTimeout (CloseSocket k) 0 w in
  reject_attempt k (Error "connect_timeout") w.

Definition socket_onopen (k : nat) (w : World) : World :=
  match attempts (rt w) !! k with
  | Some a =>
      let w := clearTimeout (connect_timer a) w in
      if isTimeout a then w
      else if negb (is_current k w) then closeStreamWebsocket k w
      else
        let w := on_this (set_connected true) w in
        let w := on_this (set_connecting false) w in
        let w := dispatchStateChangedEvent w in
        let w := on_attempt k (set_onmessage true) w in
        resolve_attempt k w
  | None => w
  end.

Definition socket_onclose (k : nat) (w : World) : World :=
  match attempts (rt w) !! k with
  | Some a =>
      let w := clearTimeout (connect_timer a) w in
      if isTimeout a then w
      else if negb (is_current k w) then
        match socket (this w), connecting (this w), has_reconnector a with
        | None, false, true => reconnector true w
        | _, _, _ => w
        end
      else
        let w := on_this (set_socket None) w in
        let w := on_this (set_closing false) w in
        let w := on_this (set_connected false) w in
        let w := on_this (set_connecting false) w in
        let w := dispatchStateChangedEvent w in
        if has_reconnector a then reconnector false w else w
  | None => w
  end.

Definition socket_onerror (k : nat) (w : World) : World :=
  match attempts (rt w) !! k with
  | Some a =>
      let w := clearTimeout (connect_timer a) w in
      if isTimeout a then w
      else
        let w := setTimeout (RejectAttempt k) 0 w in
        if negb (is_current k w) then w
        else
          let w := on_this (set_socket None) w in
          let w := on_this (set_connected false) w in
          let w := on_this (set_connecting false) w in
          let w := dispatchErrorEvent
                     {| code := "websocket_error";
                        msg := Some "[object Event]" |} w in
          dispatchStateChangedEvent w
  | None => w
  end.

(** [handleStreamWebSocketMessage], [message] being the parsed payload of
    an event of the socket [k]. *)
Definition handleStreamWebSocketMessage (k : nat) (message : IStreamEnvelope)
    (w : World) : World :=
  if negb (is_current k w) then
    on_rt (λ r, rt_closes (closes r ++ [k]) r) w
  else if String.eqb (type message) "hello" then w
  else if String.eqb (type message) "goodbye" then
    let w := on_this (set_reconnectAttempts 1%nat) w in
    let w := closeStreamWebsocket k w in
    on_this (set_connected false) w
  else if String.eqb (type message) "ack" then
    match replyHandlers (this w) !! state message with
    | Some replyTimeout =>
        let w := on_this (λ p, set_replyHandlers
                   (delete (state message) (replyHandlers p)) p) w in
        let w := clearTimeout (timeout replyTimeout) w in
        resolve_send (resolve replyTimeout) (Some message) w
    | None => w
    end
  else if String.eqb (type message) "event" then
    dispatchStreamEvent (data message) (info message) w
  else w.

(** ** The event loop *)

Definition run_timer (cb : TimerCallback) (w : World) : World :=
  match cb with
  | ReconnectNow => connect w
  | ReplyTimeout s => reject_send s (Error "timeout") w
  | ResolveSend s => resolve_send s None w
  | ConnectTimeout k => connect_timeout k w
  | CloseSocket k => closeStreamWebsocket k w
  | RejectAttempt k => reject_attempt k (SocketErrorEvent k) w
  end.

(** A timer that is due: it leaves the table and its callback runs. *)
Definition fire_timer (h : nat) (w : World) : World :=
  match timers (rt w) !! h with
  | Some (_, cb) => run_timer cb (clearTimeout h w)
  | None => w
  end.

(** What can happen to an instance: a call or an assignment to a public
    field by its owner, the end of an awaited handshake, an event of a socket,
    a timer that is due. *)
Inductive Event :=
  | Call_connect
  | Call_sub (tops : list string)
  | Call_unsub (tops : list string)
  | Call_send (payload : IStreamEnvelope) (replyTimeout : Z)
  | Assign_reconnecting (b : bool)
  | Assign_onstatechanged (b : bool)
  | Assign_onerror (b : bool)
  | Assign_onstreamevent (b : bool)
  | Handshake (k : nat) (f : FetchResult)
  | Socket_open (k : nat)
  | Socket_close (k : nat)
  | Socket_error (k : nat)
  | Socket_message (k : nat) (message : IStreamEnvelope)
  | Timer (h : nat).

(** A handshake ends once per [connect()] call; a message reaches the
    handler only once [onmessage] is set on the socket. *)
Definition step (e : Event) (w : World) : World :=
  match e with
  | Call_connect => connect w
  | Call_sub tops => sub tops w
  | Call_unsub tops => unsub tops w
  | Call_send payload replyTimeout =>
      sendStreamWebSocketPayload payload replyTimeout w
  | Assign_reconnecting b => on_this (set_reconnecting b) w
  | Assign_onstatechanged b => on_this (set_onstatechanged b) w
  | Assign_onerror b => on_this (set_onerror b) w
  | Assign_onstreamevent b => on_this (set_onstreamevent b) w
  | Handshake k f =>
      match calls (rt w) !! k with
      | Some c =>
          if awaiting c then
            connect_continue k f (on_call k (set_awaiting false) w)
          else w
      | None => w
      end
  | Socket_open k => socket_onopen k w
  | Socket_close k => socket_onclose k w
  | Socket_error k => socket_onerror k w
  | Socket_message k message =>
      match attempts (rt w) !! k with
      | Some a =>
          if onmessage a then handleStreamWebSocketMessage k message w else w
      | None => w
      end
  | Timer h => fire_timer h w
  end.

Definition run (es : list Event) (w : World) : World :=
  foldl (λ w e, step e w) w es.

(** [new Pubs(...)] in a module whose state is [g], the environment being
    [random] and [throws]. *)
Definition new_Pubs (g : Global) (random : nat → Q)
    (throws : nat → option string) : World :=
  {| glob := g;
     this := {| connecting := false; connected := false; reconnecting := false;
                onstatechanged := false; onerror := false;
                onstreamevent := false; socket := None; closing := false;
                this_reconnector := 0; reconnectAttempts := 0;
                replyHandlers := ∅; gate := None |};
     rt := {| timers := ∅; next_handle := 1; calls := []; attempts := ∅;
              pubsubs := []; sends := []; wire := []; closes := [];
              dispatched := []; delivered := []; math_random := random;
              random_calls := 0; send_throws := throws; send_calls := 0 |} |}.

(** ** Two instances in one module *)

(** Two [Pubs] instances of one page share the module-level state and
    nothing else. *)
Inductive Which := First | Second.

Record Page := {
  shared : Global;
  first : Pubs * Runtime;
  second : Pubs * Runtime;
}.

Definition view (i : Which) (t : Page) : World :=
  match i with
  | First => {| glob := shared t; this := (first t).1; rt := (first t).2 |}
  | Second => {| glob := shared t; this := (second t).1; rt := (second t).2 |}
  end.

Definition on_instance (i : Which) (f : World → World) (t : Page) : Page :=
  let w := f (view i t) in
  match i with
  | First => {| shared := glob w; first := (this w, rt w); second := second t |}
  | Second => {| shared := glob w; first := first t; second := (this w, rt w) |}
  end.

Definition run_page (es : list (Which * Event)) (t : Page) : Page :=
  foldl (λ t ie, on_instance ie.1 (step ie.2) t) t es.

Definition new_page (g : Global) (random : nat → Q)
    (throws : nat → option string) : Page :=
  let w := new_Pubs g random throws in
  {| shared := g; first := (this w, rt w); second := (this w, rt w) |}.

(** The correlation ids given to [socket.send] so far, oldest first. *)
Definition sent_states (w : World) : list string :=
  (λ x, state x.2) <$> wire (rt w).

(** ** The delay as the specification words it *)



(** ** Worlds used as examples *)

Definition no_random : nat → Q := λ _, 0%Q.
Definition never_throws : nat → option string := λ _, None.

Definition module_loaded : Global :=
  {| websocketSequence := 0; options := PubsInit_options |}.

Definition fresh : World := new_Pubs module_loaded no_random never_throws.

Definition stream_at (url : string) : FetchResult :=
  Fetched {| error := None; streamUrl := url |}.

Definition forbidden : FetchResult :=
  Fetched {| error := Some {| code := "http_error_403";
                              msg := Some "forbidden" |};
             streamUrl := "" |}.

(** An instance whose first connection is established. *)
Definition established : World :=
  run [Call_connect; Handshake 0 (stream_at "/stream"); Socket_open 0] fresh.

Definition hello : IStreamEnvelope :=
  {| type := "hello"; state := ""; info := None; data := None |}.


Definition reconnect_disabled : Options :=
  {| connectTimeout := 5000; heartbeatInterval := 5000;
     maxReconnectInterval := 30000; reconnectEnabled := false;
     reconnectFactor := 3 # 2; reconnectInterval := 1000;
     reconnectSpreader := 500; streamAckTimeout := 20000 |}.





(** Two instances of one page, both connected. *)
Definition two_established : Page :=
  run_page [(First, Call_connect); (First, Handshake 0 (stream_at "/stream"));
            (First, Socket_open 0);
            (Second, Call_connect); (Second, Handshake 0 (stream_at "/stream"));
            (Second, Socket_open 0)]
    (new_page module_loaded no_random never_throws).

Definition other (i : Which) : Which :=
  match i with First => Second | Second => First end.

(** The server answered the first handshake with "forbidden". *)
Definition refused : World :=
  run [Call_connect; Handshake 0 forbidden] fresh.

(** A retry is scheduled after a failed handshake; then the owner of the
    instance clears the public field [reconnecting]. *)
Definition retry_pending_flag_cleared : World :=
  run [Call_connect; Handshake 0 (FetchFailed "offline");
       Assign_reconnecting false] fresh.

(** The established connection closed; a retry is scheduled. *)
Definition connection_lost : World :=
  run [Call_connect; Handshake 0 (stream_at "/stream"); Socket_open 0;
       Socket_close 0] fresh.

(** A connection attempt that is not to be retried: the owner cleared
    [reconnecting] after [connect()]. *)
Definition single_attempt : World :=
  run [Call_connect; Assign_reconnecting false;
       Handshake 0 (stream_at "/stream")] fresh.

(** ** Invariants *)

(** No [connect()] call has run yet. *)
Definition never_connected (w : World) : Prop :=
  gate (this w) = None ∧ connected (this w) = false ∧ calls (rt w) = []
  ∧ attempts (rt w) = ∅ ∧ timers (rt w) = ∅ ∧ wire (rt w) = []
  ∧ send_calls (rt w) = 0%nat.



(** The ids on the wire are the decimal forms of strictly increasing
    numbers, none above [n]. *)
Definition ids_below (n : N) (l : list string) : Prop :=
  ∃ ns : list N,
    l = pretty <$> ns ∧ StronglySorted N.lt ns ∧ Forall (λ m, (m ≤ n)%N) ns.

Definition ids_increasing (l : list string) : Prop :=
  ∃ ns : list N, l = pretty <$> ns ∧ StronglySorted N.lt ns.

Definition ids_ok (w : World) : Prop :=
  ids_below (websocketSequence (glob w)) (sent_states w).

(** Every live retry timer is the one [this.reconnector] holds. *)
Definition retry_timers_wf (w : World) : Prop :=
  ∀ h d, timers (rt w) !! h = Some (d, ReconnectNow) →
         h = this_reconnector (this w).

(** Reconnecting is off and no retry is pending. *)
Definition retry_disabled (w : World) : Prop :=
  reconnecting (this w) = false
  ∧ ∀ h d, timers (rt w) !! h ≠ Some (d, ReconnectNow).

(** Between [w] and [w'] nothing was done about retries. *)
Definition retry_frame (w w' : World) : Prop :=
  this_reconnector (this w') = this_reconnector (this w)
  ∧ reconnecting (this w') = reconnecting (this w)
  ∧ ∀ h d, timers (rt w') !! h = Some (d, ReconnectNow) →
           timers (rt w) !! h = Some (d, ReconnectNow).

(** *** The promises behind [sub] and [unsub] *)

(** What the fate of a [pubsub] call depends on: the current gate, the
    promise and the reactions of every gate, the promises of the [pubsub]
    calls and the send calls. *)
Record Promises := {
  current : option nat;
  gates : list (PState unit * list (IStreamEnvelope * nat));
  subs : list (PState unit);
  sent : list SendCall;
}.

Definition gate_view (c : ConnectCall)
    : PState unit * list (IStreamEnvelope * nat) :=
  (gate_promise c, gate_reactions c).

Definition promises (w : World) : Promises :=
  {| current := gate (this w); gates := gate_view <$> calls (rt w);
     subs := pubsubs (rt w); sent := sends (rt w) |}.

(** The moves of the program on them. *)
Definition v_connect (v : Promises) : Promises :=
  {| current := Some (length (gates v)); gates := gates v ++ [(Pending, [])];
     subs := subs v; sent := sent v |}.

Definition v_sub_new (st : PState unit) (v : Promises) : Promises :=
  {| current := current v; gates := gates v; subs := subs v ++ [st];
     sent := sent v |}.

Definition v_register (k : nat) (r : IStreamEnvelope * nat) (v : Promises)
    : Promises :=
  {| current := current v;
     gates := alter (λ g, (g.1, g.2 ++ [r])) k (gates v);
     subs := subs v; sent := sent v |}.

Definition v_send_new (st : PState (option IStreamEnvelope))
    (t : option nat) (v : Promises) : Promises :=
  {| current := current v; gates := gates v; subs := subs v;
     sent := sent v ++ [{| send_promise := st; send_then := t |}] |}.

Definition v_send_reject (s : nat) (e : Rejection) (v : Promises) : Promises :=
  {| current := current v; gates := gates v; subs := subs v;
     sent := alter (λ c, set_send_promise (settle (Rejected e) (send_promise c))
                           c) s (sent v) |}.

Definition v_send_resolve (s : nat) (x : option IStreamEnvelope)
    (v : Promises) : Promises :=
  match sent v !! s with
  | Some c =>
      if is_pending (send_promise c) then
        {| current := current v; gates := gates v;
           subs := match send_then c with
                   | Some p => alter (settle (Fulfilled ())) p (subs v)
                   | None => subs v
                   end;
           sent := alter (set_send_promise (Fulfilled x)) s (sent v) |}
      else v
  | None => v
  end.

Definition v_gate_settle (k : nat) (st : PState unit) (v : Promises)
    : Promises :=
  {| current := current v; gates := alter (λ _, (st, [])) k (gates v);
     subs := subs v; sent := sent v |}.

(** The [pubsub] call [p] waits at the gate [k]. *)
Definition waits_at (v : Promises) (k p : nat) : Prop :=
  ∃ g, gates v !! k = Some g ∧ p ∈ g.2.*2.

(** The send call [s] resolves the [pubsub] call [p] when it is fulfilled. *)
Definition reacts_to (v : Promises) (s p : nat) : Prop :=
  ∃ c, sent v !! s = Some c ∧ send_then c = Some p.

(** A pending [pubsub] call that nothing will ever settle. *)
Definition dead (v : Promises) (p : nat) : Prop :=
  subs v !! p = Some Pending
  ∧ (∀ k, ¬ waits_at v k p) ∧ (∀ s, ¬ reacts_to v s p).

Definition promises_wf (v : Promises) : Prop :=
  (∀ k, current v = Some k → k < length (gates v))%nat
  ∧ (∀ k g, gates v !! k = Some g → NoDup g.2.*2)
  ∧ (∀ k1 k2 p, waits_at v k1 p → waits_at v k2 p → k1 = k2)
  ∧ (∀ k p, waits_at v k p →
       subs v !! p = Some Pending ∧ ∀ s, ¬ reacts_to v s p)
  ∧ (∀ s c p, sent v !! s = Some c → send_then c = Some p →
       subs v !! p = Some (if is_fulfilled (send_promise c)
                           then Fulfilled () else Pending))
  ∧ (∀ s1 s2 p, reacts_to v s1 p → reacts_to v s2 p → s1 = s2).

(** The [pubsub] call [p] was made while [k] was the current gate: it waits
    there while the gate is pending, it is dead once the gate is rejected. *)
Definition tracks (k p : nat) (v : Promises) : Prop :=
  ∃ g, gates v !! k = Some g ∧
       match g.1 with
       | Pending => p ∈ g.2.*2
       | Fulfilled _ => True
       | Rejected _ => dead v p
       end.

Definition never_rejected (p : nat) (v : Promises) : Prop :=
  ∃ st, subs v !! p = Some st ∧ is_rejected st = false.

(** What is tracked: nothing yet, or the [pubsub] call [p] made at gate [k]. *)
Definition tracked (t : option (nat * nat)) (v : Promises) : Prop :=
  match t with
  | Some (k, p) => tracks k p v ∧ never_rejected p v
  | None => True
  end.

Definition promises_inv (t : option (nat * nat)) (v : Promises) : Prop :=
  promises_wf v ∧ tracked t v.

(** The tracked call, if its gate is rejected. *)
Definition doomed (t : option (nat * nat)) (v : Promises) (p : nat) : Prop :=
  ∃ k g e, t = Some (k, p) ∧ gates v !! k = Some g ∧ g.1 = Rejected e.

(** What is settled in [v0] is the same in [v]: the promise of a gate, a
    send call with its promise. *)
Definition frozen (v0 v : Promises) : Prop :=
  (∀ k g, gates v0 !! k = Some g → is_pending g.1 = false →
          ∃ g', gates v !! k = Some g' ∧ g'.1 = g.1)
  ∧ (∀ s c, sent v0 !! s = Some c → is_pending (send_promise c) = false →
            sent v !! s = Some c).

(** ** The constructor, the handshake request and the URLs *)

(** [s.replace(/\/$/, '')]: a slash that ends the string is removed. *)
Fixpoint replace_trailing_slash (s : string) : string :=
  match s with
  | EmptyString => EmptyString
  | String c s' =>
      match s' with
      | EmptyString => if Ascii.eqb c "/"%char then EmptyString else s
      | String _ _ => String c (replace_trailing_slash s')
      end
  end.

Record IPubsOptions := {
  authorizationValue : option string;
  authorizationType : option string;
}.

(** The private fields [baseURI] and [options] of an instance. *)
Record PubsSettings := {
  baseURI : string;
  this_options : IPubsOptions;
}.

(** [constructor(baseURI: string = '', options?: IPubsOptions)], as far as
    these two fields go. *)
Definition Pubs_constructor (baseURI : option string)
    (options : option IPubsOptions) : PubsSettings :=
  {| baseURI := replace_trailing_slash (default "" baseURI);
     this_options :=
       default {| authorizationValue := None; authorizationType := None |}
         options |}.

(** A string that is neither missing nor empty. *)
Definition truthy (s : option string) : bool :=
  match s with
  | Some s => negb (String.eqb s "")
  | None => false
  end.

(** The header value [connect()] computes before the handshake. *)
Definition authorizationHeader (o : IPubsOptions) : string :=
  if truthy (authorizationType o) && truthy (authorizationValue o)
  then default "" (authorizationType o) +:+ " "
       +:+ default "" (authorizationValue o)
  else "".

(** What [fetchStreamWebSocketConnect] gives to [fetch]. *)
Record Request := {
  url : string;
  headers : gmap string string;
  method : string;
  mode : string;
}.

Definition handshake_request (s : PubsSettings) (authorizationHeader : string)
    : Request :=
  {| url := baseURI s +:+ "/api/pubs/v1/stream/connect";
     headers := if String.eqb authorizationHeader "" then ∅
                else {[ "Authorization" := authorizationHeader ]};
     method := "POST";
     mode := "cors" |}.

(** What [fetch] answers: a response, whose body [json()] parses or fails
    to parse, or a rejection. *)
Record Response := {
  ok : bool;
  status : N;
  statusText : string;
  json : FetchResult;
}.

Inductive FetchOutcome :=
  | Responded (r : Response)
  | FetchRejected (err : string).

(** The end of the promise [fetchStreamWebSocketConnect] returns. *)
Definition fetchStreamWebSocketConnect (o : FetchOutcome) : FetchResult :=
  match o with
  | Responded response =>
      if negb (ok response) then
        Fetched {| error := Some {| code := "http_error_"
                                            +:+ pretty (status response);
                                    msg := Some (statusText response) |};
                   streamUrl := "" |}
      else json response
  | FetchRejected err => FetchFailed err
  end.

(** [s.includes(sub)] *)
Fixpoint includes (s sub : string) : bool :=
  String.prefix sub s
  || match s with
     | EmptyString => false
     | String _ s' => includes s' sub
     end.

(** The URI [connect()] gives to [connectStreamWebSocket]. *)
Definition streamURL (s : PubsSettings) (r : IStreamWebsocketConnectResponse)
    : string :=
  if includes (streamUrl r) "://" then streamUrl r
  else baseURI s +:+ streamUrl r.

(** The case folding of a regular expression with the [i] flag, on ASCII. *)
Definition to_lower (c : ascii) : ascii :=
  let n := nat_of_ascii c in
  if (65 <=? n)%nat && (n <=? 90)%nat then ascii_of_nat (n + 32) else c.

(** [p], given in lower case, begins [s], the case of letters apart. *)
Fixpoint prefix_ignoring_case (p s : string) : bool :=
  match p, s with
  | EmptyString, _ => true
  | String a p', String b s' =>
      Ascii.eqb a (to_lower b) && prefix_ignoring_case p' s'
  | String _ _, EmptyString => false
  end.

Fixpoint string_drop (n : nat) (s : string) : string :=
  match n, s with
  | S n, String _ s' => string_drop n s'
  | _, _ => s
  end.

(** [s.replace(/^<from>/i, to)] for a literal [from] in lower case. *)
Definition replace_scheme (from to s : string) : string :=
  if prefix_ignoring_case from s
  then to +:+ string_drop (String.length from) s
  else s.

(** The URL [connectStreamWebSocket] opens the socket with, [absolute]
    being the result of [makeAbsoluteURL(uri)]. *)
Definition websocket_url (absolute : string) : string :=
  replace_scheme "http://" "ws://" (replace_scheme "https://" "wss://" absolute)
  +:+ "?v=1".

(** [new PubsDataError(data)] *)
Definition new_PubsDataError (data : IErrorWithCodeAndMessage) : Rejection :=
  PubsDataError (code data)
    (match msg data with
     | Some m => if String.eqb m "" then "" else m
     | None => ""
     end).

(** ** [PubsInit.init] *)

(** The options object given to [PubsInit.init]: each key is given or
    not. *)
Record OptionsGiven := {
  given_connectTimeout : option Z;
  given_heartbeatInterval : option Z;
  given_maxReconnectInterval : option Z;
  given_reconnectEnabled : option bool;
  given_reconnectFactor : option Q;
  given_reconnectInterval : option Z;
  given_reconnectSpreader : option Z;
  given_streamAckTimeout : option Z;
}.

(** [Object.assign(target, source)] on these keys. *)
Definition Object_assign (target : Options) (source : OptionsGiven) : Options :=
  {| connectTimeout :=
       default (connectTimeout target) (given_connectTimeout source);
     heartbeatInterval :=
       default (heartbeatInterval target) (given_heartbeatInterval source);
     maxReconnectInterval :=
       default (maxReconnectInterval target)
         (given_maxReconnectInterval source);
     reconnectEnabled :=
       default (reconnectEnabled target) (given_reconnectEnabled source);
     reconnectFactor :=
       default (reconnectFactor target) (given_reconnectFactor source);
     reconnectInterval :=
       default (reconnectInterval target) (given_reconnectInterval source);
     reconnectSpreader :=
       default (reconnectSpreader target) (given_reconnectSpreader source);
     streamAckTimeout :=
       default (streamAckTimeout target) (given_streamAckTimeout source) |}.

Definition PubsInit_init (given : OptionsGiven) (g : Global) : Global :=
  {| websocketSequence := websocketSequence g;
     options := Object_assign (options g) given |}.

(** ** Views and invariants of the further properties *)

(** *** The connection *)

(** What the state of the connection depends on. *)
Record Connection := {
  is_connecting : bool;
  is_connected : bool;
  is_reconnecting : bool;
  is_closing : bool;
  current_socket : option nat;
  current_gate : option nat;
  retries : nat;
  connect_calls : list ConnectCall;
  socket_attempts : gmap nat Attempt;
}.

Definition connection (w : World) : Connection :=
  {| is_connecting := connecting (this w);
     is_connected := connected (this w);
     is_reconnecting := reconnecting (this w);
     is_closing := closing (this w);
     current_socket := socket (this w);
     current_gate := gate (this w);
     retries := reconnectAttempts (this w);
     connect_calls := calls (rt w);
     socket_attempts := attempts (rt w) |}.

(** [connected] is set only while the instance tracks a socket that has
    opened and whose connect timeout has not fired. *)
Definition connected_is_open (v : Connection) : Prop :=
  is_connected v = true →
  ∃ k a, current_socket v = Some k ∧ socket_attempts v !! k = Some a
         ∧ onmessage a = true ∧ isTimeout a = false.

(** The handshake ends without a stream URL and with the error code of a
    forbidden request: the one case in which [connect()] clears
    [reconnecting]. *)
Definition gives_up (f : FetchResult) : bool :=
  String.eqb (streamUrl (connectResponse_of f)) ""
  && match error (connectResponse_of f) with
     | Some err => String.eqb (code err) "http_error_403"
     | None => false
     end.

(** The events that leave [reconnecting] set. *)
Definition keeps_reconnecting (e : Event) : bool :=
  match e with
  | Assign_reconnecting b => b
  | Handshake _ f => negb (gives_up f)
  | _ => true
  end.

Definition not_rejected (c : ConnectCall) : Prop :=
  is_rejected (call_promise c) = false ∧ is_rejected (gate_promise c) = false.

Definition nothing_rejected (v : Connection) : Prop :=
  (is_reconnecting v = true ∨ connect_calls v = [])
  ∧ Forall not_rejected (connect_calls v).

(** *** The table of reply handlers *)

(** Every key of the table is the decimal form of a number up to [n]. *)
Definition handlers_below (n : N)
    (m : gmap string IStreamReplyTimeoutRecord) : Prop :=
  ∀ key, is_Some (m !! key) → ∃ j : N, key = pretty j ∧ (j ≤ n)%N.

Definition handlers_ok (w : World) : Prop :=
  handlers_below (websocketSequence (glob w)) (replyHandlers (this w)).

(** *** Requests that wait at the gate *)

(** The envelope [pubsub] builds for a request, a type (sub or unsub) with
    its topics. *)
Definition request_payload (r : string * list string) : IStreamEnvelope :=
  {| type := r.1; state := "";
     info := Some {| ref := None; topics := Some r.2 |}; data := None |}.

(** *** The promise of a [connect()] call and the socket of the call *)

(** A call whose promise or whose gate is fulfilled has a socket of its
    own, whose attempt is fulfilled; a call that has a socket awaits its
    handshake no more. *)
Definition fulfilled_by_own_socket (v : Connection) : Prop :=
  (∀ k c, connect_calls v !! k = Some c →
          is_fulfilled (call_promise c) || is_fulfilled (gate_promise c)
          = true →
          ∃ a, socket_attempts v !! k = Some a
               ∧ attempt_promise a = Fulfilled ())
  ∧ (∀ k a, socket_attempts v !! k = Some a →
            ∃ c, connect_calls v !! k = Some c ∧ awaiting c = false).

(** ** The classes of [events.ts] and the switch of [dispatchEvent] *)

Inductive EventClass :=
  | PubsBaseEvent_class
  | PubsStateChangedEvent_class
  | PubsStreamEvent_class
  | PubsErrorEvent_class.

(** The static [eventName] of a class, which [getName()] returns. *)
Definition getName (c : EventClass) : string :=
  match c with
  | PubsBaseEvent_class => "PubsBaseEvent"
  | PubsStateChangedEvent_class => "PubsStateChangedEvent"
  | PubsStreamEvent_class => "PubsStreamEvent"
  | PubsErrorEvent_class => "PubsErrorEvent"
  end.

(** The class an event was constructed with. *)
Definition class_of (event : PubsEvent) : EventClass :=
  match event with
  | PubsStateChangedEvent _ _ _ => PubsStateChangedEvent_class
  | PubsStreamEvent _ _ => PubsStreamEvent_class
  | PubsErrorEvent _ _ => PubsErrorEvent_class
  end.

Inductive HandlerSlot := Onstatechanged | Onstreamevent | Onerror.

Definition assigned (s : HandlerSlot) (p : Pubs) : bool :=
  match s with
  | Onstatechanged => onstatechanged p
  | Onstreamevent => onstreamevent p
  | Onerror => onerror p
  end.

(** The switch of [dispatchEvent] on [event.constructor.getName()]: the
    handler slot of the case taken, or the message of the error thrown. *)
Definition dispatchEvent_switch (c : EventClass) : HandlerSlot + string :=
  let name := getName c in
  if String.eqb name (getName PubsStateChangedEvent_class)
  then inl Onstatechanged
  else if String.eqb name (getName PubsStreamEvent_class)
  then inl Onstreamevent
  else if String.eqb name (getName PubsErrorEvent_class) then inl Onerror
  else inr ("unknown event: " +:+ name).

(** *** Handshakes that fail one after the other *)




(** The event [dispatchStreamEvent] makes of a message. *)
Definition stream_event (m : IStreamEnvelope) : PubsEvent :=
  PubsStreamEvent (data m) (info m).

(** ** Further examples *)

(** An instance with an established connection whose socket refuses to
    send. *)
Definition send_fails : World :=
  run [Call_connect; Handshake 0 (stream_at "/stream"); Socket_open 0]
    (new_Pubs module_loaded no_random (λ _, Some "InvalidStateError")).

Definition ack_1 : IStreamEnvelope :=
  {| type := "ack"; state := "1"; info := None; data := None |}.

Definition goodbye : IStreamEnvelope :=
  {| type := "goodbye"; state := ""; info := None; data := None |}.

Definition an_event : IStreamEnvelope :=
  {| type := "event"; state := ""; info := None; data := Some "{}" |}.

(** * Properties *)

(** ** Tactics and frame lemmas *)

Ltac unfold_model :=
  unfold step, sub, unsub, fire_timer, run_timer, socket_onopen,
    socket_onclose, socket_onerror, handleStreamWebSocketMessage,
    connect_timeout, connect_continue, pubsub, then_gate, connect,
    resolve_attempt, reject_attempt, connection_established,
    connection_failed, connectStreamWebSocket, closeStreamWebsocket,
    reconnector, dispatchStateChangedEvent, dispatchErrorEvent,
    dispatchStreamEvent, dispatchEvent, resolve_call, reject_call, gateReject,
    resolve_send, reject_send, then_send, resolve_pubsub, reject_pubsub,
    setTimeout, clearTimeout, Math_random_called, on_call, on_attempt,
    is_current in *.

Ltac split_cases := repeat (case_match || case_bool_decide); simpl.


Lemma this_dispatchEvent e w : this (dispatchEvent e w) = this w.
Proof. done. Qed.

Lemma this_dispatchStateChangedEvent w :
  this (dispatchStateChangedEvent w) = this w.
Proof. apply this_dispatchEvent. Qed.

(** ** C2: what [connect()] does to the flags *)

(** C2 (code defect).  Every [connect()] call sets [connecting] to [true],
    but it sets [reconnecting] to [reconnectEnabled || true], that is to
    [true] whatever the option says: with [reconnectEnabled = false] the
    flag is [true] after [connect()], where the claim wants it [false]. *)
Theorem C2_connect_ignores_reconnectEnabled :
  (∀ w, connecting (this (connect w)) = true
        ∧ reconnecting (this (connect w)) = true)
  ∧ (let w := new_Pubs {| websocketSequence := 0;
                          options := reconnect_disabled |}
                no_random never_throws in
     reconnectEnabled (options (glob w)) = false
     ∧ reconnecting (this (connect w)) = true).
Proof.
  split; [intros w|]; unfold connect; simpl;
    rewrite ?this_dispatchStateChangedEvent; simpl;
    by rewrite ?orb_true_r.
Qed.

(** ** C6: the delay of a retry *)











(** ** C4, C5: sending and the table of pending replies *)

(** C4 (code defect).  A send with [replyTimeout = 0] on a connected
    instance does not settle once the payload is transmitted: the zero is
    replaced with [streamAckTimeout], so with a positive default the call
    registers a reply handler and a timeout and stays pending until the
    acknowledgement or the timeout, against the documentation of the
    parameter ("If 0, then no callback is expected and none is
    registered"). *)
Theorem C4_send_zero_waits_for_reply (w : World) (payload : IStreamEnvelope)
    (sock : nat) :
  connected (this w) = true → socket (this w) = Some sock →
  closing (this w) = false →
  send_throws (rt w) (send_calls (rt w)) = None →
  0 < streamAckTimeout (options (glob w)) →
  let w' := sendStreamWebSocketPayload payload 0 w in
  let s := length (sends (rt w)) in
  let id := pretty (websocketSequence (glob w) + 1)%N in
  wire (rt w') = wire (rt w) ++ [(sock, set_state id payload)]
  ∧ sends (rt w') !! s = Some {| send_promise := Pending; send_then := None |}
  ∧ replyHandlers (this w') !! id
    = Some {| resolve := s; timeout := next_handle (rt w) |}
  ∧ timers (rt w') !! next_handle (rt w)
    = Some (streamAckTimeout (options (glob w)), ReplyTimeout s)
  ∧ (∀ h d, timers (rt w') !! h = Some (d, ResolveSend s) →
            timers (rt w) !! h = Some (d, ResolveSend s)).
Proof.
  intros Hc Hs Hcl Hth Hack. unfold sendStreamWebSocketPayload. simpl.
  rewrite Hc, Hs, Hcl, Hth. simpl.
  apply Z.ltb_lt in Hack. rewrite Hack. simpl.
  split; [done|]. split; [by rewrite lookup_app_r, Nat.sub_diag by done|].
  split; [by rewrite lookup_insert_eq|].
  split; [by rewrite lookup_insert_eq|].
  intros h d. rewrite lookup_insert. case_decide; [done|done].
Qed.

Lemma C4_send_zero_waits_for_reply_witness :
  sends (rt (sendStreamWebSocketPayload hello 0 established)) !! 0%nat
  = Some {| send_promise := Pending; send_then := None |}
  ∧ timers (rt (sendStreamWebSocketPayload hello 0 established)) !! 2%nat
    = Some (20000, ReplyTimeout 0).
Proof.
  destruct (C4_send_zero_waits_for_reply established hello 0)
    as (_ & Hp & _ & Ht & _); [reflexivity..|by vm_compute|].
  split; [exact Hp|exact Ht].
Defined.

(** C5 (code defect).  The timeout of a pending reply rejects the call and
    nothing else: the entry stays in [replyHandlers], where only a matching
    acknowledgement removes it.  After [Call_send hello 100] on a connected
    instance and the firing of its timer the entry for id "1" is still
    there. *)
Theorem C5_timeout_keeps_reply_handler :
  (∀ s w, replyHandlers (this (run_timer (ReplyTimeout s) w))
          = replyHandlers (this w))
  ∧ (let w := run [Call_send hello 100; Timer 2] established in
     replyHandlers (this w) !! "1" = Some {| resolve := 0; timeout := 2 |}
     ∧ timers (rt w) !! 2%nat = None
     ∧ sends (rt w) !! 0%nat
       = Some {| send_promise := Rejected (Error "timeout");
                 send_then := None |}).
Proof. split; [done|]. by vm_compute. Qed.

(** ** C9: subscribing before any [connect()] *)

Lemma never_connected_new g random throws :
  never_connected (new_Pubs g random throws).
Proof. by repeat split. Qed.

Lemma pubsub_no_gate ty tops w :
  gate (this w) = None →
  pubsub ty tops w
  = reject_pubsub (length (pubsubs (rt w)))
      (Error "no gate - connected not called?")
      (on_rt (λ r, rt_pubsubs (pubsubs r ++ [Pending]) r) w).
Proof. intros Hg. unfold pubsub. simpl. by rewrite Hg. Qed.

Lemma send_not_connected payload replyTimeout w :
  connected (this w) = false →
  sendStreamWebSocketPayload payload replyTimeout w
  = reject_send (length (sends (rt w))) (Error "no_connection")
      (on_rt (λ r, rt_sends
         (sends r ++ [{| send_promise := Pending; send_then := None |}]) r) w).
Proof. intros Hc. unfold sendStreamWebSocketPayload. simpl. by rewrite Hc. Qed.

Lemma never_connected_step e w :
  e ≠ Call_connect → never_connected w → never_connected (step e w).
Proof.
  intros He (Hg & Hc & Hcalls & Hatt & Htim & Hwire & Hsc).
  destruct e; simpl; try done.
  - unfold sub. by rewrite pubsub_no_gate.
  - unfold unsub. by rewrite pubsub_no_gate.
  - by rewrite send_not_connected.
  - by rewrite Hcalls.
  - unfold socket_onopen. by rewrite Hatt, lookup_empty.
  - unfold socket_onclose. by rewrite Hatt, lookup_empty.
  - unfold socket_onerror. by rewrite Hatt, lookup_empty.
  - by rewrite Hatt, lookup_empty.
  - unfold fire_timer. by rewrite Htim, lookup_empty.
Qed.

Lemma never_connected_run es w :
  Forall (λ e, e ≠ Call_connect) es → never_connected w →
  never_connected (run es w).
Proof.
  intros Hes. revert w. induction Hes as [|e es He _ IH]; intros w Hw; [done|].
  simpl. apply IH. by apply never_connected_step.
Qed.

(** C9.  As long as no [connect()] call has run, whatever else happened to
    the instance, [sub(topics)] and [unsub(topics)] reject at once with the
    error 'no gate - connected not called?' and give nothing to the
    socket. *)
Theorem C9_sub_before_connect_rejects (g : Global) (random : nat → Q)
    (throws : nat → option string) (es : list Event) (tops : list string) :
  Forall (λ e, e ≠ Call_connect) es →
  let w := run es (new_Pubs g random throws) in
  ∀ call, call = sub tops ∨ call = unsub tops →
    pubsubs (rt (call w)) !! length (pubsubs (rt w))
    = Some (Rejected (Error "no gate - connected not called?"))
    ∧ wire (rt (call w)) = []
    ∧ send_calls (rt (call w)) = 0%nat
    ∧ sends (rt (call w)) = sends (rt w).
Proof.
  intros Hes w call Hcall.
  destruct (never_connected_run es _ Hes (never_connected_new g random throws))
    as (Hg & _ & _ & _ & _ & Hwire & Hsc).
  fold w in Hg, Hwire, Hsc. clearbody w.
  destruct Hcall as [-> | ->]; unfold sub, unsub;
    rewrite pubsub_no_gate by done; simpl;
    by rewrite list_lookup_alter_eq, lookup_app_r, Nat.sub_diag.
Qed.

Lemma C9_sub_before_connect_rejects_witness :
  pubsubs (rt (sub ["a"] (run [Call_send hello 0; Socket_open 0] fresh)))
    !! 0%nat
  = Some (Rejected (Error "no gate - connected not called?"))
  ∧ wire (rt (sub ["a"] (run [Call_send hello 0; Socket_open 0] fresh))) = [].
Proof.
  destruct (C9_sub_before_connect_rejects module_loaded no_random never_throws
              [Call_send hello 0; Socket_open 0] ["a"]) with (call := sub ["a"])
    as (H1 & H2 & _).
  - by repeat constructor.
  - by left.
  - split; [exact H1|exact H2].
Defined.

(** ** C3: callbacks of a socket that is not the current one *)

Lemma is_current_false k w : socket (this w) ≠ Some k → is_current k w = false.
Proof. intros H. unfold is_current. by apply bool_decide_eq_false. Qed.







(** ** C8: the correlation counter *)

Lemma ids_below_mono n n' l : (n ≤ n')%N → ids_below n l → ids_below n' l.
Proof.
  intros Hn (ns & -> & Hs & Hf). exists ns. repeat split; try done.
  eapply Forall_impl; [done|]. simpl. lia.
Qed.

Lemma StronglySorted_snoc (ns : list N) n :
  StronglySorted N.lt ns → Forall (λ m, (m < n)%N) ns →
  StronglySorted N.lt (ns ++ [n]).
Proof.
  induction 1 as [|m ns Hs IH Hm]; intros Hf; simpl.
  - repeat constructor.
  - inversion Hf; subst. constructor; [by apply IH|].
    apply Forall_app. split; [done|]. by repeat constructor.
Qed.

Lemma ids_below_snoc n l :
  ids_below n l → ids_below (n + 1) (l ++ [pretty (n + 1)%N]).
Proof.
  intros (ns & -> & Hs & Hf). exists (ns ++ [n + 1]%N).
  split; [by rewrite fmap_app|]. split.
  - apply StronglySorted_snoc; [done|]. eapply Forall_impl; [done|]. simpl. lia.
  - apply Forall_app. split; [eapply Forall_impl; [done|]; simpl; lia|].
    repeat constructor. lia.
Qed.

Lemma ids_ok_send payload t w :
  ids_ok w →
  ids_ok (sendStreamWebSocketPayload payload t w)
  ∧ (websocketSequence (glob w)
     ≤ websocketSequence (glob (sendStreamWebSocketPayload payload t w)))%N.
Proof.
  intros H.
  unfold sendStreamWebSocketPayload, ids_ok, sent_states, reject_send,
    setTimeout in *. simpl.
  repeat case_match; simpl; try (split; [done|lia]).
  all: rewrite ?fmap_app; simpl; split; try lia.
  all: try by apply ids_below_snoc.
  all: eapply ids_below_mono; [|done]; lia.
Qed.

Lemma ids_ok_then_send s p w : ids_ok w → ids_ok (then_send s p w).
Proof. intros H. unfold then_send, resolve_pubsub. by repeat case_match. Qed.

Lemma glob_then_send s p w : glob (then_send s p w) = glob w.
Proof. unfold then_send, resolve_pubsub. by repeat case_match. Qed.

Lemma ids_ok_reaction w r :
  ids_ok w →
  ids_ok (pubsub_reaction w r)
  ∧ (websocketSequence (glob w)
     ≤ websocketSequence (glob (pubsub_reaction w r)))%N.
Proof.
  intros H. unfold pubsub_reaction. rewrite glob_then_send.
  destruct (ids_ok_send r.1 0 w H). split; [by apply ids_ok_then_send|done].
Qed.

Lemma ids_ok_reactions rs w :
  ids_ok w →
  ids_ok (foldl pubsub_reaction w rs)
  ∧ (websocketSequence (glob w)
     ≤ websocketSequence (glob (foldl pubsub_reaction w rs)))%N.
Proof.
  revert w. induction rs as [|r rs IH]; intros w H; simpl; [done|].
  destruct (ids_ok_reaction w r H) as [H1 H2].
  destruct (IH _ H1) as [H3 H4]. split; [done|lia].
Qed.

Lemma ids_ok_gateResolve k w :
  ids_ok w →
  ids_ok (gateResolve k w)
  ∧ (websocketSequence (glob w)
     ≤ websocketSequence (glob (gateResolve k w)))%N.
Proof.
  intros H. unfold gateResolve. repeat case_match; try done.
  by apply (ids_ok_reactions _ (on_call _ _ w)).
Qed.

Lemma ids_ok_step e w :
  ids_ok w →
  ids_ok (step e w)
  ∧ (websocketSequence (glob w) ≤ websocketSequence (glob (step e w)))%N.
Proof.
  intros H. destruct e; unfold_model; simpl.
  all: split_cases; try done.
  all: lazymatch goal with
       | |- ids_ok (sendStreamWebSocketPayload ?p ?t ?w') ∧ _ =>
           by apply (ids_ok_send p t w')
       | |- ids_ok (pubsub_reaction ?w' ?r) ∧ _ =>
           by apply (ids_ok_reaction w' r)
       | |- ids_ok (gateResolve ?k ?w') ∧ _ =>
           by apply (ids_ok_gateResolve k w')
       end.
Qed.

Lemma ids_ok_page i e t :
  ids_ok (view First t) → ids_ok (view Second t) →
  ids_ok (view First (on_instance i (step e) t))
  ∧ ids_ok (view Second (on_instance i (step e) t)).
Proof.
  intros H1 H2. destruct i; simpl.
  - destruct (ids_ok_step e _ H1) as [H3 H4]. split; [by destruct (step _ _)|].
    unfold ids_ok in *. simpl in *. by eapply ids_below_mono.
  - destruct (ids_ok_step e _ H2) as [H3 H4]. split; [|by destruct (step _ _)].
    unfold ids_ok in *. simpl in *. by eapply ids_below_mono.
Qed.

Lemma ids_ok_run_page es t :
  ids_ok (view First t) → ids_ok (view Second t) →
  ids_ok (view First (run_page es t)) ∧ ids_ok (view Second (run_page es t)).
Proof.
  revert t. induction es as [|[i e] es IH]; intros t H1 H2; simpl; [done|].
  destruct (ids_ok_page i e t H1 H2). by apply IH.
Qed.

Lemma ids_increasing_page g random throws es i :
  ids_increasing (sent_states (view i (run_page es (new_page g random throws)))).
Proof.
  destruct (ids_ok_run_page es (new_page g random throws)) as [H1 H2].
  - exists []. by repeat constructor.
  - exists []. by repeat constructor.
  - destruct i; [destruct H1 as (ns & ? & ? & _)|destruct H2 as (ns & ? & ? & _)];
      by exists ns.
Qed.

(** C8 (as the code has it).  The correlation counter is the module-level
    [websocketSequence], one for all the instances of the page: an envelope
    given to the socket of one instance takes the next number and leaves the
    counter, as the other instance sees it, one higher.  The ids an instance
    gave to its socket are strictly increasing, whatever happened on the two
    instances since the page was loaded. *)
Theorem C8_correlation_counter_is_shared (t : Page) (i : Which)
    (payload : IStreamEnvelope) (replyTimeout : Z) (sock : nat) :
  connected (this (view i t)) = true →
  socket (this (view i t)) = Some sock →
  closing (this (view i t)) = false →
  send_throws (rt (view i t)) (send_calls (rt (view i t))) = None →
  let t' := on_instance i (sendStreamWebSocketPayload payload replyTimeout) t in
  let id := (websocketSequence (shared t) + 1)%N in
  wire (rt (view i t')) = wire (rt (view i t)) ++ [(sock, set_state (pretty id) payload)]
  ∧ websocketSequence (glob (view (other i) t')) = id
  ∧ this (view (other i) t') = this (view (other i) t)
  ∧ rt (view (other i) t') = rt (view (other i) t)
  ∧ (∀ g random throws es j,
       ids_increasing
         (sent_states (view j (run_page es (new_page g random throws))))).
Proof.
  intros Hc Hs Hcl Hth t' id.
  split; [|split; [|split; [|split]]].
  - subst t'. destruct i; simpl in *;
      unfold sendStreamWebSocketPayload; simpl;
      rewrite Hc, Hs, Hcl, Hth; simpl; by case_match.
  - subst t'. destruct i; simpl in *;
      unfold sendStreamWebSocketPayload; simpl;
      rewrite Hc, Hs, Hcl, Hth; simpl; by case_match.
  - by destruct i.
  - by destruct i.
  - intros. apply ids_increasing_page.
Qed.

Lemma C8_correlation_counter_is_shared_witness :
  websocketSequence
    (glob (view Second
       (on_instance First (sendStreamWebSocketPayload hello 0)
          two_established))) = 1%N.
Proof.
  destruct (C8_correlation_counter_is_shared two_established First hello 0 0)
    as (_ & H & _); [vm_compute; reflexivity..|].
  exact H.
Defined.

(** The claim as worded wants the ids of one instance untouched by sends on
    another.  With two connected instances, the first send of the second
    instance carries id "1" when the first instance stayed silent and id "2"
    when it sent before. *)
Lemma C8_counterexample :
  sent_states (view Second
    (run_page [(Second, Call_send hello 0)] two_established)) = ["1"]
  ∧ sent_states (view Second
      (run_page [(First, Call_send hello 0); (Second, Call_send hello 0)]
         two_established)) = ["2"].
Proof. split; vm_compute; reflexivity. Qed.

(** ** C7, C1: the retry timer and the [reconnecting] flag *)

Ltac solve_retry_timers H :=
  let h := fresh "h" in let d := fresh "d" in let Hl := fresh "Hl" in
  intros h d Hl; simpl in *;
  repeat first [ rewrite lookup_insert in Hl | rewrite lookup_delete in Hl
               | case_decide ];
  simplify_eq; try done;
  try (by apply H in Hl); try (by eapply H).

Lemma retry_frame_refl w : retry_frame w w.
Proof. by repeat split. Qed.

Lemma retry_frame_trans w1 w2 w3 :
  retry_frame w1 w2 → retry_frame w2 w3 → retry_frame w1 w3.
Proof.
  intros (H1 & H2 & H3) (H4 & H5 & H6). repeat split; [congruence..|].
  intros h d Hl. by apply H3, H6.
Qed.

Lemma retry_frame_send payload t w :
  retry_frame w (sendStreamWebSocketPayload payload t w).
Proof.
  unfold sendStreamWebSocketPayload, reject_send, setTimeout, retry_frame.
  split_cases; repeat split; try done; solve_retry_timers I.
Qed.

Lemma retry_frame_then_send s p w : retry_frame w (then_send s p w).
Proof.
  unfold then_send, resolve_pubsub, retry_frame.
  split_cases; by repeat split.
Qed.

Lemma retry_frame_reaction w r : retry_frame w (pubsub_reaction w r).
Proof.
  unfold pubsub_reaction. eapply retry_frame_trans;
    [apply retry_frame_send|apply retry_frame_then_send].
Qed.

Lemma retry_frame_reactions rs w : retry_frame w (foldl pubsub_reaction w rs).
Proof.
  revert w. induction rs as [|r rs IH]; intros w; simpl;
    [apply retry_frame_refl|].
  eapply retry_frame_trans; [apply retry_frame_reaction|apply IH].
Qed.

Lemma retry_frame_gateResolve k w : retry_frame w (gateResolve k w).
Proof.
  unfold gateResolve. split_cases; try apply retry_frame_refl.
  apply (retry_frame_reactions _ (on_call _ _ w)).
Qed.

Lemma retry_timers_wf_frame w w' :
  retry_frame w w' → retry_timers_wf w → retry_timers_wf w'.
Proof.
  intros (H1 & _ & H3) H h d Hl. rewrite H1. by eapply H, H3.
Qed.

Lemma retry_disabled_frame w w' :
  retry_frame w w' → retry_disabled w → retry_disabled w'.
Proof.
  intros (_ & H2 & H3) [Hr H]. split; [congruence|].
  intros h d Hl. by eapply H, H3.
Qed.

Ltac peel_retry_frame lem :=
  lazymatch goal with
  | |- _ (sendStreamWebSocketPayload ?p ?t ?w') =>
      apply (lem w' _ (retry_frame_send p t w'))
  | |- _ (pubsub_reaction ?w' ?r) =>
      apply (lem w' _ (retry_frame_reaction w' r))
  | |- _ (gateResolve ?k ?w') =>
      apply (lem w' _ (retry_frame_gateResolve k w'))
  | |- _ => idtac
  end.

Lemma retry_timers_wf_step e w :
  retry_timers_wf w → retry_timers_wf (step e w).
Proof.
  intros H. destruct e; unfold_model; simpl.
  all: split_cases; try done.
  all: peel_retry_frame retry_timers_wf_frame.
  all: unfold retry_timers_wf in *; simpl.
  all: solve_retry_timers H.
Qed.

Lemma retry_timers_wf_new g random throws :
  retry_timers_wf (new_Pubs g random throws).
Proof. intros h d. simpl. by rewrite lookup_empty. Qed.

Lemma retry_timers_wf_run es w :
  retry_timers_wf w → retry_timers_wf (run es w).
Proof.
  revert w. induction es as [|e es IH]; intros w H; simpl; [done|].
  by apply IH, retry_timers_wf_step.
Qed.

Lemma retry_disabled_step e w :
  e ≠ Call_connect → e ≠ Assign_reconnecting true →
  retry_disabled w → retry_disabled (step e w).
Proof.
  intros He1 He2 [Hr H]. destruct e; try done; unfold_model; simpl.
  all: split_cases.
  all: peel_retry_frame retry_disabled_frame.
  all: unfold retry_disabled in *; simpl.
  all: split_cases.
  all: try (by destruct b).
  all: try (exfalso; eapply H; eassumption).
  all: try (exfalso; simpl in *; rewrite ?Hr in *; simpl in *; congruence).
  all: split; [done || (simpl in *; congruence)|]; intros ?h ?d Hl;
       repeat first [ rewrite lookup_insert in Hl | rewrite lookup_delete in Hl
                    | case_decide ];
       simplify_eq; try done; by eapply H.
Qed.

Lemma retry_disabled_run es w :
  Forall (λ e, e ≠ Call_connect ∧ e ≠ Assign_reconnecting true) es →
  retry_disabled w → retry_disabled (run es w).
Proof.
  intros Hes. revert w.
  induction Hes as [|e es [He1 He2] _ IH]; intros w H; simpl; [done|].
  by apply IH, retry_disabled_step.
Qed.

(** C1 (as the code has it).  When the handshake of a [connect()] call ends
    with the error code http_error_403 and no stream URL while [reconnecting]
    is set, the state change to [connecting = false], the state change to
    [reconnecting = false] and one error event are dispatched, in this order
    and nothing else; [reconnecting] is false, no retry timer is left and the
    promise of the call stays pending.  This lasts as long as [connect()] is
    not called and the owner does not set [reconnecting] again.  It does not
    outlast a [connect()] call: [connect()] sets [reconnecting] from the
    configuration, so with reconnecting enabled there a later [connect()]
    retries on its own again. *)
Theorem C1_forbidden_handshake (g : Global) (random : nat → Q)
    (throws : nat → option string) (es0 : list Event) (k : nat)
    (c : ConnectCall) (err : IErrorWithCodeAndMessage) (es : list Event) :
  let w := run es0 (new_Pubs g random throws) in
  let w' :=
    step (Handshake k (Fetched {| error := Some err; streamUrl := "" |})) w in
  calls (rt w) !! k = Some c → awaiting c = true →
  reconnecting (this w) = true →
  code err = "http_error_403" →
  dispatched (rt w')
  = dispatched (rt w)
    ++ [PubsStateChangedEvent false (connected (this w)) true;
        PubsStateChangedEvent false (connected (this w)) false;
        PubsErrorEvent "http_error_403" (msg err)]
  ∧ retry_disabled w'
  ∧ calls (rt w') !! k = Some (set_awaiting false c)
  ∧ (Forall (λ e, e ≠ Call_connect ∧ e ≠ Assign_reconnecting true) es →
     retry_disabled (run es w'))
  ∧ (reconnectEnabled (options (glob (run es w'))) = true →
     reconnecting (this (connect (run es w'))) = true).
Proof.
  intros w w' Hc Ha Hr Hcode.
  pose proof (retry_timers_wf_run es0 _ (retry_timers_wf_new g random throws))
    as Hwf. fold w in Hwf. clearbody w.
  assert (Hstep :
    dispatched (rt w')
    = dispatched (rt w)
      ++ [PubsStateChangedEvent false (connected (this w)) true;
          PubsStateChangedEvent false (connected (this w)) false;
          PubsErrorEvent "http_error_403" (msg err)]
    ∧ retry_disabled w'
    ∧ calls (rt w') !! k = Some (set_awaiting false c)).
  { subst w'. simpl. rewrite Hc, Ha. unfold retry_disabled.
    unfold_model. simpl. rewrite Hr. simpl. rewrite Hcode. simpl.
    rewrite list_lookup_alter_eq, Hc, <- !app_assoc.
    split; [done|]. split; [|done]. split; [done|].
    intros h d Hl. rewrite lookup_delete in Hl. case_decide; [done|].
    apply Hwf in Hl. congruence. }
  destruct Hstep as (Hd & Hdis & Hk).
  split; [done|]. split; [done|]. split; [done|]. split.
  - intros Hes. by apply retry_disabled_run.
  - intros _. unfold connect. simpl. by rewrite orb_true_r.
Qed.

Lemma C1_forbidden_handshake_witness :
  dispatched (rt refused)
  = [PubsStateChangedEvent true false true;
     PubsStateChangedEvent false false true;
     PubsStateChangedEvent false false false;
     PubsErrorEvent "http_error_403" (Some "forbidden")]
  ∧ retry_disabled (run [Call_sub ["a"]; Timer 1] refused).
Proof.
  destruct (C1_forbidden_handshake module_loaded no_random never_throws
              [Call_connect] 0
              {| call_promise := Pending; gate_promise := Pending;
                 gate_reject := true; gate_reactions := []; awaiting := true |}
              {| code := "http_error_403"; msg := Some "forbidden" |}
              [Call_sub ["a"]; Timer 1])
    as (Hd & _ & _ & Hes & _); [vm_compute; reflexivity..|].
  split; [exact Hd|]. apply Hes. repeat constructor; discriminate.
Defined.

(** The claim as worded has [reconnecting] stay false for good and a later
    [connect()] not retry on its own.  After the forbidden handshake a second
    [connect()], with nothing re-enabled by hand, sets [reconnecting] to
    true, and when its handshake fails a retry is scheduled. *)
Lemma C1_counterexample :
  reconnecting (this refused) = false
  ∧ reconnecting (this (run [Call_connect] refused)) = true
  ∧ timers (rt (run [Call_connect; Handshake 1 (FetchFailed "offline")]
                  refused)) !! 1%nat
    = Some (1000, ReconnectNow).
Proof. repeat split; vm_compute; reflexivity. Qed.

(** C7 (as the code has it).  The [reconnecting] flag is read when a retry
    is scheduled, not when its timer fires: a scheduling call leaves a retry
    timer only if the flag is set, and then exactly the one it creates, the
    former one being cleared; a retry timer that fires calls [connect()]
    whatever the flag says, which starts a handshake.  At any time at most
    one retry timer is live. *)
Theorem C7_retry_flag_read_when_scheduling (g : Global) (random : nat → Q)
    (throws : nat → option string) (es : list Event) :
  let w := run es (new_Pubs g random throws) in
  (∀ h1 h2 d1 d2,
     timers (rt w) !! h1 = Some (d1, ReconnectNow) →
     timers (rt w) !! h2 = Some (d2, ReconnectNow) → h1 = h2)
  ∧ (∀ fast h d,
       timers (rt (reconnector fast w)) !! h = Some (d, ReconnectNow) →
       reconnecting (this w) = true ∧ h = next_handle (rt w))
  ∧ (∀ h d,
       timers (rt w) !! h = Some (d, ReconnectNow) →
       step (Timer h) w = connect (clearTimeout h w)
       ∧ connecting (this (step (Timer h) w)) = true
       ∧ length (calls (rt (step (Timer h) w))) = S (length (calls (rt w)))).
Proof.
  intros w.
  pose proof (retry_timers_wf_run es _ (retry_timers_wf_new g random throws))
    as Hwf. fold w in Hwf. clearbody w.
  split; [|split].
  - intros h1 h2 d1 d2 H1 H2. apply Hwf in H1, H2. congruence.
  - intros fast h d. unfold reconnector. simpl.
    destruct (reconnecting (this w)); simpl.
    + destruct fast; simpl; rewrite lookup_insert; case_decide; try done;
        rewrite lookup_delete; case_decide; try done;
        intros Hl; apply Hwf in Hl; congruence.
    + rewrite lookup_delete. case_decide; [done|].
      intros Hl. apply Hwf in Hl. congruence.
  - intros h d Hl. simpl. unfold fire_timer. rewrite Hl. simpl.
    split; [done|]. unfold connect. simpl.
    split; [done|]. rewrite length_app. simpl. lia.
Qed.

(** The claim as worded has the timer check the flag when it fires.  Here a
    retry is pending, the owner clears [reconnecting], and the timer fires:
    [connect()] runs all the same, a second handshake is under way and the
    flag is set again. *)
Lemma C7_counterexample :
  timers (rt retry_pending_flag_cleared) !! 1%nat = Some (1000, ReconnectNow)
  ∧ reconnecting (this retry_pending_flag_cleared) = false
  ∧ length (calls (rt retry_pending_flag_cleared)) = 1%nat
  ∧ length (calls (rt (step (Timer 1) retry_pending_flag_cleared))) = 2%nat
  ∧ connecting (this (step (Timer 1) retry_pending_flag_cleared)) = true
  ∧ reconnecting (this (step (Timer 1) retry_pending_flag_cleared)) = true.
Proof. repeat split; vm_compute; reflexivity. Qed.

(** ** C10: the promise of [sub] and [unsub] once a gate exists *)

Lemma alter_snoc {A} (f : A → A) (l : list A) x :
  alter f (length l) (l ++ [x]) = l ++ [f x].
Proof. induction l as [|y l IH]; simpl; [done|]. f_equal. exact IH. Qed.

(** *** v_connect *)
Lemma waits_at_connect v k p : waits_at (v_connect v) k p → waits_at v k p.
Proof.
  intros (g & Hg & Hp). apply lookup_snoc_Some in Hg as [[_ Hg]|[_ <-]];
    [by exists g|]. simpl in Hp. by apply elem_of_nil in Hp.
Qed.

Lemma promises_inv_connect t v : promises_inv t v → promises_inv t (v_connect v).
Proof.
  intros [(Hcur & Hnd & Huniq & Hwait & Hsend & Hinj) Ht]. split.
  - split; [|split; [|split; [|split; [|split]]]].
    + intros k [= <-]. simpl. rewrite length_app. simpl. lia.
    + intros k g Hg. apply lookup_snoc_Some in Hg as [[_ Hg]|[_ <-]];
        [by eapply Hnd|simpl; constructor].
    + intros k1 k2 p H1 H2. apply waits_at_connect in H1, H2.
      exact (Huniq _ _ _ H1 H2).
    + intros k p H. apply waits_at_connect in H. by apply (Hwait k).
    + done.
    + done.
  - destruct t as [[k p]|]; [|done]. destruct Ht as [(g & Hg & Hm) Hn].
    split; [|done]. exists g. split; [by apply lookup_app_l_Some|].
    destruct g.1; try done. destruct Hm as (H1 & H2 & H3).
    split; [done|]. split; [|done].
    intros k' H. by apply waits_at_connect, H2 in H.
Qed.

(** *** v_sub_new *)
Lemma promises_inv_sub_new t v st : promises_inv t v → promises_inv t (v_sub_new st v).
Proof.
  intros [(Hcur & Hnd & Huniq & Hwait & Hsend & Hinj) Ht]. split.
  - split; [done|]. split; [done|]. split; [done|]. split; [|split; [|done]].
    + intros k p H. destruct (Hwait k p H) as [H1 H2].
      split; [by apply lookup_app_l_Some|done].
    + intros s c p Hs Hp. by apply lookup_app_l_Some, (Hsend s).
  - destruct t as [[k p]|]; [|done]. destruct Ht as [(g & Hg & Hm) (x & Hx & Hr)].
    split.
    + exists g. split; [done|]. destruct g.1; try done.
      destruct Hm as (H1 & H2 & H3). split; [|done].
      by apply lookup_app_l_Some.
    + exists x. split; [|done]. by apply lookup_app_l_Some.
Qed.

Lemma dead_fresh v :
  promises_wf v → dead (v_sub_new Pending v) (length (subs v)).
Proof.
  intros (Hcur & Hnd & Huniq & Hwait & Hsend & Hinj). split; [|split].
  - simpl. by rewrite lookup_app_r, Nat.sub_diag.
  - intros k H. apply (Hwait k) in H as [H _].
    apply lookup_lt_Some in H. lia.
  - intros s (c & Hc & Hp). apply (Hsend s c) in Hp; [|done].
    apply lookup_lt_Some in Hp. lia.
Qed.

Lemma tracked_lt t v k p :
  tracked t v → t = Some (k, p) → (p < length (subs v))%nat.
Proof.
  intros Ht ->. destruct Ht as [_ (x & Hx & _)]. by eapply lookup_lt_Some.
Qed.

(** *** v_register *)
Lemma waits_at_register v k r k' p :
  waits_at (v_register k r v) k' p →
  waits_at v k' p ∨ (k' = k ∧ p = r.2).
Proof.
  intros (g & Hg & Hp). simpl in Hg. rewrite list_lookup_alter in Hg.
  case_decide as Hk; [|left; by exists g]. subst k'.
  destruct (gates v !! k) as [g0|] eqn:Hg0; [|done]. simpl in Hg.
  injection Hg as <-. simpl in Hp. rewrite fmap_app, elem_of_app in Hp.
  destruct Hp as [Hp|Hp]; [left; by exists g0|right].
  simpl in Hp. apply list_elem_of_singleton in Hp. done.
Qed.

Lemma wf_register v k r :
  promises_wf v → dead v r.2 → promises_wf (v_register k r v).
Proof.
  intros (Hcur & Hnd & Huniq & Hwait & Hsend & Hinj) (Hd1 & Hd2 & Hd3).
  split; [|split; [|split; [|split; [|split]]]].
  - intros k0 H. simpl. rewrite length_alter. by apply Hcur.
  - intros k0 g Hg. simpl in Hg. rewrite list_lookup_alter in Hg.
    case_decide as Hk; [|by eapply Hnd]. subst k0.
    destruct (gates v !! k) as [g0|] eqn:Hg0; [|done]. injection Hg as <-.
    simpl. rewrite fmap_app. apply NoDup_app. split; [by eapply Hnd|].
    split; [|simpl; apply NoDup_singleton].
    intros p Hp Hp'. simpl in Hp'. apply list_elem_of_singleton in Hp'. subst p.
    apply (Hd2 k). by exists g0.
  - intros k1 k2 p H1 H2.
    apply waits_at_register in H1 as [H1|[-> ->]];
      apply waits_at_register in H2 as [H2|[-> Hp]]; subst.
    + exact (Huniq _ _ _ H1 H2).
    + by apply Hd2 in H1.
    + by apply Hd2 in H2.
    + done.
  - intros k0 p H. apply waits_at_register in H as [H|[-> ->]];
      [by apply (Hwait k0)|done].
  - done.
  - done.
Qed.

Lemma tracked_register t v k r :
  tracked t v → (∀ k0 p0, t = Some (k0, p0) → p0 ≠ r.2) →
  tracked t (v_register k r v).
Proof.
  intros Ht Hne. destruct t as [[k0 p0]|]; [|done].
  specialize (Hne k0 p0 eq_refl).
  destruct Ht as [(g & Hg & Hm) Hn]. split; [|done].
  unfold tracks. simpl. rewrite list_lookup_alter.
  case_decide as Hk.
  - subst k0. rewrite Hg. simpl. eexists. split; [done|]. simpl.
    destruct g.1; try done.
    + rewrite fmap_app, elem_of_app. by left.
    + destruct Hm as (H1 & H2 & H3). split; [done|]. split; [|done].
      intros k' H. apply waits_at_register in H as [H|[-> ->]];
        [by apply H2 in H|done].
  - exists g. split; [done|]. destruct g.1; try done.
    destruct Hm as (H1 & H2 & H3). split; [done|]. split; [|done].
    intros k' H. apply waits_at_register in H as [H|[-> ->]];
      [by apply H2 in H|done].
Qed.

Lemma tracks_register_new v k r g :
  gates v !! k = Some g → g.1 = Pending → tracks k r.2 (v_register k r v).
Proof.
  intros Hg Hp. unfold tracks. simpl. rewrite list_lookup_alter_eq, Hg. simpl.
  eexists. split; [done|]. simpl. rewrite Hp, fmap_app, elem_of_app.
  right. simpl. by apply list_elem_of_singleton.
Qed.

(** *** v_send_new *)
Lemma reacts_to_send_new v st t s p :
  reacts_to (v_send_new st t v) s p →
  reacts_to v s p ∨ (s = length (sent v) ∧ t = Some p).
Proof.
  intros (c & Hc & Hp). simpl in Hc.
  apply lookup_snoc_Some in Hc as [[_ Hc]|[-> <-]]; [left; by exists c|by right].
Qed.

Lemma reacts_to_send_new_old v st t s p :
  reacts_to v s p → reacts_to (v_send_new st t v) s p.
Proof.
  intros (c & Hc & Hp). exists c. split; [|done]. by apply lookup_app_l_Some.
Qed.

Lemma wf_send_new v st t :
  promises_wf v → is_fulfilled st = false → (∀ p, t = Some p → dead v p) →
  promises_wf (v_send_new st t v).
Proof.
  intros (Hcur & Hnd & Huniq & Hwait & Hsend & Hinj) Hst Hd.
  split; [done|]. split; [done|]. split; [done|]. split; [|split].
  - intros k p H. destruct (Hwait k p H) as [H1 H2]. split; [done|].
    intros s Hs. apply reacts_to_send_new in Hs as [Hs|[-> ->]];
      [by apply H2 in Hs|]. destruct (Hd p eq_refl) as (_ & Hd2 & _).
    by apply Hd2 in H.
  - intros s c p Hs Hp. simpl in Hs.
    apply lookup_snoc_Some in Hs as [[_ Hs]|[-> <-]]; [by apply (Hsend s)|].
    simpl in *. rewrite Hst. by destruct (Hd p Hp) as (H1 & _).
  - intros s1 s2 p H1 H2.
    apply reacts_to_send_new in H1 as [H1|[-> ->]];
      apply reacts_to_send_new in H2 as [H2|[-> Ht]].
    + exact (Hinj _ _ _ H1 H2).
    + destruct (Hd p Ht) as (_ & _ & Hd3). by apply Hd3 in H1.
    + destruct (Hd p eq_refl) as (_ & _ & Hd3). by apply Hd3 in H2.
    + done.
Qed.

Lemma dead_send_new v st t p :
  dead v p → t ≠ Some p → dead (v_send_new st t v) p.
Proof.
  intros (H1 & H2 & H3) Hne. split; [done|]. split; [done|].
  intros s Hs. apply reacts_to_send_new in Hs as [Hs|[_ ->]];
    [by apply H3 in Hs|done].
Qed.

Lemma tracked_send_new t0 v st t :
  tracked t0 v → (∀ p, doomed t0 v p → t ≠ Some p) →
  tracked t0 (v_send_new st t v).
Proof.
  intros Ht Hne. destruct t0 as [[k0 p0]|]; [|done].
  destruct Ht as [(g & Hg & Hm) Hn]. split; [|done].
  exists g. split; [done|]. destruct g.1 eqn:Hg1; try done.
  apply dead_send_new; [done|]. apply Hne. by exists k0, g, e.
Qed.

(** *** v_send_reject *)
Lemma reacts_to_send_reject v s e s' p :
  reacts_to (v_send_reject s e v) s' p ↔ reacts_to v s' p.
Proof.
  unfold reacts_to. simpl. rewrite list_lookup_alter. case_decide as Hs.
  - subst s'. destruct (sent v !! s) as [c|]; simpl; [|naive_solver].
    split; intros (c' & Hc & Hp).
    + injection Hc as <-. by exists c.
    + injection Hc as <-. eexists. by split.
  - done.
Qed.

Lemma promises_inv_send_reject t v s e : promises_inv t v → promises_inv t (v_send_reject s e v).
Proof.
  intros [(Hcur & Hnd & Huniq & Hwait & Hsend & Hinj) Ht]. split.
  - split; [done|]. split; [done|]. split; [done|]. split; [|split].
    + intros k p H. destruct (Hwait k p H) as [H1 H2]. split; [done|].
      intros s' Hs. by apply reacts_to_send_reject, H2 in Hs.
    + intros s' c p Hs Hp. simpl in Hs. rewrite list_lookup_alter in Hs.
      case_decide as Heq; [|by apply (Hsend s')]. subst s'.
      destruct (sent v !! s) as [c0|] eqn:Hc0; [|done]. injection Hs as <-.
      simpl in *. rewrite (Hsend s c0 p Hc0 Hp).
      by destruct (send_promise c0).
    + intros s1 s2 p H1 H2. apply reacts_to_send_reject in H1, H2.
      exact (Hinj _ _ _ H1 H2).
  - destruct t as [[k p]|]; [|done]. destruct Ht as [(g & Hg & Hm) Hn].
    split; [|done]. exists g. split; [done|]. destruct g.1; try done.
    destruct Hm as (H1 & H2 & H3). split; [done|]. split; [done|].
    intros s' Hs. by apply reacts_to_send_reject, H3 in Hs.
Qed.

(** *** v_send_resolve *)
Lemma reacts_to_set_send_promise (l : list SendCall) s x s' p :
  (∃ c, alter (set_send_promise x) s l !! s' = Some c ∧ send_then c = Some p)
  ↔ (∃ c, l !! s' = Some c ∧ send_then c = Some p).
Proof.
  rewrite list_lookup_alter. case_decide as Hs; [|done]. subst s'.
  destruct (l !! s) as [c|]; simpl; [|naive_solver].
  split; intros (c' & Hc & Hp).
  - injection Hc as <-. by exists c.
  - injection Hc as <-. eexists. by split.
Qed.

Lemma promises_inv_send_resolve t v s x : promises_inv t v → promises_inv t (v_send_resolve s x v).
Proof.
  intros [(Hcur & Hnd & Huniq & Hwait & Hsend & Hinj) Ht].
  unfold v_send_resolve.
  destruct (sent v !! s) as [c|] eqn:Hc; [|done].
  destruct (is_pending (send_promise c)) eqn:Hpend; [|done].
  assert (Hreact : ∀ s' p, reacts_to
    {| current := current v; gates := gates v;
       subs := match send_then c with
               | Some p => alter (settle (Fulfilled ())) p (subs v)
               | None => subs v
               end;
       sent := alter (set_send_promise (Fulfilled x)) s (sent v) |} s' p
    ↔ reacts_to v s' p).
  { intros s' p. apply reacts_to_set_send_promise. }
  assert (Hsub : ∀ p, (∀ p', send_then c = Some p' → p ≠ p') →
    match send_then c with
    | Some p => alter (settle (Fulfilled ())) p (subs v)
    | None => subs v
    end !! p = subs v !! p).
  { intros p Hne. destruct (send_then c) as [p'|]; [|done].
    rewrite list_lookup_alter_ne; [done|]. intros ->. by eapply Hne. }
  split.
  - split; [done|]. split; [done|]. split; [done|]. split; [|split].
    + intros k p H. destruct (Hwait k p H) as [H1 H2]. split.
      * simpl. rewrite Hsub; [done|]. intros p' Hp' ->. apply (H2 s).
        by exists c.
      * intros s' Hs. by apply Hreact, H2 in Hs.
    + intros s' c' p Hs Hp. simpl in Hs. rewrite list_lookup_alter in Hs.
      case_decide as Heq.
      * subst s'. rewrite Hc in Hs. injection Hs as <-. simpl in *.
        rewrite Hp, list_lookup_alter_eq, (Hsend s c p Hc Hp).
        by destruct (send_promise c).
      * simpl. rewrite Hsub; [by apply (Hsend s')|].
        intros p' Hp' ->. apply Heq. apply (Hinj s s' p'); [by exists c|].
        by exists c'.
    + intros s1 s2 p H1 H2. apply Hreact in H1, H2.
      exact (Hinj _ _ _ H1 H2).
  - destruct t as [[k p]|]; [|done].
    destruct Ht as [(g & Hg & Hm) (st & Hst & Hr)]. split.
    + exists g. split; [done|]. destruct g.1; try done.
      destruct Hm as (H1 & H2 & H3). split; [|split; [done|]].
      * simpl. rewrite Hsub; [done|]. intros p' Hp' ->. apply (H3 s).
        by exists c.
      * intros s' Hs. by apply Hreact, H3 in Hs.
    + unfold never_rejected. simpl.
      destruct (send_then c) as [p'|]; [|by exists st].
      rewrite list_lookup_alter. case_decide; [|by exists st]. subst p'.
      rewrite Hst. simpl. eexists. split; [done|]. by destruct st.
Qed.

(** *** v_gate_settle *)
Lemma waits_at_gate_settle v k st k' p :
  waits_at (v_gate_settle k st v) k' p → waits_at v k' p ∧ k' ≠ k.
Proof.
  intros (g & Hg & Hp). simpl in Hg. rewrite list_lookup_alter in Hg.
  case_decide as Hk; [|split; [by exists g|done]]. subst k'.
  destruct (gates v !! k); [|done]. injection Hg as <-.
  simpl in Hp. by apply elem_of_nil in Hp.
Qed.

Lemma dead_gate_settle v k st p : dead v p → dead (v_gate_settle k st v) p.
Proof.
  intros (H1 & H2 & H3). split; [done|]. split; [|done].
  intros k' H. apply waits_at_gate_settle in H as [H _]. by apply H2 in H.
Qed.

Lemma dead_gate_settled v k st g p :
  promises_wf v → gates v !! k = Some g → p ∈ g.2.*2 →
  dead (v_gate_settle k st v) p.
Proof.
  intros (Hcur & Hnd & Huniq & Hwait & Hsend & Hinj) Hg Hp.
  assert (Hw : waits_at v k p) by by exists g.
  destruct (Hwait k p Hw) as [H1 H2]. split; [done|]. split; [|done].
  intros k' H. apply waits_at_gate_settle in H as [H Hne].
  apply Hne. exact (Huniq _ _ _ H Hw).
Qed.

Lemma wf_gate_settle v k st : promises_wf v → promises_wf (v_gate_settle k st v).
Proof.
  intros (Hcur & Hnd & Huniq & Hwait & Hsend & Hinj).
  split; [|split; [|split; [|split; [|split]]]].
  - intros k0 H. simpl. rewrite length_alter. by apply Hcur.
  - intros k0 g Hg. simpl in Hg. rewrite list_lookup_alter in Hg.
    case_decide as Hk; [|by eapply Hnd]. subst k0.
    destruct (gates v !! k); [|done]. injection Hg as <-. simpl. constructor.
  - intros k1 k2 p H1 H2. apply waits_at_gate_settle in H1 as [H1 _].
    apply waits_at_gate_settle in H2 as [H2 _]. exact (Huniq _ _ _ H1 H2).
  - intros k0 p H. apply waits_at_gate_settle in H as [H _].
    by apply (Hwait k0).
  - done.
  - done.
Qed.

Lemma tracked_gate_settle t v k st g :
  promises_wf v → gates v !! k = Some g → g.1 = Pending →
  is_pending st = false →
  tracked t v → tracked t (v_gate_settle k st v).
Proof.
  intros Hwf Hg Hpend Hst Ht. destruct t as [[k0 p0]|]; [|done].
  destruct Ht as [(g0 & Hg0 & Hm) Hn]. split; [|done].
  unfold tracks. simpl. rewrite list_lookup_alter. case_decide as Hk.
  - subst k0. rewrite Hg0. simpl. eexists. split; [done|]. simpl.
    destruct st; [done|done|]. rewrite Hg in Hg0. injection Hg0 as <-.
    rewrite Hpend in Hm. by eapply dead_gate_settled.
  - exists g0. split; [done|]. destruct g0.1; try done.
    by apply dead_gate_settle.
Qed.

(** *** The program's functions, seen on the promises *)

Lemma fmap_gate_view_alter f g k (l : list ConnectCall) :
  (∀ c, gate_view (f c) = g (gate_view c)) →
  gate_view <$> alter f k l = alter g k (gate_view <$> l).
Proof.
  intros Hfg. revert k. induction l as [|c l IH]; intros [|k]; simpl;
    try done; f_equal; [apply Hfg|apply IH].
Qed.

Lemma promises_on_call k f w :
  (∀ c, gate_view (f c) = gate_view c) →
  promises (on_call k f w) = promises w.
Proof.
  intros Hf. unfold promises. simpl.
  rewrite (fmap_gate_view_alter f id) by done. by rewrite list_alter_id.
Qed.

Lemma promises_closeStreamWebsocket k w :
  promises (closeStreamWebsocket k w) = promises w.
Proof. unfold promises, closeStreamWebsocket. simpl. by case_bool_decide. Qed.

Lemma promises_reconnector fast w :
  promises (reconnector fast w) = promises w.
Proof. unfold promises, reconnector. simpl. by destruct fast; split_cases. Qed.

Lemma promises_connectStreamWebSocket k b w :
  promises (connectStreamWebSocket k b w) = promises w.
Proof.
  unfold promises, connectStreamWebSocket, closeStreamWebsocket. simpl.
  by split_cases.
Qed.

Lemma promises_connect w : promises (connect w) = v_connect (promises w).
Proof.
  unfold promises, connect, v_connect. simpl.
  by rewrite fmap_app, length_fmap.
Qed.

Lemma promises_send payload t w :
  ∃ st, is_fulfilled st = false
        ∧ promises (sendStreamWebSocketPayload payload t w)
          = v_send_new st None (promises w).
Proof.
  unfold sendStreamWebSocketPayload, reject_send, setTimeout, promises,
    v_send_new. simpl.
  split_cases; rewrite ?alter_snoc; simpl; eexists; (split; [|done]); done.
Qed.

Lemma promises_reject_send s e w :
  promises (reject_send s e w) = v_send_reject s e (promises w).
Proof. done. Qed.

Lemma promises_resolve_send s x w :
  promises (resolve_send s x w) = v_send_resolve s x (promises w).
Proof.
  unfold resolve_send, v_send_resolve, promises. simpl.
  by split_cases.
Qed.

Lemma promises_reaction w r :
  ∃ st, is_fulfilled st = false
        ∧ promises (pubsub_reaction w r)
          = v_send_new st (Some r.2) (promises w).
Proof.
  unfold pubsub_reaction.
  destruct (promises_send r.1 0 w) as (st & Hst & Hw).
  exists st. split; [done|].
  set (w1 := sendStreamWebSocketPayload r.1 0 w) in *.
  assert (Hs : sends (rt w1)
    = sends (rt w) ++ [{| send_promise := st; send_then := None |}])
    by exact (f_equal sent Hw).
  assert (Hg : gate_view <$> calls (rt w1) = gate_view <$> calls (rt w))
    by exact (f_equal gates Hw).
  assert (Hc : gate (this w1) = gate (this w)) by exact (f_equal current Hw).
  assert (Hp : pubsubs (rt w1) = pubsubs (rt w)) by exact (f_equal subs Hw).
  unfold then_send, promises, v_send_new, resolve_pubsub. simpl.
  rewrite Hs, lookup_app_r, Nat.sub_diag by done. simpl.
  rewrite Hst. simpl. rewrite Hs, alter_snoc, Hg, Hc, Hp. done.
Qed.

Lemma promises_inv_send t payload x w :
  promises_inv t (promises w) → promises_inv t (promises (sendStreamWebSocketPayload payload x w)).
Proof.
  intros [Hwf Ht]. destruct (promises_send payload x w) as (st & Hst & ->).
  split; [by apply wf_send_new|]. by apply tracked_send_new.
Qed.

Lemma promises_inv_reactions t rs w :
  promises_inv t (promises w) → NoDup rs.*2 →
  (∀ r, r ∈ rs → dead (promises w) r.2) →
  (∀ p, doomed t (promises w) p → p ∉ rs.*2) →
  promises_inv t (promises (foldl pubsub_reaction w rs)).
Proof.
  revert w. induction rs as [|r rs IH]; intros w HI Hnd Hdead Hdoom; [done|].
  simpl. destruct HI as [Hwf Ht].
  destruct (promises_reaction w r) as (st & Hst & Hw).
  inversion Hnd as [|? ? Hr Hnd']; subst.
  apply IH.
  - rewrite Hw. split.
    + apply wf_send_new; [done..|]. intros p [= <-]. apply Hdead. by left.
    + apply tracked_send_new; [done|]. intros p Hp [= <-].
      apply (Hdoom _ Hp). simpl. by left.
  - done.
  - intros r' Hr'. rewrite Hw. apply dead_send_new.
    + apply Hdead. by right.
    + intros [= Heq]. apply Hr. rewrite Heq.
      by apply list_elem_of_fmap_2.
  - intros p Hp. rewrite Hw in Hp. intros Hin.
    apply (Hdoom p); [exact Hp|]. simpl. by right.
Qed.

Lemma promises_gate_settle k st w :
  promises (on_call k (λ c, set_gate_reactions [] (set_gate_promise st c)) w)
  = v_gate_settle k st (promises w).
Proof.
  unfold promises, v_gate_settle. simpl.
  by rewrite (fmap_gate_view_alter _ (λ _, (st, []))).
Qed.

Lemma gates_lookup w k c :
  calls (rt w) !! k = Some c → gates (promises w) !! k = Some (gate_view c).
Proof. intros H. simpl. by rewrite list_lookup_fmap, H. Qed.

Lemma promises_inv_gateReject t k w :
  promises_inv t (promises w) → promises_inv t (promises (gateReject k w)).
Proof.
  intros [Hwf Ht]. unfold gateReject.
  destruct (calls (rt w) !! k) as [c|] eqn:Hc; [|done].
  destruct (is_pending (gate_promise c)) eqn:Hp; [|done].
  rewrite promises_gate_settle. split; [by apply wf_gate_settle|].
  eapply tracked_gate_settle; [done|by apply gates_lookup| |done|done].
  simpl. by destruct (gate_promise c).
Qed.

Lemma promises_inv_gateResolve t k w :
  promises_inv t (promises w) → promises_inv t (promises (gateResolve k w)).
Proof.
  intros [Hwf Ht]. unfold gateResolve.
  destruct (calls (rt w) !! k) as [c|] eqn:Hc; [|done].
  destruct (is_pending (gate_promise c)) eqn:Hp; [|done].
  pose proof (gates_lookup w k c Hc) as Hg.
  assert (Hpend : (gate_view c).1 = Pending)
    by (simpl; by destruct (gate_promise c)).
  apply promises_inv_reactions.
  - rewrite promises_gate_settle. split; [by apply wf_gate_settle|].
    by eapply tracked_gate_settle.
  - destruct Hwf as (_ & Hnd & _). exact (Hnd k _ Hg).
  - intros r Hr. rewrite promises_gate_settle.
    eapply dead_gate_settled; [done..|]. simpl. by apply list_elem_of_fmap_2.
  - intros p (k0 & g & e & -> & Hg0 & He) Hin. rewrite promises_gate_settle in Hg0.
    simpl in Hg0. rewrite list_lookup_alter in Hg0. case_decide as Hk.
    + subst k0. simpl in Hg. rewrite Hg in Hg0. injection Hg0 as <-. done.
    + destruct Ht as [(g' & Hg' & Hm) _]. simpl in Hg'. rewrite Hg' in Hg0.
      injection Hg0 as ->. rewrite He in Hm. destruct Hm as (_ & Hm & _).
      apply (Hm k). by exists (gate_view c).
Qed.

Lemma promises_pubsub_new w :
  promises (on_rt (λ r, rt_pubsubs (pubsubs r ++ [Pending]) r) w)
  = v_sub_new Pending (promises w).
Proof. done. Qed.

Lemma promises_register k r w :
  promises (on_call k (λ c, set_gate_reactions (gate_reactions c ++ [r]) c) w)
  = v_register k r (promises w).
Proof.
  unfold promises, v_register. simpl.
  by rewrite (fmap_gate_view_alter _ (λ g, (g.1, g.2 ++ [r]))).
Qed.

Lemma promises_reject_fresh e w :
  promises (reject_pubsub (length (pubsubs (rt w))) e
              (on_rt (λ r, rt_pubsubs (pubsubs r ++ [Pending]) r) w))
  = v_sub_new (Rejected e) (promises w).
Proof. unfold promises, v_sub_new. simpl. by rewrite alter_snoc. Qed.

Lemma tracked_fresh t v k p :
  tracked t v → t = Some (k, p) → p ≠ length (subs v).
Proof. intros Ht Heq. pose proof (tracked_lt t v k p Ht Heq). lia. Qed.

(** A [pubsub] call keeps what is tracked; made at the gate [k], it is
    tracked from then on. *)
Lemma promises_inv_pubsub t ty tops w :
  promises_inv t (promises w) →
  promises_inv t (promises (pubsub ty tops w))
  ∧ (∀ k, gate (this w) = Some k →
       tracked (Some (k, length (pubsubs (rt w))))
         (promises (pubsub ty tops w))).
Proof.
  intros HI. unfold pubsub. simpl.
  destruct (gate (this w)) as [k|] eqn:Hk.
  - unfold then_gate. simpl.
    pose proof (promises_inv_sub_new t _ Pending HI) as [Hwf1 Ht1].
    pose proof (dead_fresh _ (proj1 HI)) as Hd.
    assert (Hnew : never_rejected (length (pubsubs (rt w)))
                     (v_sub_new Pending (promises w))).
    { exists Pending. simpl. by rewrite lookup_app_r, Nat.sub_diag. }
    destruct HI as [Hwf Ht].
    destruct (calls (rt w) !! k) as [c|] eqn:Hc.
    2:{ destruct Hwf as (Hcur & _). specialize (Hcur k Hk).
        simpl in Hcur. rewrite length_fmap in Hcur.
        apply lookup_ge_None in Hc. lia. }
    pose proof (gates_lookup w k c Hc) as Hg.
    destruct (gate_promise c) eqn:Hp.
    + rewrite promises_register, promises_pubsub_new. split; [split|].
      * by apply wf_register.
      * apply tracked_register; [done|]. intros k0 p0 Heq.
        exact (tracked_fresh t (promises w) k0 p0 Ht Heq).
      * intros k' [= <-]. split; [|done].
        apply (tracks_register_new _ k (_, _) (gate_view c)); [done|].
        simpl. by rewrite Hp.
    + destruct (promises_reaction
        (on_rt (λ r, rt_pubsubs (pubsubs r ++ [Pending]) r) w)
        ({| type := ty; state := "";
            info := Some {| ref := None; topics := Some tops |};
            data := None |}, length (pubsubs (rt w))))
        as (st & Hst & ->).
      rewrite promises_pubsub_new. simpl. split; [split|].
      * apply wf_send_new; [done..|]. by intros p [= <-].
      * apply tracked_send_new; [done|]. intros p (k0 & g & e & -> & _) [= <-].
        by apply (tracked_fresh _ (promises w) k0 _ Ht eq_refl).
      * intros k' [= <-]. split; [|done].
        exists (gate_view c). split; [done|]. simpl. by rewrite Hp.
    + rewrite promises_pubsub_new. split; [done|].
      intros k' [= <-]. split; [|done].
      exists (gate_view c). split; [done|]. simpl. by rewrite Hp.
  - rewrite promises_reject_fresh. split; [|done].
    by apply promises_inv_sub_new.
Qed.

(** Walks down a state built by the program's functions, with the lemma
    of each function that settles or creates a promise. *)
Ltac peel_promises on_gateResolve on_gateReject on_send on_resolve on_reject
    on_connect :=
  repeat lazymatch goal with
  | |- _ (promises (gateResolve _ _)) => apply on_gateResolve
  | |- _ (promises (gateReject _ _)) => apply on_gateReject
  | |- _ (promises (sendStreamWebSocketPayload _ _ _)) => apply on_send
  | |- _ (promises (resolve_send _ _ _)) =>
      rewrite promises_resolve_send; apply on_resolve
  | |- _ (promises (reject_send _ _ _)) =>
      rewrite promises_reject_send; apply on_reject
  | |- _ (promises (connect _)) => rewrite promises_connect; apply on_connect
  | |- _ (promises (reconnector _ _)) => rewrite promises_reconnector
  | |- _ (promises (connectStreamWebSocket _ _ _)) =>
      rewrite promises_connectStreamWebSocket
  | |- _ (promises (closeStreamWebsocket _ _)) =>
      rewrite promises_closeStreamWebsocket
  | |- _ (promises (on_call _ _ _)) => rewrite promises_on_call by done
  | |- ?P (promises (?F ?X)) => progress change (P (promises X))
  end.

Ltac unfold_callbacks :=
  unfold fire_timer, run_timer, socket_onopen, socket_onclose,
    socket_onerror, handleStreamWebSocketMessage, connect_timeout,
    connect_continue, resolve_attempt, reject_attempt,
    connection_established, connection_failed, resolve_call, reject_call,
    dispatchStateChangedEvent, dispatchErrorEvent, dispatchStreamEvent.

Lemma promises_inv_step t e w :
  promises_inv t (promises w) → promises_inv t (promises (step e w)).
Proof.
  intros HI. destruct e; simpl;
    try (unfold sub, unsub; by apply promises_inv_pubsub).
  all: unfold_callbacks; split_cases.
  all: peel_promises promises_inv_gateResolve promises_inv_gateReject
         promises_inv_send promises_inv_send_resolve
         promises_inv_send_reject promises_inv_connect; try done.
Qed.

Lemma promises_inv_run t es w :
  promises_inv t (promises w) → promises_inv t (promises (run es w)).
Proof.
  revert w. induction es as [|e es IH]; intros w H; simpl; [done|].
  by apply IH, promises_inv_step.
Qed.

Lemma promises_inv_new g random throws :
  promises_inv None (promises (new_Pubs g random throws)).
Proof.
  split; [|done]. split; [done|]. split; [done|].
  split; [by intros k1 k2 p (? & ? & _)|]. split; [by intros k p (? & ? & _)|].
  split; [done|]. by intros s1 s2 p (? & ? & _).
Qed.

(** *** What is settled stays settled *)

Lemma frozen_refl v : frozen v v.
Proof. split; [|done]. intros k g Hg _. by exists g. Qed.

Lemma frozen_connect v0 v : frozen v0 v → frozen v0 (v_connect v).
Proof.
  intros [Hg Hs]. split; [|done]. intros k g H Hp.
  destruct (Hg k g H Hp) as (g' & Hg' & Heq). exists g'.
  split; [|done]. by apply lookup_app_l_Some.
Qed.

Lemma frozen_register v0 v k r : frozen v0 v → frozen v0 (v_register k r v).
Proof.
  intros [Hg Hs]. split; [|done]. intros k0 g H Hp.
  destruct (Hg k0 g H Hp) as (g' & Hg' & Heq). simpl.
  rewrite list_lookup_alter. case_decide; [|by exists g']. subst k0.
  rewrite Hg'. simpl. eexists. by split.
Qed.

Lemma frozen_send_new v0 v st t : frozen v0 v → frozen v0 (v_send_new st t v).
Proof.
  intros [Hg Hs]. split; [done|]. intros s c H Hp.
  by apply lookup_app_l_Some, Hs.
Qed.

Lemma frozen_send_reject v0 v s e : frozen v0 v → frozen v0 (v_send_reject s e v).
Proof.
  intros [Hg Hs]. split; [done|]. intros s' c H Hp. simpl.
  rewrite list_lookup_alter. case_decide; [|by apply Hs]. subst s'.
  rewrite (Hs s c H Hp). simpl. unfold settle. rewrite Hp. by destruct c.
Qed.

Lemma frozen_send_resolve v0 v s x :
  frozen v0 v → frozen v0 (v_send_resolve s x v).
Proof.
  intros [Hg Hs]. unfold v_send_resolve.
  destruct (sent v !! s) as [c|] eqn:Hc; [|done].
  destruct (is_pending (send_promise c)) eqn:Hpend; [|done].
  split; [done|]. intros s' c' H Hp. simpl.
  rewrite list_lookup_alter. case_decide; [|by apply Hs]. subst s'.
  rewrite (Hs s c' H Hp) in Hc. injection Hc as ->. congruence.
Qed.

Lemma frozen_gate_settle v0 v k st g :
  gates v !! k = Some g → g.1 = Pending →
  frozen v0 v → frozen v0 (v_gate_settle k st v).
Proof.
  intros Hk Hpend [Hg Hs]. split; [|done]. intros k0 g0 H Hp.
  destruct (Hg k0 g0 H Hp) as (g' & Hg' & Heq). simpl.
  rewrite list_lookup_alter. case_decide; [|by exists g']. subst k0.
  rewrite Hk in Hg'. injection Hg' as <-. rewrite <- Heq, Hpend in Hp. done.
Qed.

Lemma frozen_send v0 payload x w :
  frozen v0 (promises w) →
  frozen v0 (promises (sendStreamWebSocketPayload payload x w)).
Proof.
  intros H. destruct (promises_send payload x w) as (st & _ & ->).
  by apply frozen_send_new.
Qed.

Lemma frozen_reactions v0 rs w :
  frozen v0 (promises w) → frozen v0 (promises (foldl pubsub_reaction w rs)).
Proof.
  revert w. induction rs as [|r rs IH]; intros w H; [done|]. simpl.
  apply IH. destruct (promises_reaction w r) as (st & _ & ->).
  by apply frozen_send_new.
Qed.

Lemma frozen_gateReject v0 k w :
  frozen v0 (promises w) → frozen v0 (promises (gateReject k w)).
Proof.
  intros H. unfold gateReject.
  destruct (calls (rt w) !! k) as [c|] eqn:Hc; [|done].
  destruct (is_pending (gate_promise c)) eqn:Hp; [|done].
  rewrite promises_gate_settle.
  eapply frozen_gate_settle; [by apply gates_lookup| |done].
  simpl. by destruct (gate_promise c).
Qed.

Lemma frozen_gateResolve v0 k w :
  frozen v0 (promises w) → frozen v0 (promises (gateResolve k w)).
Proof.
  intros H. unfold gateResolve.
  destruct (calls (rt w) !! k) as [c|] eqn:Hc; [|done].
  destruct (is_pending (gate_promise c)) eqn:Hp; [|done].
  apply frozen_reactions. rewrite promises_gate_settle.
  eapply frozen_gate_settle; [by apply gates_lookup| |done].
  simpl. by destruct (gate_promise c).
Qed.

Lemma frozen_pubsub v0 ty tops w :
  frozen v0 (promises w) → frozen v0 (promises (pubsub ty tops w)).
Proof.
  intros H. unfold pubsub. simpl.
  destruct (gate (this w)) as [k|]; [|by rewrite promises_reject_fresh].
  unfold then_gate. simpl.
  destruct (calls (rt w) !! k) as [c|]; [|done].
  destruct (gate_promise c).
  - rewrite promises_register, promises_pubsub_new. by apply frozen_register.
  - match goal with |- context [pubsub_reaction ?w' ?r] =>
      destruct (promises_reaction w' r) as (st & _ & ->) end.
    by apply frozen_send_new.
  - done.
Qed.

Lemma frozen_step v0 e w :
  frozen v0 (promises w) → frozen v0 (promises (step e w)).
Proof.
  intros HI. destruct e; simpl;
    try (unfold sub, unsub; by apply frozen_pubsub).
  all: unfold_callbacks; split_cases.
  all: peel_promises frozen_gateResolve frozen_gateReject frozen_send
         frozen_send_resolve frozen_send_reject frozen_connect; try done.
Qed.

Lemma frozen_run es w : frozen (promises w) (promises (run es w)).
Proof.
  assert (H : ∀ v0 w, frozen v0 (promises w) → frozen v0 (promises (run es w))).
  { induction es as [|e es IH]; intros v0 w' H; simpl; [done|].
    by apply IH, frozen_step. }
  apply H, frozen_refl.
Qed.

(** C10.  A [sub] or [unsub] call made while the instance has a gate never
    rejects, whatever happens afterwards.  From the moment the promise of
    that gate is rejected the call is pending for ever; and from the moment
    the send made for the call is rejected (no_connection, an exception of
    [socket.send], the acknowledgement timeout) the call is pending for
    ever: no failure reaches the caller. *)
Theorem C10_subscription_never_rejects (g : Global) (random : nat → Q)
    (throws : nat → option string) (es0 : list Event) (k : nat)
    (tops : list string) (es : list Event) :
  let w0 := run es0 (new_Pubs g random throws) in
  let p := length (pubsubs (rt w0)) in
  gate (this w0) = Some k →
  ∀ call, call = sub tops ∨ call = unsub tops →
    let w := run es (call w0) in
    (∀ e, pubsubs (rt w) !! p ≠ Some (Rejected e))
    ∧ (∀ c, calls (rt w) !! k = Some c → is_rejected (gate_promise c) = true →
            ∀ es', pubsubs (rt (run es' w)) !! p = Some Pending)
    ∧ (∀ s c, sends (rt w) !! s = Some c → send_then c = Some p →
              is_rejected (send_promise c) = true →
              ∀ es', pubsubs (rt (run es' w)) !! p = Some Pending).
Proof.
  intros w0 p Hk call Hcall w.
  pose proof (promises_inv_run None es0 _ (promises_inv_new g random throws))
    as H0. fold w0 in H0.
  assert (H1 : promises_inv (Some (k, p)) (promises (call w0))).
  { destruct Hcall as [-> | ->]; unfold sub, unsub.
    - destruct (promises_inv_pubsub None "sub" tops w0 H0) as [[Hwf _] Ht].
      split; [done|]. by apply Ht.
    - destruct (promises_inv_pubsub None "unsub" tops w0 H0) as [[Hwf _] Ht].
      split; [done|]. by apply Ht. }
  pose proof (promises_inv_run _ es _ H1) as H2. fold w in H2.
  clearbody w w0. clear H0 H1.
  split; [|split].
  - destruct H2 as [_ [_ (st & Hst & Hr)]]. simpl in Hst.
    intros e He. rewrite Hst in He. injection He as ->. done.
  - intros c Hc Hrej es'.
    destruct (promises_inv_run _ es' _ H2) as [_ [(gt & Hg & Hm) _]].
    destruct (frozen_run es' w) as [Hfg _].
    destruct (Hfg k (gate_view c)) as (g' & Hg' & Heq).
    { by apply gates_lookup. }
    { simpl. by destruct (gate_promise c). }
    rewrite Hg in Hg'. injection Hg' as ->. rewrite Heq in Hm. simpl in Hm.
    destruct (gate_promise c); try done. by destruct Hm as (Hm & _).
  - intros s c Hs Hp Hrej es'.
    destruct (promises_inv_run _ es' _ H2) as [(_ & _ & _ & _ & Hsend & _) _].
    destruct (frozen_run es' w) as [_ Hfs].
    assert (Hs' : sends (rt (run es' w)) !! s = Some c).
    { apply (Hfs s c Hs). by destruct (send_promise c). }
    pose proof (Hsend s c p Hs' Hp) as Hsub. simpl in Hsub. rewrite Hsub.
    by destruct (send_promise c).
Qed.

(** Discharges the first premise of [H] by evaluation. *)
Ltac premise_by_vm H :=
  lazymatch type of H with
  | ?A → _ =>
      let X := fresh in
      assert (X : A) by (vm_compute; reflexivity); specialize (H X); clear X
  end.

Lemma C10_subscription_never_rejects_witness :
  sends (rt (run [Timer 2] (sub ["a"] connection_lost))) !! 0%nat
  = Some {| send_promise := Rejected (Error "no_connection");
            send_then := Some 0%nat |}
  ∧ pubsubs (rt (run [Handshake 1 (stream_at "/stream"); Socket_open 1]
                   (run [Timer 2] (sub ["a"] connection_lost)))) !! 0%nat
    = Some Pending
  ∧ (gate_promise <$>
       calls (rt (run [Socket_error 0; Timer 2] (unsub ["a"] single_attempt)))
         !! 0%nat)
    = Some (Rejected Undefined)
  ∧ pubsubs (rt (run [Call_connect; Handshake 1 (stream_at "/stream");
                      Socket_open 1]
                   (run [Socket_error 0; Timer 2]
                      (unsub ["a"] single_attempt)))) !! 0%nat
    = Some Pending.
Proof.
  split; [vm_compute; reflexivity|]. split; [|split; [vm_compute; reflexivity|]].
  - pose proof (C10_subscription_never_rejects module_loaded no_random
                  never_throws
                  [Call_connect; Handshake 0 (stream_at "/stream");
                   Socket_open 0; Socket_close 0] 0 ["a"] [Timer 2]) as H.
    cbv zeta in H. premise_by_vm H.
    specialize (H (sub ["a"]) (or_introl eq_refl)).
    destruct H as (_ & _ & H).
    specialize (H 0%nat {| send_promise := Rejected (Error "no_connection");
                           send_then := Some 0%nat |}).
    do 3 premise_by_vm H.
    exact (H [Handshake 1 (stream_at "/stream"); Socket_open 1]).
  - pose proof (C10_subscription_never_rejects module_loaded no_random
                  never_throws
                  [Call_connect; Assign_reconnecting false;
                   Handshake 0 (stream_at "/stream")] 0 ["a"]
                  [Socket_error 0; Timer 2]) as H.
    cbv zeta in H. premise_by_vm H.
    specialize (H (unsub ["a"]) (or_intror eq_refl)).
    destruct H as (_ & H & _).
    specialize (H {| call_promise := Rejected (SocketErrorEvent 0);
                     gate_promise := Rejected Undefined; gate_reject := false;
                     gate_reactions := []; awaiting := false |}).
    do 2 premise_by_vm H.
    exact (H [Call_connect; Handshake 1 (stream_at "/stream"); Socket_open 1]).
Defined.

(** * Further properties *)

(** ** The constructor and the handshake request *)

Lemma replace_trailing_slash_app (b : string) :
  replace_trailing_slash (b +:+ "/") = b.
Proof.
  induction b as [|c b IH]; [done|].
  simpl. destruct b as [|c' b]; [done|].
  simpl in *. by rewrite IH.
Qed.

Lemma replace_trailing_slash_none (b : string) :
  (∀ b', b ≠ b' +:+ "/") → replace_trailing_slash b = b.
Proof.
  induction b as [|c b IH]; intros H; [done|].
  simpl. destruct b as [|c' b].
  - destruct (Ascii.eqb_spec c "/") as [->|]; [|done].
    by destruct (H "").
  - rewrite IH; [done|]. intros b' Hb. apply (H (String c b')). simpl.
    by rewrite Hb.
Qed.

(** X1.  A base URI given with one slash at its end is kept without it, so
    that the handshake goes to base + /api/pubs/v1/stream/connect with a
    single slash; only one slash is removed, and a base URI that does not
    end with a slash is kept as it is. *)
Theorem X1_base_uri_trailing_slash (b : string) (o : option IPubsOptions)
    (h : string) :
  let s := Pubs_constructor (Some (b +:+ "/")) o in
  baseURI s = b
  ∧ url (handshake_request s h) = b +:+ "/api/pubs/v1/stream/connect"
  ∧ ((∀ b', b ≠ b' +:+ "/") → Pubs_constructor (Some b) o = s)
  ∧ baseURI (Pubs_constructor None o) = "".
Proof.
  simpl. unfold Pubs_constructor, handshake_request. simpl.
  rewrite replace_trailing_slash_app. repeat split; try done.
  intros H. by rewrite replace_trailing_slash_none.
Qed.

(** X2.  The handshake is a POST in cors mode.  It carries an Authorization
    header exactly when the options of the instance hold an authorization
    type and an authorization value that are both non-empty; the header is
    then the type, one space and the value. *)
Theorem X2_authorization_header (s : PubsSettings) :
  let o := this_options s in
  let request := handshake_request s (authorizationHeader o) in
  method request = "POST" ∧ mode request = "cors"
  ∧ headers request =
    match authorizationType o, authorizationValue o with
    | Some t, Some v =>
        if bool_decide (t ≠ "" ∧ v ≠ "")
        then {[ "Authorization" := t +:+ " " +:+ v ]} else ∅
    | _, _ => ∅
    end.
Proof.
  cbv zeta. split; [done|]. split; [done|].
  unfold handshake_request, authorizationHeader. cbn [headers].
  destruct (authorizationType _) as [t|]; [|done].
  destruct (authorizationValue _) as [v|]; [|by rewrite andb_false_r].
  unfold truthy, default. cbn [id].
  case_bool_decide as Hd.
  - destruct Hd as [Ht Hv].
    apply String.eqb_neq in Ht as Ht', Hv as Hv'. rewrite Ht', Hv'.
    simpl. by destruct t.
  - destruct (String.eqb_spec t "") as [->|Ht]; [done|].
    destruct (String.eqb_spec v "") as [->|Hv]; [done|].
    by destruct Hd.
Qed.

(** ** The status of the handshake response *)

Lemma http_error_403 (n : N) :
  String.eqb ("http_error_" +:+ pretty n) "http_error_403"
  = bool_decide (n = 403%N).
Proof.
  change (String.eqb (pretty n) (pretty 403%N) = bool_decide (n = 403%N)).
  case_bool_decide as H.
  - subst. apply String.eqb_refl.
  - apply String.eqb_neq. intros Hp. by apply (inj pretty) in Hp.
Qed.

(** X3.  A handshake answered with a status that is not ok ends as the
    error http_error_<status>, without a stream URL.  While [reconnecting]
    is set, the status 403 and no other makes the instance give up: it
    clears [reconnecting], reports the error and leaves no retry timer.
    Every other status schedules a retry, with the backoff delay.  Either
    way no socket is created and the promise of the call is not settled. *)
Theorem X3_only_status_403_gives_up (w : World) (k : nat) (c : ConnectCall)
    (response : Response) :
  calls (rt w) !! k = Some c → awaiting c = true →
  reconnecting (this w) = true → ok response = false →
  let w' := step (Handshake k (fetchStreamWebSocketConnect
                                 (Responded response))) w in
  reconnecting (this w') = bool_decide (status response ≠ 403%N)
  ∧ connecting (this w') = false
  ∧ calls (rt w') = alter (set_awaiting false) k (calls (rt w))
  ∧ attempts (rt w') = attempts (rt w)
  ∧ (status response = 403%N →
     timers (rt w') = delete (this_reconnector (this w)) (timers (rt w))
     ∧ dispatched (rt w')
       = dispatched (rt w)
         ++ [PubsStateChangedEvent false (connected (this w)) true;
             PubsStateChangedEvent false (connected (this w)) false;
             PubsErrorEvent "http_error_403" (Some (statusText response))])
  ∧ (status response ≠ 403%N →
     timers (rt w')
     = <[next_handle (rt w) :=
           (reconnectTimeout (options (glob w)) false
              (reconnectAttempts (this w)) (Math_random w), ReconnectNow)]>
         (delete (this_reconnector (this w)) (timers (rt w)))
     ∧ dispatched (rt w')
       = dispatched (rt w)
         ++ [PubsStateChangedEvent false (connected (this w)) true]).
Proof.
  intros Hc Ha Hr Hok. cbn [step fetchStreamWebSocketConnect].
  rewrite Hc, Ha, Hok. cbn [negb].
  unfold connect_continue. cbn [connectResponse_of streamUrl error code].
  change (String.eqb "" "") with true. cbv iota.
  rewrite http_error_403.
  unfold reconnector, dispatchErrorEvent, dispatchStateChangedEvent,
    dispatchEvent, setTimeout, clearTimeout, Math_random_called, on_call.
  simpl. rewrite Hr. simpl.
  case_bool_decide as Hs; simpl.
  - rewrite Hs. rewrite bool_decide_eq_false_2 by (intros H; by apply H).
    repeat split; try done. by rewrite <- !app_assoc.
  - rewrite Hr. simpl. rewrite bool_decide_eq_true_2 by done.
    repeat split; done.
Qed.

Lemma X3_only_status_403_gives_up_witness :
  let not_found := {| ok := false; status := 404; statusText := "Not Found";
                      json := FetchFailed "" |} in
  let denied := {| ok := false; status := 403; statusText := "Forbidden";
                   json := FetchFailed "" |} in
  reconnecting (this (step (Handshake 0 (fetchStreamWebSocketConnect
                                           (Responded not_found)))
                        (connect fresh))) = true
  ∧ reconnecting (this (step (Handshake 0 (fetchStreamWebSocketConnect
                                             (Responded denied)))
                          (connect fresh))) = false.
Proof.
  split.
  - by destruct (X3_only_status_403_gives_up (connect fresh) 0
        {| call_promise := Pending; gate_promise := Pending;
           gate_reject := true; gate_reactions := []; awaiting := true |}
        {| ok := false; status := 404; statusText := "Not Found";
           json := FetchFailed "" |} eq_refl eq_refl eq_refl eq_refl)
      as (H & _).
  - by destruct (X3_only_status_403_gives_up (connect fresh) 0
        {| call_promise := Pending; gate_promise := Pending;
           gate_reject := true; gate_reactions := []; awaiting := true |}
        {| ok := false; status := 403; statusText := "Forbidden";
           json := FetchFailed "" |} eq_refl eq_refl eq_refl eq_refl)
      as (H & _).
Defined.

(** ** The URL of the stream socket *)

Lemma prefix_app (p s : string) :
  String.prefix p s = true ↔ ∃ b, s = p +:+ b.
Proof.
  revert s. induction p as [|a p IH]; intros s; simpl.
  - destruct s; split; eauto.
  - destruct s as [|c s]; simpl.
    + split; [done|]. by intros [b ?].
    + destruct (ascii_dec a c) as [->|Hne].
      * rewrite IH. split; intros [b Hb]; exists b; [by rewrite Hb|].
        by injection Hb.
      * split; [done|]. intros [b Hb]. by injection Hb.
Qed.

Lemma includes_app (s sub : string) :
  includes s sub = true ↔ ∃ a b, s = a +:+ sub +:+ b.
Proof.
  induction s as [|c s IH]; cbn [includes].
  - rewrite orb_false_r, prefix_app. split.
    + intros [b Hb]. by exists "", b.
    + intros (a & b & Hab). destruct a; [by exists b|done].
  - rewrite orb_true_iff, prefix_app, IH. split.
    + intros [[b Hb]|(a & b & Hab)].
      * by exists "", b.
      * exists (String c a), b. simpl. by rewrite Hab.
    + intros (a & b & Hab). destruct a as [|c' a]; simpl in *.
      * left. by exists b.
      * right. exists a, b. by injection Hab.
Qed.

(** X4.  The stream URL of the handshake response is taken for absolute as
    soon as it holds :// anywhere, a query string included, and is then
    used as it is; otherwise the base URI of the instance is put before
    it. *)
Theorem X4_stream_url_relative_or_absolute (s : PubsSettings)
    (r : IStreamWebsocketConnectResponse) :
  (∀ a b, streamUrl r = a +:+ "://" +:+ b → streamURL s r = streamUrl r)
  ∧ ((∀ a b, streamUrl r ≠ a +:+ "://" +:+ b) →
     streamURL s r = baseURI s +:+ streamUrl r).
Proof.
  unfold streamURL. split.
  - intros a b Hab.
    assert (H : includes (streamUrl r) "://" = true)
      by (apply includes_app; eauto).
    by rewrite H.
  - intros Hno. destruct (includes _ _) eqn:H; [|done].
    apply includes_app in H as (a & b & Hab). by destruct (Hno a b).
Qed.

Lemma replace_scheme_cases from to s :
  (prefix_ignoring_case from s = true
   ∧ replace_scheme from to s = to +:+ string_drop (String.length from) s)
  ∨ (prefix_ignoring_case from s = false ∧ replace_scheme from to s = s).
Proof. unfold replace_scheme. destruct (prefix_ignoring_case _ _); auto. Qed.

(** X5.  The URL the socket is opened with is the absolute URL with its
    scheme mapped, https to wss and http to ws whatever the case of the
    letters, followed by ?v=1.  It never begins with http:// or https://;
    a URL with another scheme is passed on as it is. *)
Theorem X5_websocket_url_scheme (absolute : string) :
  ∃ u, websocket_url absolute = u +:+ "?v=1"
    ∧ prefix_ignoring_case "http://" u = false
    ∧ prefix_ignoring_case "https://" u = false
    ∧ (prefix_ignoring_case "https://" absolute = true →
       u = "wss://" +:+ string_drop 8 absolute)
    ∧ (prefix_ignoring_case "http://" absolute = true →
       u = "ws://" +:+ string_drop 7 absolute)
    ∧ (prefix_ignoring_case "https://" absolute = false →
       prefix_ignoring_case "http://" absolute = false → u = absolute)
    ∧ (∀ rest, websocket_url ("https://" +:+ rest) = "wss://" +:+ rest +:+ "?v=1"
               ∧ websocket_url ("HTTP://" +:+ rest) = "ws://" +:+ rest +:+ "?v=1"
               ∧ websocket_url ("wss://" +:+ rest) = "wss://" +:+ rest +:+ "?v=1").
Proof.
  unfold websocket_url. eexists. split; [reflexivity|].
  assert (Hexcl : prefix_ignoring_case "https://" absolute = true →
                  prefix_ignoring_case "http://" absolute = true → False).
  { intros H1 H2.
    do 5 (destruct absolute as [|? absolute];
          [cbn [prefix_ignoring_case] in H1; by rewrite ?andb_false_r in H1|]).
    cbn [prefix_ignoring_case] in H1, H2. rewrite !andb_true_iff in H1, H2.
    destruct H1 as (_ & _ & _ & _ & H1 & _), H2 as (_ & _ & _ & _ & H2 & _).
    apply Ascii.eqb_eq in H1, H2. congruence. }
  destruct (replace_scheme_cases "https://" "wss://" absolute)
    as [[H1 ->]|[H1 ->]].
  - repeat split; try done.
    + intros H2. by destruct (Hexcl H1 H2).
    + by rewrite H1.
  - destruct (replace_scheme_cases "http://" "ws://" absolute)
      as [[H2 ->]|[H2 ->]]; repeat split; try done; by rewrite ?H1, ?H2.
Qed.

(** ** [PubsInit.init] *)

(** X6.  [PubsInit.init] changes the options of the module in place and
    leaves the correlation counter alone: calling it twice with the same
    object is calling it once, and an instance that exists already works
    with the new values from then on.  A socket created after
    [init({connectTimeout: t})] has the connect timeout [t], and a send
    without reply timeout after [init({streamAckTimeout: t})], [t] being
    positive, waits [t] for its acknowledgement. *)
Theorem X6_init_applies_to_existing_instances (given : OptionsGiven)
    (w : World) :
  let w' := on_glob (PubsInit_init given) w in
  websocketSequence (glob w') = websocketSequence (glob w)
  ∧ this w' = this w ∧ rt w' = rt w
  ∧ on_glob (PubsInit_init given) w' = w'
  ∧ (∀ k reconn t, given_connectTimeout given = Some t →
       timers (rt (connectStreamWebSocket k reconn w')) !! next_handle (rt w)
       = Some (t, ConnectTimeout k))
  ∧ (∀ payload sock t,
       given_streamAckTimeout given = Some t → 0 < t →
       connected (this w) = true → socket (this w) = Some sock →
       closing (this w) = false →
       send_throws (rt w) (send_calls (rt w)) = None →
       timers (rt (sendStreamWebSocketPayload payload 0 w'))
         !! next_handle (rt w)
       = Some (t, ReplyTimeout (length (sends (rt w))))).
Proof.
  simpl. split; [done|]. split; [done|]. split; [done|].
  split.
  { unfold on_glob, PubsInit_init, Object_assign. simpl. do 3 f_equal;
      by destruct given as [[] [] [] [] [] [] [] []]. }
  split.
  - intros k reconn t Ht. unfold connectStreamWebSocket, closeStreamWebsocket.
    simpl. destruct (socket (this w)); simpl;
      rewrite lookup_insert_eq; unfold default; by rewrite Ht.
  - intros payload sock t Ht Hpos Hc Hs Hcl Hth.
    unfold sendStreamWebSocketPayload. simpl.
    rewrite Hc, Hs, Hcl, Hth. unfold default. rewrite Ht. simpl.
    apply Z.ltb_lt in Hpos. rewrite Hpos. simpl. by rewrite lookup_insert_eq.
Qed.

(** ** The delay of a retry as a function of the attempt count *)







(** ** Handshakes that fail one after the other *)






(** ** Sending: the ways a send call ends *)

(** X9.  A send on an instance that is not connected, has no socket or is
    closing is rejected with the error no_connection and nothing else
    happens: no correlation id is used, nothing is given to a socket, no
    timer is set and no reply handler is registered. *)
Theorem X9_send_without_connection (w : World) (payload : IStreamEnvelope)
    (replyTimeout : Z) :
  connected (this w) = false ∨ socket (this w) = None
  ∨ closing (this w) = true →
  let w' := sendStreamWebSocketPayload payload replyTimeout w in
  sends (rt w')
  = sends (rt w) ++ [{| send_promise := Rejected (Error "no_connection");
                        send_then := None |}]
  ∧ glob w' = glob w ∧ this w' = this w
  ∧ wire (rt w') = wire (rt w) ∧ timers (rt w') = timers (rt w)
  ∧ send_calls (rt w') = send_calls (rt w).
Proof.
  intros H. unfold sendStreamWebSocketPayload, reject_send. simpl.
  assert (Ha : ∀ l : list SendCall,
    alter (λ c, set_send_promise (settle (Rejected (Error "no_connection"))
                                    (send_promise c)) c)
      (length l) (l ++ [{| send_promise := Pending; send_then := None |}])
    = l ++ [{| send_promise := Rejected (Error "no_connection");
               send_then := None |}]).
  { intros l. induction l as [|x l IH]; simpl; [done|]. f_equal. exact IH. }
  destruct H as [H|[H|H]]; rewrite H; split_cases; by rewrite Ha.
Qed.

Lemma X9_send_without_connection_witness :
  sends (rt (sendStreamWebSocketPayload hello 0 fresh))
  = [{| send_promise := Rejected (Error "no_connection"); send_then := None |}]
  ∧ glob (sendStreamWebSocketPayload hello 0 fresh) = glob fresh.
Proof.
  destruct (X9_send_without_connection fresh hello 0) as (H1 & H2 & _).
  - left. reflexivity.
  - split; [exact H1|exact H2].
Defined.

Lemma alter_at_length {A} (f : A → A) (l : list A) x :
  alter f (length l) (l ++ [x]) = l ++ [f x].
Proof. induction l as [|y l IH]; simpl; [done|]. f_equal. exact IH. Qed.

Lemma lookup_at_length {A} (l : list A) x : (l ++ [x]) !! length l = Some x.
Proof. by rewrite lookup_app_r, Nat.sub_diag. Qed.

(** X10.  When [socket.send] throws, the send call is rejected with what was
    thrown.  The correlation id is used up all the same: the counter is one
    higher.  No reply handler is registered and no timer is set. *)
Theorem X10_send_throws (w : World) (payload : IStreamEnvelope)
    (replyTimeout : Z) (sock : nat) (err : string) :
  connected (this w) = true → socket (this w) = Some sock →
  closing (this w) = false →
  send_throws (rt w) (send_calls (rt w)) = Some err →
  let w' := sendStreamWebSocketPayload payload replyTimeout w in
  sends (rt w')
  = sends (rt w) ++ [{| send_promise := Rejected (Thrown err);
                        send_then := None |}]
  ∧ websocketSequence (glob w') = (websocketSequence (glob w) + 1)%N
  ∧ this w' = this w
  ∧ wire (rt w') = wire (rt w) ∧ timers (rt w') = timers (rt w).
Proof.
  intros Hc Hs Hcl Hth. unfold sendStreamWebSocketPayload, reject_send. simpl.
  rewrite Hc, Hs, Hcl, Hth. simpl. by rewrite alter_at_length.
Qed.

Lemma X10_send_throws_witness :
  let w := send_fails in
  sends (rt (sendStreamWebSocketPayload hello 0 w))
  = sends (rt w) ++ [{| send_promise := Rejected (Thrown "InvalidStateError");
                        send_then := None |}]
  ∧ websocketSequence (glob (sendStreamWebSocketPayload hello 0 w))
    = (websocketSequence (glob w) + 1)%N.
Proof.
  intros w.
  destruct (X10_send_throws w hello 0 0 "InvalidStateError") as (H1 & H2 & _);
    [reflexivity..|].
  split; [exact H1|exact H2].
Defined.

(** X11.  A send whose reply timeout is negative, or zero while the option
    [streamAckTimeout] is not positive, waits for no acknowledgement: the
    payload goes to the socket with the next correlation id, no reply handler
    is registered, and the call is resolved, with no message, by a timer of
    delay 0. *)
Theorem X11_send_without_reply (w : World) (payload : IStreamEnvelope)
    (replyTimeout : Z) (sock : nat) :
  connected (this w) = true → socket (this w) = Some sock →
  closing (this w) = false →
  send_throws (rt w) (send_calls (rt w)) = None →
  replyTimeout < 0
  ∨ (replyTimeout = 0 ∧ streamAckTimeout (options (glob w)) ≤ 0) →
  let w' := sendStreamWebSocketPayload payload replyTimeout w in
  let s := length (sends (rt w)) in
  let id := pretty (websocketSequence (glob w) + 1)%N in
  wire (rt w') = wire (rt w) ++ [(sock, set_state id payload)]
  ∧ this w' = this w
  ∧ timers (rt w') = <[next_handle (rt w) := (0, ResolveSend s)]> (timers (rt w))
  ∧ sends (rt w') !! s = Some {| send_promise := Pending; send_then := None |}
  ∧ sends (rt (step (Timer (next_handle (rt w))) w')) !! s
    = Some {| send_promise := Fulfilled None; send_then := None |}.
Proof.
  intros Hc Hs Hcl Hth Ht. unfold sendStreamWebSocketPayload. simpl.
  rewrite Hc, Hs, Hcl, Hth. simpl.
  assert (Hno : (0 <? (if replyTimeout =? 0
                       then streamAckTimeout (options (glob w))
                       else replyTimeout)) = false).
  { apply Z.ltb_ge. destruct Ht as [Ht|[-> Ht]]; [|done].
    destruct (Z.eqb_spec replyTimeout 0); lia. }
  rewrite Hno. simpl.
  split; [done|]. split; [by destruct (this w)|]. split; [done|].
  split; [apply lookup_at_length|].
  unfold fire_timer. simpl. rewrite lookup_insert_eq. simpl.
  unfold resolve_send. simpl. rewrite lookup_at_length. simpl.
  by rewrite alter_at_length, lookup_at_length.
Qed.

Lemma X11_send_without_reply_witness :
  sends (rt (step (Timer 2)
               (sendStreamWebSocketPayload hello (-1) established))) !! 0%nat
  = Some {| send_promise := Fulfilled None; send_then := None |}
  ∧ replyHandlers (this (sendStreamWebSocketPayload hello (-1) established))
    = ∅.
Proof.
  destruct (X11_send_without_reply established hello (-1) 0)
    as (_ & H2 & _ & _ & H5); [reflexivity..|left; reflexivity|].
  split; [exact H5|]. exact (f_equal replyHandlers H2).
Defined.

(** ** Acknowledgements *)

Lemma is_current_true k w : socket (this w) = Some k → is_current k w = true.
Proof. intros H. unfold is_current. by apply bool_decide_eq_true. Qed.

(** The state after a send that waits for its acknowledgement. *)
Lemma send_registered w payload replyTimeout sock :
  connected (this w) = true → socket (this w) = Some sock →
  closing (this w) = false →
  send_throws (rt w) (send_calls (rt w)) = None →
  0 < (if replyTimeout =? 0 then streamAckTimeout (options (glob w))
       else replyTimeout) →
  let w' := sendStreamWebSocketPayload payload replyTimeout w in
  let s := length (sends (rt w)) in
  let id := pretty (websocketSequence (glob w) + 1)%N in
  socket (this w') = Some sock
  ∧ replyHandlers (this w')
    = <[id := {| resolve := s; timeout := next_handle (rt w) |}]>
        (replyHandlers (this w))
  ∧ timers (rt w')
    = <[next_handle (rt w) :=
          (if replyTimeout =? 0 then streamAckTimeout (options (glob w))
           else replyTimeout, ReplyTimeout s)]> (timers (rt w))
  ∧ sends (rt w')
    = sends (rt w) ++ [{| send_promise := Pending; send_then := None |}]
  ∧ pubsubs (rt w') = pubsubs (rt w)
  ∧ wire (rt w') = wire (rt w) ++ [(sock, set_state id payload)].
Proof.
  intros Hc Hs Hcl Hth Hpos. unfold sendStreamWebSocketPayload. simpl.
  rewrite Hc, Hs, Hcl, Hth. simpl.
  apply Z.ltb_lt in Hpos. rewrite Hpos. simpl. done.
Qed.

(** X12.  A send that waits for its acknowledgement is resolved, with the
    message, by the message of type ack that carries its correlation id:
    the reply handler leaves the table and the timeout is cancelled.  A
    second acknowledgement with the same id changes nothing, and neither
    does the handle of the cancelled timeout. *)
Theorem X12_acknowledgement_resolves_send (w : World)
    (payload : IStreamEnvelope) (replyTimeout : Z) (sock : nat)
    (ack : IStreamEnvelope) :
  connected (this w) = true → socket (this w) = Some sock →
  closing (this w) = false →
  send_throws (rt w) (send_calls (rt w)) = None →
  0 < (if replyTimeout =? 0 then streamAckTimeout (options (glob w))
       else replyTimeout) →
  type ack = "ack" →
  state ack = pretty (websocketSequence (glob w) + 1)%N →
  let w1 := sendStreamWebSocketPayload payload replyTimeout w in
  let w2 := handleStreamWebSocketMessage sock ack w1 in
  let s := length (sends (rt w)) in
  sends (rt w2) !! s
  = Some {| send_promise := Fulfilled (Some ack); send_then := None |}
  ∧ replyHandlers (this w2) = delete (state ack) (replyHandlers (this w))
  ∧ timers (rt w2) = delete (next_handle (rt w)) (timers (rt w))
  ∧ handleStreamWebSocketMessage sock ack w2 = w2
  ∧ step (Timer (next_handle (rt w))) w2 = w2.
Proof.
  intros Hc Hs Hcl Hth Hpos Hty Hst w1 w2 s. subst s.
  destruct (send_registered w payload replyTimeout sock Hc Hs Hcl Hth Hpos)
    as (Hs1 & Hr1 & Ht1 & Hp1 & _). fold w1 in Hs1, Hr1, Ht1, Hp1.
  assert (Hw2 : w2 = resolve_send (length (sends (rt w))) (Some ack)
    (clearTimeout (next_handle (rt w))
       (on_this (λ p, set_replyHandlers
                        (delete (state ack) (replyHandlers p)) p) w1))).
  { subst w2. unfold handleStreamWebSocketMessage.
    rewrite is_current_true by done. rewrite Hty. cbn [negb]. cbv iota.
    change (String.eqb "ack" "hello") with false.
    change (String.eqb "ack" "goodbye") with false.
    change (String.eqb "ack" "ack") with true. cbv iota.
    rewrite Hr1, Hst, lookup_insert_eq. done. }
  assert (Hsends : sends (rt w2)
    = sends (rt w) ++ [{| send_promise := Fulfilled (Some ack);
                          send_then := None |}]).
  { rewrite Hw2. unfold resolve_send. simpl. rewrite Hp1, lookup_at_length.
    simpl. by rewrite Hp1, alter_at_length. }
  assert (Hthis : this w2 = set_replyHandlers
            (delete (state ack) (replyHandlers (this w1))) (this w1)).
  { rewrite Hw2. unfold resolve_send. simpl. rewrite Hp1, lookup_at_length.
    done. }
  assert (Htim : timers (rt w2) = delete (next_handle (rt w)) (timers (rt w1))).
  { rewrite Hw2. unfold resolve_send. simpl. rewrite Hp1, lookup_at_length.
    done. }
  split; [by rewrite Hsends, lookup_at_length|].
  split; [by rewrite Hthis; simpl; rewrite Hr1, Hst, delete_insert_eq|].
  split; [by rewrite Htim, Ht1, delete_insert_eq|].
  split.
  - unfold handleStreamWebSocketMessage.
    rewrite is_current_true by (by rewrite Hthis). rewrite Hty.
    cbn [negb]. cbv iota.
    change (String.eqb "ack" "hello") with false.
    change (String.eqb "ack" "goodbye") with false.
    change (String.eqb "ack" "ack") with true. cbv iota.
    rewrite Hthis. simpl. by rewrite lookup_delete_eq.
  - simpl. unfold fire_timer. by rewrite Htim, lookup_delete_eq.
Qed.

Lemma X12_acknowledgement_resolves_send_witness :
  sends (rt (handleStreamWebSocketMessage 0 ack_1
               (sendStreamWebSocketPayload hello 0 established))) !! 0%nat
  = Some {| send_promise := Fulfilled (Some ack_1); send_then := None |}
  ∧ replyHandlers (this (handleStreamWebSocketMessage 0 ack_1
                           (sendStreamWebSocketPayload hello 0 established)))
    = delete "1" ∅.
Proof.
  destruct (X12_acknowledgement_resolves_send established hello 0 0 ack_1)
    as (H1 & H2 & _); [reflexivity..|].
  split; [exact H1|exact H2].
Defined.

(** X13.  An acknowledgement that comes after the timeout of its send does
    not undo the rejection: the call stays rejected with the error timeout.
    The late acknowledgement is what removes the reply handler. *)
Theorem X13_late_acknowledgement (w : World) (payload : IStreamEnvelope)
    (replyTimeout : Z) (sock : nat) (ack : IStreamEnvelope) :
  connected (this w) = true → socket (this w) = Some sock →
  closing (this w) = false →
  send_throws (rt w) (send_calls (rt w)) = None →
  0 < (if replyTimeout =? 0 then streamAckTimeout (options (glob w))
       else replyTimeout) →
  type ack = "ack" →
  state ack = pretty (websocketSequence (glob w) + 1)%N →
  let w1 := sendStreamWebSocketPayload payload replyTimeout w in
  let w2 := step (Timer (next_handle (rt w))) w1 in
  let w3 := handleStreamWebSocketMessage sock ack w2 in
  let s := length (sends (rt w)) in
  let rejected := {| send_promise := Rejected (Error "timeout");
                     send_then := None |} in
  sends (rt w2) !! s = Some rejected
  ∧ replyHandlers (this w2) !! state ack
    = Some {| resolve := s; timeout := next_handle (rt w) |}
  ∧ sends (rt w3) !! s = Some rejected
  ∧ replyHandlers (this w3) = delete (state ack) (replyHandlers (this w)).
Proof.
  intros Hc Hs Hcl Hth Hpos Hty Hst w1 w2 w3 s rejected. subst s.
  destruct (send_registered w payload replyTimeout sock Hc Hs Hcl Hth Hpos)
    as (Hs1 & Hr1 & Ht1 & Hp1 & _). fold w1 in Hs1, Hr1, Ht1, Hp1.
  assert (Hw2 : w2 = reject_send (length (sends (rt w))) (Error "timeout")
                       (clearTimeout (next_handle (rt w)) w1)).
  { subst w2. simpl. unfold fire_timer. by rewrite Ht1, lookup_insert_eq. }
  assert (Hsends : sends (rt w2) = sends (rt w) ++ [rejected]).
  { rewrite Hw2. simpl. by rewrite Hp1, alter_at_length. }
  assert (Hthis : this w2 = this w1) by by rewrite Hw2.
  split; [by rewrite Hsends, lookup_at_length|].
  split; [by rewrite Hthis, Hr1, Hst, lookup_insert_eq|].
  subst w3. unfold handleStreamWebSocketMessage.
  rewrite is_current_true by (by rewrite Hthis). rewrite Hty.
  cbn [negb]. cbv iota.
  change (String.eqb "ack" "hello") with false.
  change (String.eqb "ack" "goodbye") with false.
  change (String.eqb "ack" "ack") with true. cbv iota.
  rewrite Hthis, Hr1, Hst, lookup_insert_eq.
  unfold resolve_send. simpl. rewrite Hsends, lookup_at_length. simpl.
  split; [by rewrite Hsends, lookup_at_length|].
  by rewrite Hthis, Hr1, delete_insert_eq.
Qed.

Lemma X13_late_acknowledgement_witness :
  sends (rt (handleStreamWebSocketMessage 0 ack_1
               (step (Timer 2)
                  (sendStreamWebSocketPayload hello 0 established)))) !! 0%nat
  = Some {| send_promise := Rejected (Error "timeout"); send_then := None |}.
Proof.
  destruct (X13_late_acknowledgement established hello 0 0 ack_1)
    as (_ & _ & H3 & _); [reflexivity..|].
  exact H3.
Defined.

(** ** Messages of the server *)

(** X14.  A message that comes from a socket that is not the current one is
    not looked at, an acknowledgement of a waiting send included: the
    socket is closed and nothing else changes.  On the current socket, a
    hello, an acknowledgement whose id has no reply handler, and a message
    of a type that is not hello, goodbye, ack or event change nothing. *)
Theorem X14_messages_without_effect (w : World) (k : nat)
    (m : IStreamEnvelope) :
  (socket (this w) ≠ Some k →
   handleStreamWebSocketMessage k m w
   = on_rt (λ r, rt_closes (closes r ++ [k]) r) w)
  ∧ (socket (this w) = Some k →
     type m = "hello"
     ∨ (type m = "ack" ∧ replyHandlers (this w) !! state m = None)
     ∨ type m ∉ ["hello"; "goodbye"; "ack"; "event"] →
     handleStreamWebSocketMessage k m w = w).
Proof.
  unfold handleStreamWebSocketMessage. split.
  - intros Hs. by rewrite is_current_false.
  - intros Hs H. rewrite is_current_true by done. cbn [negb]. cbv iota.
    destruct H as [->|[[-> Hr]|H]]; [done| |].
    + simpl. by rewrite Hr.
    + destruct (String.eqb_spec (type m) "hello") as [He|_]; [done|].
      destruct (String.eqb_spec (type m) "goodbye") as [He|_].
      { destruct H. rewrite He. set_solver. }
      destruct (String.eqb_spec (type m) "ack") as [He|_].
      { destruct H. rewrite He. set_solver. }
      destruct (String.eqb_spec (type m) "event") as [He|_]; [|done].
      destruct H. rewrite He. set_solver.
Qed.

(** X15.  A goodbye of the server on the current socket sets the attempt
    count to 1, marks the instance as closing and not connected, and calls
    [close()] on the socket, which stays the tracked one.  No state change
    is reported at that moment and no timer is set; a send is refused with
    no_connection from then on.  The retry is scheduled when the close
    event of the socket comes: without the fast path, with the delay for
    one attempt. *)
Theorem X15_goodbye_closes_and_retries (w : World) (k : nat)
    (m : IStreamEnvelope) (a : Attempt) :
  socket (this w) = Some k → type m = "goodbye" →
  attempts (rt w) !! k = Some a → isTimeout a = false →
  has_reconnector a = true → reconnecting (this w) = true →
  let w1 := handleStreamWebSocketMessage k m w in
  let w2 := socket_onclose k w1 in
  reconnectAttempts (this w1) = 1%nat ∧ closing (this w1) = true
  ∧ connected (this w1) = false ∧ socket (this w1) = Some k
  ∧ closes (rt w1) = closes (rt w) ++ [k]
  ∧ dispatched (rt w1) = dispatched (rt w)
  ∧ timers (rt w1) = timers (rt w)
  ∧ (∀ payload t,
       sends (rt (sendStreamWebSocketPayload payload t w1))
       = sends (rt w)
         ++ [{| send_promise := Rejected (Error "no_connection");
                send_then := None |}])
  ∧ socket (this w2) = None ∧ closing (this w2) = false
  ∧ dispatched (rt w2)
    = dispatched (rt w) ++ [PubsStateChangedEvent false false true]
  ∧ timers (rt w2) !! next_handle (rt w)
    = Some (reconnectTimeout (options (glob w)) false 1 (Math_random w),
            ReconnectNow)
  ∧ reconnectAttempts (this w2) = 2%nat.
Proof.
  intros Hs Hty Ha Hto Hre Hr w1 w2.
  assert (Hw1 : w1 = on_this (set_connected false)
    (on_rt (λ r, rt_closes (closes r ++ [k]) r)
       (on_this (set_closing true)
          (on_this (set_reconnectAttempts 1%nat) w)))).
  { subst w1. unfold handleStreamWebSocketMessage.
    rewrite is_current_true by done. rewrite Hty. cbn [negb]. cbv iota.
    change (String.eqb "goodbye" "hello") with false.
    change (String.eqb "goodbye" "goodbye") with true. cbv iota.
    unfold closeStreamWebsocket, on_this at 2. cbn [this].
    by rewrite bool_decide_eq_true_2. }
  assert (Hw2 : w2 = reconnector false
    (dispatchStateChangedEvent
       (on_this (set_connecting false)
          (on_this (set_connected false)
             (on_this (set_closing false)
                (on_this (set_socket None)
                   (clearTimeout (connect_timer a) w1))))))).
  { subst w2. unfold socket_onclose. rewrite Hw1. simpl. rewrite Ha, Hto.
    rewrite is_current_true by done. by rewrite Hre. }
  rewrite Hw2. clear Hw2. rewrite Hw1. clear Hw1 w1 w2.
  split; [done|]. split; [done|]. split; [done|]. split; [done|].
  split; [done|]. split; [done|]. split; [done|].
  split.
  { intros payload t. unfold sendStreamWebSocketPayload, reject_send. simpl.
    by rewrite alter_at_length. }
  unfold reconnector, dispatchStateChangedEvent, dispatchEvent.
  simpl. rewrite Hr. simpl.
  split; [done|]. split; [done|]. split; [done|].
  split; [by rewrite lookup_insert_eq|done].
Qed.

Lemma X15_goodbye_closes_and_retries_witness :
  let w := established in
  closing (this (handleStreamWebSocketMessage 0 goodbye w)) = true
  ∧ timers (rt (socket_onclose 0 (handleStreamWebSocketMessage 0 goodbye w)))
      !! next_handle (rt w)
    = Some (reconnectTimeout (options (glob w)) false 1 (Math_random w),
            ReconnectNow).
Proof.
  intros w.
  destruct (X15_goodbye_closes_and_retries w 0 goodbye
              {| isTimeout := false; connect_timer := 1;
                 has_reconnector := true; attempt_promise := Fulfilled ();
                 onmessage := true |})
    as (_ & H2 & _ & _ & _ & _ & _ & _ & _ & _ & _ & H12 & _);
    [reflexivity..|].
  split; [exact H2|exact H12].
Defined.

(** X16.  Messages of type event that come on the current socket are
    dispatched as stream events, one for each message and in the order of
    the messages, with the data and the info of the message.  They are
    given to [onstreamevent] if a handler is assigned there, and to no
    other handler.  Nothing else changes: no promise is settled, nothing
    is sent, no timer is set. *)
Theorem X16_stream_event_is_dispatched (w : World) (k : nat) (a : Attempt)
    (ms : list IStreamEnvelope) :
  socket (this w) = Some k → attempts (rt w) !! k = Some a →
  onmessage a = true → Forall (λ m, type m = "event") ms →
  let w' := run (Socket_message k <$> ms) w in
  glob w' = glob w ∧ this w' = this w
  ∧ dispatched (rt w') = dispatched (rt w) ++ (stream_event <$> ms)
  ∧ delivered (rt w')
    = delivered (rt w)
      ++ (if onstreamevent (this w) then stream_event <$> ms else [])
  ∧ calls (rt w') = calls (rt w) ∧ attempts (rt w') = attempts (rt w)
  ∧ sends (rt w') = sends (rt w) ∧ pubsubs (rt w') = pubsubs (rt w)
  ∧ timers (rt w') = timers (rt w) ∧ wire (rt w') = wire (rt w)
  ∧ closes (rt w') = closes (rt w).
Proof.
  intros Hs Ha Hm Hms. revert w Hs Ha.
  induction Hms as [|m ms Hty _ IH]; intros w Hs Ha.
  - simpl. rewrite ?app_nil_r. repeat split; try done.
    destruct (onstreamevent _); by rewrite app_nil_r.
  - cbn [fmap list_fmap run foldl]. cbn [step]. rewrite Ha, Hm.
    unfold handleStreamWebSocketMessage.
    rewrite is_current_true by done. rewrite Hty. cbn [negb]. cbv iota.
    change (String.eqb "event" "hello") with false.
    change (String.eqb "event" "goodbye") with false.
    change (String.eqb "event" "ack") with false.
    change (String.eqb "event" "event") with true. cbv iota.
    set (w1 := dispatchStreamEvent (data m) (info m) w).
    destruct (IH w1) as (H1 & H2 & H3 & H4 & H5 & H6 & H7 & H8 & H9 & H10 & H11);
      [done..|].
    unfold run in *. rewrite H1, H2, H3, H4, H5, H6, H7, H8, H9, H10, H11.
    subst w1. unfold dispatchStreamEvent, dispatchEvent. simpl.
    rewrite <- !app_assoc. repeat split; try done.
    destruct (onstreamevent (this w)); [by rewrite <- app_assoc|by rewrite !app_nil_r].
Qed.

Lemma X16_stream_event_is_dispatched_witness :
  let w := established in
  dispatched (rt (run (Socket_message 0 <$> [an_event; an_event]) w))
  = dispatched (rt w) ++ (stream_event <$> [an_event; an_event]).
Proof.
  intros w.
  destruct (X16_stream_event_is_dispatched w 0
              {| isTimeout := false; connect_timer := 1;
                 has_reconnector := true; attempt_promise := Fulfilled ();
                 onmessage := true |} [an_event; an_event])
    as (_ & _ & H & _); [reflexivity..|by repeat constructor|].
  exact H.
Defined.

(** ** The switch of [dispatchEvent] *)

(** X17.  The names of the event classes are pairwise different, so the
    switch of [dispatchEvent] on the name of the class takes, for each of
    the three events the instance dispatches, the case of its own handler
    and never throws; it throws 'unknown event: PubsBaseEvent' for an event
    of the base class. *)
Theorem X17_dispatch_switch (event : PubsEvent) (p : Pubs) :
  (∃ slot, dispatchEvent_switch (class_of event) = inl slot
           ∧ assigned slot p = handler_of event p)
  ∧ dispatchEvent_switch PubsBaseEvent_class
    = inr "unknown event: PubsBaseEvent"
  ∧ (∀ c c', getName c = getName c' → c = c').
Proof.
  split; [|split; [done|]].
  - destruct event; eexists; by split.
  - intros [] []; by intros [=].
Qed.

(** ** Invariants of the connection *)

Lemma connection_send payload t w :
  connection (sendStreamWebSocketPayload payload t w) = connection w.
Proof.
  unfold sendStreamWebSocketPayload, reject_send, setTimeout, connection.
  by split_cases.
Qed.

Lemma connection_then_send s p w : connection (then_send s p w) = connection w.
Proof. unfold then_send, resolve_pubsub, connection. by split_cases. Qed.

Lemma connection_reaction w r : connection (pubsub_reaction w r) = connection w.
Proof.
  unfold pubsub_reaction. by rewrite connection_then_send, connection_send.
Qed.

Lemma connection_reactions rs w :
  connection (foldl pubsub_reaction w rs) = connection w.
Proof.
  revert w. induction rs as [|r rs IH]; intros w; simpl; [done|].
  by rewrite IH, connection_reaction.
Qed.

Lemma connection_gateResolve k w :
  connection (gateResolve k w)
  = connection
      (on_call k (λ c, if is_pending (gate_promise c)
                       then set_gate_reactions []
                              (set_gate_promise (Fulfilled ()) c)
                       else c) w).
Proof.
  unfold gateResolve. destruct (calls (rt w) !! k) as [c|] eqn:Hc.
  - destruct (is_pending (gate_promise c)) eqn:Hp.
    + rewrite connection_reactions. unfold connection, on_call. simpl.
      f_equal. apply list_eq. intros i. rewrite !list_lookup_alter.
      case_decide; [|done]. subst. rewrite Hc. simpl. by rewrite Hp.
    + unfold connection, on_call. simpl. f_equal. symmetry.
      apply list_eq. intros i. rewrite list_lookup_alter.
      case_decide; [|done]. subst. rewrite Hc. simpl. by rewrite Hp.
  - unfold connection, on_call. simpl. f_equal. symmetry.
    apply list_eq. intros i. rewrite list_lookup_alter.
    case_decide; [|done]. subst. by rewrite Hc.
Qed.

(** Brings the state under [connection] to one built by field updates. *)
Ltac peel_connection :=
  repeat first
    [ rewrite connection_send | rewrite connection_reaction
    | rewrite connection_gateResolve ].

Ltac rewrite_lookups :=
  repeat match goal with
         | Hx : ?l = Some _ |- context [?l] => rewrite Hx
         end.

Lemma connected_is_open_step e w :
  connected_is_open (connection w) → connected_is_open (connection (step e w)).
Proof.
  intros H. destruct e; unfold_model; simpl.
  all: split_cases; try done.
  all: peel_connection.
  all: unfold connected_is_open, connection, on_call in *; simpl in *.
  all: split_cases; simpl in *; try done.
  all: intros Hcon; simpl in *; try done.
  all: try (destruct (H Hcon) as (? & ? & ? & _); congruence).
  all: try (destruct (H Hcon) as (k' & a' & Hk & Ha & Hm & Ht); clear H;
            exists k'; simplify_eq;
            rewrite ?lookup_alter; repeat case_decide; simplify_eq;
            rewrite_lookups; simpl;
            eexists; (split; [done|]); (split; [reflexivity|]); by simpl).
  all: eexists _, _; (split; [eassumption|]);
       rewrite ?lookup_alter; repeat case_decide; simplify_eq;
       rewrite_lookups; simpl; by eauto.
Qed.

Lemma connected_is_open_run es w :
  connected_is_open (connection w) →
  connected_is_open (connection (run es w)).
Proof.
  revert w. induction es as [|e es IH]; intros w H; simpl; [done|].
  by apply IH, connected_is_open_step.
Qed.

(** X18.  Whatever happened to an instance since it was created, its owner
    assigning no other field than [reconnecting] and the handlers, it
    reports [connected] only while it tracks a socket, and that socket has
    opened and its connect timeout has not fired: the message handler is
    set on it. *)
Theorem X18_connected_has_open_socket (g : Global) (random : nat → Q)
    (throws : nat → option string) (es : list Event) :
  let w := run es (new_Pubs g random throws) in
  connected (this w) = true →
  ∃ k a, socket (this w) = Some k ∧ attempts (rt w) !! k = Some a
         ∧ onmessage a = true ∧ isTimeout a = false.
Proof.
  intros w. apply (connected_is_open_run es (new_Pubs g random throws)).
  by intros ?.
Qed.

Lemma X18_connected_has_open_socket_witness :
  ∃ k a, socket (this established) = Some k
         ∧ attempts (rt established) !! k = Some a
         ∧ onmessage a = true ∧ isTimeout a = false.
Proof.
  apply (X18_connected_has_open_socket module_loaded no_random never_throws
           [Call_connect; Handshake 0 (stream_at "/stream"); Socket_open 0]).
  reflexivity.
Defined.

Lemma not_rejected_settle_fulfilled (p : PState unit) :
  is_rejected p = false → is_rejected (settle (Fulfilled ()) p) = false.
Proof. by destruct p. Qed.

Ltac solve_not_rejected :=
  repeat (apply Forall_alter;
          [|intros ?c _ [? ?]; unfold not_rejected; simpl;
            repeat case_match; simpl;
            rewrite ?not_rejected_settle_fulfilled by done; by split]);
  rewrite ?Forall_app; repeat split; try done;
  try by repeat constructor.

Lemma nothing_rejected_step e w :
  keeps_reconnecting e = true →
  nothing_rejected (connection w) → nothing_rejected (connection (step e w)).
Proof.
  intros He [Hr Hf]. destruct e; unfold_model; simpl.
  all: split_cases; try done.
  all: peel_connection.
  all: unfold nothing_rejected, connection, on_call in *; simpl in *.
  all: unfold gives_up in *; try done.
  all: try case_bool_decide; simpl; try done.
  all: destruct Hr as [Hr|Hr].
  all: try (rewrite Hr in *; rewrite ?lookup_nil in *; simpl in *; try done;
            (split; [by right|constructor])).
  all: try congruence.
  all: try (match goal with
            | H1 : String.eqb (streamUrl _) _ = true,
              H2 : error _ = Some _,
              H3 : String.eqb (code _) _ = true |- _ =>
                rewrite H1, H2, H3 in He; discriminate
            end).
  all: try (split; [left; by rewrite ?orb_true_r|]; solve_not_rejected).
Qed.

Lemma nothing_rejected_run es w :
  Forall (λ e, keeps_reconnecting e = true) es →
  nothing_rejected (connection w) →
  nothing_rejected (connection (run es w)).
Proof.
  intros Hes. revert w. induction Hes as [|e es He _ IH]; intros w H; [done|].
  simpl. by apply IH, nothing_rejected_step.
Qed.

(** X19.  As long as the owner does not clear [reconnecting] and no
    handshake ends as forbidden (error code http_error_403 and no stream
    URL), no promise returned by [connect()] and no gate promise is ever
    rejected, whatever the options are: a failure leads to a retry, it is
    not reported to the caller of [connect()]. *)
Theorem X19_connect_never_rejects (g : Global) (random : nat → Q)
    (throws : nat → option string) (es : list Event) :
  Forall (λ e, keeps_reconnecting e = true) es →
  ∀ k c, calls (rt (run es (new_Pubs g random throws))) !! k = Some c →
         is_rejected (call_promise c) = false
         ∧ is_rejected (gate_promise c) = false.
Proof.
  intros Hes k c Hc.
  destruct (nothing_rejected_run es (new_Pubs g random throws) Hes) as [_ H].
  { split; [by right|constructor]. }
  by apply (proj1 (Forall_lookup _ _) H k c).
Qed.

(** A handshake that fails, a retry whose socket reports an error and is
    rejected, a second retry: no promise is rejected, although the options
    disable reconnecting. *)
Lemma X19_connect_never_rejects_witness :
  Forall not_rejected
    (calls (rt (run [Call_connect; Handshake 0 (FetchFailed "offline");
                     Timer 1; Handshake 1 (stream_at "/stream");
                     Socket_error 1; Timer 3]
                  (new_Pubs {| websocketSequence := 0;
                               options := reconnect_disabled |}
                     no_random never_throws)))).
Proof.
  apply Forall_lookup. intros k c Hc.
  apply (X19_connect_never_rejects
           {| websocketSequence := 0; options := reconnect_disabled |}
           no_random never_throws
           [Call_connect; Handshake 0 (FetchFailed "offline");
            Timer 1; Handshake 1 (stream_at "/stream");
            Socket_error 1; Timer 3]) with k; [|exact Hc].
  by repeat constructor.
Defined.

(** Case analysis on the lookups in updated lists and maps. *)
Ltac split_lookups :=
  repeat first
    [ progress simplify_eq/=
    | match goal with
      | H : (_ ++ [_]) !! _ = Some _ |- _ =>
          apply lookup_snoc_Some in H as [[? ?]|[? ?]]
      | H : context [alter _ _ _ !! _] |- _ =>
          first [rewrite list_lookup_alter in H | rewrite lookup_alter in H]
      | H : context [<[_:=_]> _ !! _] |- _ => rewrite lookup_insert in H
      | |- context [alter _ _ _ !! _] =>
          first [rewrite list_lookup_alter | rewrite lookup_alter]
      | |- context [<[_:=_]> _ !! _] => rewrite lookup_insert
      | H : context [decide ?P] |- _ => destruct (decide P)
      | |- context [decide ?P] => destruct (decide P)
      | H : context [_ <$> ?l !! ?i] |- _ => destruct (l !! i) eqn:?
      end ].

Lemma is_fulfilled_settle_rejected {A} e (p : PState A) :
  is_fulfilled (settle (Rejected e) p) = is_fulfilled p.
Proof. by destruct p. Qed.

Ltac solve_fulfilled :=
  first
    [ eassumption
    | match goal with
      | |- is_fulfilled (call_promise ?c) || is_fulfilled (gate_promise ?c)
           = true =>
          destruct (call_promise c), (gate_promise c); simpl in *; done
      end ].

Lemma fulfilled_by_own_socket_step e w :
  fulfilled_by_own_socket (connection w) →
  fulfilled_by_own_socket (connection (step e w)).
Proof.
  intros [H1 H2]. destruct e; unfold_model; simpl.
  all: split_cases; try done.
  all: peel_connection.
  all: unfold fulfilled_by_own_socket, connection, on_call in *; simpl in *.
  all: try case_bool_decide; simpl; try done.
  all: split; [intros k' c' Hc' Hf'|intros k' a' Ha'].
  all: split_lookups.
  all: rewrite ?is_fulfilled_settle_rejected in *.
  all: try (by eapply H1).
  all: try (exfalso; edestruct H1 as (?a & ?Ha & ?Hp); [eassumption|solve_fulfilled|];
            edestruct H2 as (?c & ?Hc & ?Haw); [eassumption|];
            simplify_eq; congruence).
  all: try (edestruct H2 as (?c & ?Hc & ?Haw); [eassumption|];
            split_lookups;
            first [ by eauto using lookup_app_l_Some
                  | rewrite_lookups; simpl;
                    eexists; (split; [reflexivity|]); simpl;
                    repeat case_match; by simpl ]).
  all: try (rewrite_lookups; simpl;
            eexists; (split; [reflexivity|]); simpl;
            repeat case_match; by simpl).
  all: try (edestruct H1 as (?a & ?Ha & ?Hp); [eassumption|solve_fulfilled|];
            simplify_eq; rewrite_lookups; simpl;
            eexists; (split; [reflexivity|]); simpl; congruence).
  all: try (exfalso; edestruct H1 as (?a & ?Ha & ?Hp); [eassumption|solve_fulfilled|];
            simplify_eq;
            match goal with
            | Hq : attempt_promise ?x = _,
              Hx : is_pending (attempt_promise ?x) = true |- _ =>
                rewrite Hq in Hx; done
            end).
Qed.

Lemma fulfilled_by_own_socket_run es w :
  fulfilled_by_own_socket (connection w) →
  fulfilled_by_own_socket (connection (run es w)).
Proof.
  revert w. induction es as [|e es IH]; intros w H; simpl; [done|].
  by apply IH, fulfilled_by_own_socket_step.
Qed.

(** X20.  Whatever happened to an instance since it was created, the
    promise of a [connect()] call and the promise of its gate are fulfilled
    only when the socket of this very call has opened.  A connection that a
    retry establishes fulfils the promise and the gate of the [connect()]
    call the retry made; the promise and the gate of the call that failed
    stay pending, and so does a request that waits at that gate. *)
Theorem X20_connect_resolves_by_its_own_socket (g : Global) (random : nat → Q)
    (throws : nat → option string) (es : list Event) (k : nat)
    (c : ConnectCall) :
  let w := run es (new_Pubs g random throws) in
  calls (rt w) !! k = Some c →
  call_promise c = Fulfilled () ∨ gate_promise c = Fulfilled () →
  ∃ a, attempts (rt w) !! k = Some a ∧ attempt_promise a = Fulfilled ().
Proof.
  intros w Hc Hp.
  destruct (fulfilled_by_own_socket_run es (new_Pubs g random throws))
    as [H _].
  { split; [intros k' c' Hk|intros k' a' Hk]; simpl in Hk;
      [by rewrite lookup_nil in Hk|by rewrite lookup_empty in Hk]. }
  apply (H k c Hc). destruct Hp as [-> | ->]; [done|by rewrite orb_true_r].
Qed.

(** The first handshake fails, the retry connects: the second call is
    fulfilled by its socket; the first call, its gate and the request that
    waits there are pending, and nothing was sent. *)
Lemma X20_connect_resolves_by_its_own_socket_witness :
  let w := run [Call_connect; Call_sub ["news"];
                Handshake 0 (FetchFailed "offline"); Timer 1;
                Handshake 1 (stream_at "/stream"); Socket_open 1]
             (new_Pubs module_loaded no_random never_throws) in
  (∃ a, attempts (rt w) !! 1%nat = Some a ∧ attempt_promise a = Fulfilled ())
  ∧ calls (rt w) !! 0%nat
    = Some {| call_promise := Pending; gate_promise := Pending;
              gate_reject := true;
              gate_reactions := [(request_payload ("sub", ["news"]), 0%nat)];
              awaiting := false |}
  ∧ connected (this w) = true ∧ pubsubs (rt w) = [Pending]
  ∧ wire (rt w) = [].
Proof.
  intros w. split; [|repeat split; reflexivity].
  apply (X20_connect_resolves_by_its_own_socket module_loaded no_random
           never_throws
           [Call_connect; Call_sub ["news"];
            Handshake 0 (FetchFailed "offline"); Timer 1;
            Handshake 1 (stream_at "/stream"); Socket_open 1] 1
           {| call_promise := Fulfilled (); gate_promise := Fulfilled ();
              gate_reject := false; gate_reactions := [];
              awaiting := false |}); [reflexivity|by left].
Defined.

(** ** The keys of the reply handlers *)

Lemma handlers_below_mono n n' m :
  (n ≤ n')%N → handlers_below n m → handlers_below n' m.
Proof.
  intros Hn H key Hk. destruct (H key Hk) as (j & -> & Hj).
  exists j. split; [done|lia].
Qed.

Lemma handlers_below_insert n m r :
  handlers_below n m → handlers_below (n + 1) (<[pretty (n + 1)%N := r]> m).
Proof.
  intros H key Hk. rewrite lookup_insert in Hk. case_decide as Hkey.
  - exists (n + 1)%N. split; [done|lia].
  - destruct (H key Hk) as (j & -> & Hj). exists j. split; [done|lia].
Qed.

Lemma handlers_below_delete n m key :
  handlers_below n m → handlers_below n (delete key m).
Proof.
  intros H key' Hk. apply H. rewrite lookup_delete in Hk.
  case_decide; [by destruct Hk|done].
Qed.

Lemma handlers_ok_send payload t w :
  handlers_ok w →
  handlers_ok (sendStreamWebSocketPayload payload t w)
  ∧ (websocketSequence (glob w)
     ≤ websocketSequence (glob (sendStreamWebSocketPayload payload t w)))%N.
Proof.
  intros H.
  unfold sendStreamWebSocketPayload, handlers_ok, reject_send, setTimeout in *.
  simpl. repeat case_match; simpl; try (split; [done|lia]).
  all: split; try lia.
  all: try by apply handlers_below_insert.
  all: eapply handlers_below_mono; [|done]; lia.
Qed.

Lemma handlers_ok_then_send s p w :
  handlers_ok w → handlers_ok (then_send s p w).
Proof. intros H. unfold then_send, resolve_pubsub. by repeat case_match. Qed.

Lemma handlers_ok_reaction w r :
  handlers_ok w →
  handlers_ok (pubsub_reaction w r)
  ∧ (websocketSequence (glob w)
     ≤ websocketSequence (glob (pubsub_reaction w r)))%N.
Proof.
  intros H. unfold pubsub_reaction.
  destruct (handlers_ok_send r.1 0 w H) as [H1 H2].
  split; [by apply handlers_ok_then_send|].
  unfold then_send, resolve_pubsub. by repeat case_match.
Qed.

Lemma handlers_ok_reactions rs w :
  handlers_ok w →
  handlers_ok (foldl pubsub_reaction w rs)
  ∧ (websocketSequence (glob w)
     ≤ websocketSequence (glob (foldl pubsub_reaction w rs)))%N.
Proof.
  revert w. induction rs as [|r rs IH]; intros w H; simpl; [done|].
  destruct (handlers_ok_reaction w r H) as [H1 H2].
  destruct (IH _ H1) as [H3 H4]. split; [done|lia].
Qed.

Lemma handlers_ok_gateResolve k w :
  handlers_ok w →
  handlers_ok (gateResolve k w)
  ∧ (websocketSequence (glob w)
     ≤ websocketSequence (glob (gateResolve k w)))%N.
Proof.
  intros H. unfold gateResolve. repeat case_match; try done.
  by apply (handlers_ok_reactions _ (on_call _ _ w)).
Qed.

Lemma handlers_ok_step e w :
  handlers_ok w →
  handlers_ok (step e w)
  ∧ (websocketSequence (glob w) ≤ websocketSequence (glob (step e w)))%N.
Proof.
  intros H. destruct e; unfold_model; simpl.
  all: split_cases; try done.
  all: lazymatch goal with
       | |- handlers_ok (sendStreamWebSocketPayload ?p ?t ?w') ∧ _ =>
           by apply (handlers_ok_send p t w')
       | |- handlers_ok (pubsub_reaction ?w' ?r) ∧ _ =>
           by apply (handlers_ok_reaction w' r)
       | |- handlers_ok (gateResolve ?k ?w') ∧ _ =>
           by apply (handlers_ok_gateResolve k w')
       | |- _ => idtac
       end.
  all: split; [|done]; unfold handlers_ok in *; simpl in *.
  all: try case_bool_decide; simpl; try done.
  all: by apply handlers_below_delete.
Qed.

Lemma handlers_ok_page i e t :
  handlers_ok (view First t) → handlers_ok (view Second t) →
  handlers_ok (view First (on_instance i (step e) t))
  ∧ handlers_ok (view Second (on_instance i (step e) t)).
Proof.
  intros H1 H2. destruct i; simpl.
  - destruct (handlers_ok_step e _ H1) as [H3 H4].
    split; [by destruct (step _ _)|].
    unfold handlers_ok in *. simpl in *. by eapply handlers_below_mono.
  - destruct (handlers_ok_step e _ H2) as [H3 H4].
    split; [|by destruct (step _ _)].
    unfold handlers_ok in *. simpl in *. by eapply handlers_below_mono.
Qed.

Lemma handlers_ok_run_page es t :
  handlers_ok (view First t) → handlers_ok (view Second t) →
  handlers_ok (view First (run_page es t))
  ∧ handlers_ok (view Second (run_page es t)).
Proof.
  revert t. induction es as [|[i e] es IH]; intros t H1 H2; simpl; [done|].
  destruct (handlers_ok_page i e t H1 H2). by apply IH.
Qed.

(** X21.  Whatever happened on the two instances of a page since it was
    loaded, the key of every entry of [replyHandlers] is the correlation id
    of an earlier send, so the id the next send takes is not in the table
    of either instance: registering a reply handler never replaces one that
    still waits. *)
Theorem X21_reply_handlers_are_not_replaced (g : Global) (random : nat → Q)
    (throws : nat → option string) (es : list (Which * Event)) (i : Which) :
  let t := run_page es (new_page g random throws) in
  (∀ key, is_Some (replyHandlers (this (view i t)) !! key) →
          ∃ j : N, key = pretty j ∧ (j ≤ websocketSequence (shared t))%N)
  ∧ replyHandlers (this (view i t))
      !! pretty (websocketSequence (shared t) + 1)%N = None.
Proof.
  intros t.
  assert (H : handlers_ok (view i t)).
  { destruct (handlers_ok_run_page es (new_page g random throws)) as [H1 H2].
    - intros key Hk. simpl in Hk. rewrite lookup_empty in Hk. by destruct Hk.
    - intros key Hk. simpl in Hk. rewrite lookup_empty in Hk. by destruct Hk.
    - by destruct i. }
  split.
  - intros key Hk. destruct (H key Hk) as (j & Hj & Hle). exists j.
    split; [done|]. by destruct i.
  - apply eq_None_not_Some. intros Hk. destruct (H _ Hk) as (j & Hj & Hle).
    apply (inj pretty) in Hj. destruct i; simpl in *; lia.
Qed.

(** ** Subscribing on an established connection *)

(** X22.  On an established connection, whose gate is fulfilled, [sub] and
    [unsub] (that is [pubsub] with the type sub or unsub) give the socket
    one envelope at once, with the type, the topics and the next
    correlation id, and their promise is pending.  The acknowledgement with
    this id fulfils the promise and removes the reply handler. *)
Theorem X22_subscription_resolves_on_ack (w : World) (k : nat)
    (c : ConnectCall) (sock : nat) (ty : string) (tops : list string)
    (ack : IStreamEnvelope) :
  gate (this w) = Some k → calls (rt w) !! k = Some c →
  gate_promise c = Fulfilled () →
  connected (this w) = true → socket (this w) = Some sock →
  closing (this w) = false →
  send_throws (rt w) (send_calls (rt w)) = None →
  0 < streamAckTimeout (options (glob w)) →
  type ack = "ack" →
  state ack = pretty (websocketSequence (glob w) + 1)%N →
  let p := length (pubsubs (rt w)) in
  let w1 := pubsub ty tops w in
  let w2 := handleStreamWebSocketMessage sock ack w1 in
  wire (rt w1)
  = wire (rt w)
    ++ [(sock, {| type := ty; state := state ack;
                  info := Some {| ref := None; topics := Some tops |};
                  data := None |})]
  ∧ pubsubs (rt w1) !! p = Some Pending
  ∧ pubsubs (rt w2) !! p = Some (Fulfilled ())
  ∧ replyHandlers (this w2) = delete (state ack) (replyHandlers (this w)).
Proof.
  intros Hg Hc Hgp Hcon Hs Hcl Hth Hpos Hty Hst p w1 w2. subst p.
  set (payload := {| type := ty; state := "";
                     info := Some {| ref := None; topics := Some tops |};
                     data := None |}).
  set (w0 := on_rt (λ r, rt_pubsubs (pubsubs r ++ [Pending]) r) w).
  set (ws := sendStreamWebSocketPayload payload 0 w0).
  assert (Hw1 : w1 = then_send (length (sends (rt w))) (length (pubsubs (rt w)))
                       ws).
  { subst w1. unfold pubsub. simpl. rewrite Hg. unfold then_gate. simpl.
    rewrite Hc, Hgp. done. }
  destruct (send_registered w0 payload 0 sock Hcon Hs Hcl Hth Hpos)
    as (Hs1 & Hr1 & Ht1 & Hp1 & Hps1 & Hw). fold ws in Hs1, Hr1, Ht1, Hp1, Hps1, Hw.
  simpl in Hr1, Ht1, Hp1, Hps1, Hw.
  assert (Hthen : w1 = on_rt (λ r, rt_sends
            (sends (rt w) ++ [{| send_promise := Pending;
                                 send_then := Some (length (pubsubs (rt w))) |}])
            r) ws).
  { rewrite Hw1. unfold then_send. rewrite Hp1, lookup_at_length. simpl.
    unfold on_rt. f_equal. by rewrite Hp1, alter_at_length. }
  split; [by rewrite Hthen; simpl; rewrite Hw, Hst|].
  split; [by rewrite Hthen; simpl; rewrite Hps1, lookup_at_length|].
  subst w2. unfold handleStreamWebSocketMessage.
  rewrite is_current_true by (by rewrite Hthen). rewrite Hty.
  cbn [negb]. cbv iota.
  change (String.eqb "ack" "hello") with false.
  change (String.eqb "ack" "goodbye") with false.
  change (String.eqb "ack" "ack") with true. cbv iota.
  assert (Hrh : replyHandlers (this w1)
    = <[state ack := {| resolve := length (sends (rt w));
                        timeout := next_handle (rt w) |}]>
        (replyHandlers (this w))) by (by rewrite Hthen, Hst).
  rewrite Hrh, lookup_insert_eq.
  unfold resolve_send. simpl. rewrite Hthen. simpl.
  rewrite lookup_at_length. simpl.
  split; [by rewrite Hps1, alter_at_length, lookup_at_length|].
  by rewrite Hr1, <- Hst, delete_insert_eq.
Qed.

Lemma X22_subscription_resolves_on_ack_witness :
  wire (rt (sub ["news"] established))
  = [(0%nat, {| type := "sub"; state := "1";
                info := Some {| ref := None; topics := Some ["news"] |};
                data := None |})]
  ∧ pubsubs (rt (handleStreamWebSocketMessage 0 ack_1
                   (sub ["news"] established))) !! 0%nat
    = Some (Fulfilled ()).
Proof.
  destruct (X22_subscription_resolves_on_ack established 0
              {| call_promise := Fulfilled (); gate_promise := Fulfilled ();
                 gate_reject := false; gate_reactions := [];
                 awaiting := false |} 0 "sub" ["news"] ack_1)
    as (H1 & _ & H3 & _); [reflexivity..|].
  split; [exact H1|exact H3].
Defined.

(** ** Requests made while the connection is being established *)

Lemma pubsub_waits ty tops w k c :
  gate (this w) = Some k → calls (rt w) !! k = Some c →
  gate_promise c = Pending →
  pubsub ty tops w
  = on_call k (λ c, set_gate_reactions
                      (gate_reactions c
                       ++ [(request_payload (ty, tops),
                            length (pubsubs (rt w)))]) c)
      (on_rt (λ r, rt_pubsubs (pubsubs r ++ [Pending]) r) w).
Proof.
  intros Hg Hc Hp. unfold pubsub. simpl. rewrite Hg. unfold then_gate. simpl.
  by rewrite Hc, Hp.
Qed.

Lemma requests_wait reqs w k c :
  gate (this w) = Some k → calls (rt w) !! k = Some c →
  gate_promise c = Pending →
  let w1 := foldl (λ w r, pubsub r.1 r.2 w) w reqs in
  this w1 = this w ∧ glob w1 = glob w ∧ wire (rt w1) = wire (rt w)
  ∧ attempts (rt w1) = attempts (rt w)
  ∧ send_throws (rt w1) = send_throws (rt w)
  ∧ timers (rt w1) = timers (rt w)
  ∧ dispatched (rt w1) = dispatched (rt w)
  ∧ ∃ c1, calls (rt w1) !! k = Some c1 ∧ gate_promise c1 = Pending
          ∧ call_promise c1 = call_promise c
          ∧ (gate_reactions c1).*1
            = (gate_reactions c).*1 ++ (request_payload <$> reqs).
Proof.
  revert w c. induction reqs as [|[ty tops] reqs IH]; intros w c Hg Hc Hp.
  - simpl. repeat split; try done. exists c. by rewrite app_nil_r.
  - cbn [foldl]. simpl. rewrite (pubsub_waits ty tops w k c Hg Hc Hp).
    set (w' := on_call _ _ _).
    edestruct (IH w') as (H1 & H2 & H3 & H4 & H5 & H6 & H7 & c1 & Hc1 & Hp1 & Hcp & Hr).
    + done.
    + subst w'. unfold on_call. simpl. rewrite list_lookup_alter_eq, Hc. done.
    + done.
    + repeat split; try done. exists c1. repeat split; try done.
      rewrite Hr. simpl. by rewrite fmap_app, <- app_assoc.
Qed.

Lemma reaction_sends w r sock :
  connected (this w) = true → socket (this w) = Some sock →
  closing (this w) = false → (∀ n, send_throws (rt w) n = None) →
  let w' := pubsub_reaction w r in
  wire (rt w')
  = wire (rt w)
    ++ [(sock, set_state (pretty (websocketSequence (glob w) + 1)%N) r.1)]
  ∧ websocketSequence (glob w') = (websocketSequence (glob w) + 1)%N
  ∧ send_throws (rt w') = send_throws (rt w).
Proof.
  intros Hc Hs Hcl Hth. unfold pubsub_reaction, then_send, resolve_pubsub,
    sendStreamWebSocketPayload, setTimeout. simpl.
  rewrite Hc, Hs, Hcl, Hth. simpl. by split_cases.
Qed.

Lemma reactions_send rs w sock :
  connected (this w) = true → socket (this w) = Some sock →
  closing (this w) = false → (∀ n, send_throws (rt w) n = None) →
  wire (rt (foldl pubsub_reaction w rs))
  = wire (rt w)
    ++ imap (λ i e, (sock, set_state
                      (pretty (websocketSequence (glob w) + 1 + N.of_nat i)%N)
                      e)) rs.*1.
Proof.
  revert w. induction rs as [|r rs IH]; intros w Hc Hs Hcl Hth.
  - simpl. by rewrite app_nil_r.
  - cbn [foldl]. destruct (reaction_sends w r sock Hc Hs Hcl Hth)
      as (Hw & Hseq & Hthrows).
    pose proof (connection_reaction w r) as Hconn.
    rewrite IH.
    + rewrite Hw, Hseq, <- app_assoc. f_equal. simpl. f_equal.
      * by rewrite N.add_0_r.
      * apply imap_ext. intros i e _. simpl. do 3 f_equal. lia.
    + exact (eq_trans (f_equal is_connected Hconn) Hc).
    + exact (eq_trans (f_equal current_socket Hconn) Hs).
    + exact (eq_trans (f_equal is_closing Hconn) Hcl).
    + intros n. by rewrite Hthrows.
Qed.

(** X23.  Requests made with [sub] and [unsub] while the gate is pending
    give nothing to the socket.  When the socket of the gate opens, the
    instance is connected, the promise of [connect()] and the gate are
    fulfilled, the attempt count is reset, and the requests go to the
    socket in the order of the calls, with consecutive correlation ids. *)
Theorem X23_requests_wait_for_the_connection (w : World) (k : nat)
    (c : ConnectCall) (a : Attempt) (reqs : list (string * list string)) :
  gate (this w) = Some k → calls (rt w) !! k = Some c →
  call_promise c = Pending → gate_promise c = Pending →
  gate_reactions c = [] →
  socket (this w) = Some k → closing (this w) = false →
  attempts (rt w) !! k = Some a → isTimeout a = false →
  attempt_promise a = Pending →
  (∀ n, send_throws (rt w) n = None) →
  let w1 := foldl (λ w r, pubsub r.1 r.2 w) w reqs in
  let w2 := socket_onopen k w1 in
  wire (rt w1) = wire (rt w)
  ∧ wire (rt w2)
    = wire (rt w)
      ++ imap (λ i r,
           (k, set_state
                 (pretty (websocketSequence (glob w) + 1 + N.of_nat i)%N)
                 (request_payload r))) reqs
  ∧ connected (this w2) = true ∧ connecting (this w2) = false
  ∧ reconnectAttempts (this w2) = 0%nat
  ∧ (call_promise <$> calls (rt w2) !! k) = Some (Fulfilled ())
  ∧ (gate_promise <$> calls (rt w2) !! k) = Some (Fulfilled ()).
Proof.
  intros Hg Hc Hcp Hgp Hgr Hs Hcl Ha Hto Hap Hth w1 w2.
  destruct (requests_wait reqs w k c Hg Hc Hgp)
    as (H1 & H2 & H3 & H4 & H5 & H6 & H7 & c1 & Hc1 & Hp1 & Hcp1 & Hr).
  fold w1 in H1, H2, H3, H4, H5, H6, H7, Hc1.
  rewrite Hgr in Hr. simpl in Hr.
  split; [done|].
  set (wo := on_call k
    (λ c, set_gate_reactions [] (set_gate_promise (Fulfilled ()) c))
    (resolve_call k
       (on_call k (set_gate_reject false)
          (on_this (set_reconnectAttempts 0%nat)
             (on_attempt k (set_attempt_promise (Fulfilled ()))
                (on_attempt k (set_onmessage true)
                   (dispatchStateChangedEvent
                      (on_this (set_connecting false)
                         (on_this (set_connected true)
                            (clearTimeout (connect_timer a) w1)))))))))).
  assert (Hw2 : w2 = foldl pubsub_reaction wo (gate_reactions c1)).
  { subst w2. unfold socket_onopen. rewrite H4, Ha, Hto.
    rewrite is_current_true by (simpl; by rewrite H1). cbn [negb]. cbv iota.
    unfold resolve_attempt. simpl. rewrite H4, lookup_alter_eq, Ha. simpl.
    rewrite Hap. simpl. unfold connection_established, gateResolve.
    simpl. rewrite !list_lookup_alter_eq, Hc1. simpl. rewrite Hp1. done. }
  assert (Hconn : connection w2 = connection wo)
    by (by rewrite Hw2, connection_reactions).
  split.
  - rewrite Hw2, (reactions_send _ wo k); try done.
    + simpl. rewrite H3, H2, Hr, imap_fmap. done.
    + simpl. by rewrite H1.
    + simpl. by rewrite H1.
    + intros n. simpl. by rewrite H5.
  - split; [exact (f_equal is_connected Hconn)|].
    split; [exact (f_equal is_connecting Hconn)|].
    split; [exact (f_equal retries Hconn)|].
    rewrite (f_equal connect_calls Hconn : calls (rt w2) = calls (rt wo)).
    subst wo. unfold resolve_call, on_call. simpl.
    rewrite !list_lookup_alter_eq, Hc1. simpl. by rewrite Hcp1, Hcp.
Qed.

Lemma X23_requests_wait_for_the_connection_witness :
  let w := run [Call_connect; Handshake 0 (stream_at "/stream")] fresh in
  let reqs := [("sub", ["a"]); ("unsub", ["b"])] in
  wire (rt (socket_onopen 0 (foldl (λ w r, pubsub r.1 r.2 w) w reqs)))
  = wire (rt w)
    ++ imap (λ i r,
         (0%nat, set_state
                   (pretty (websocketSequence (glob w) + 1 + N.of_nat i)%N)
                   (request_payload r))) reqs.
Proof.
  intros w reqs.
  destruct (X23_requests_wait_for_the_connection w 0
              {| call_promise := Pending; gate_promise := Pending;
                 gate_reject := true; gate_reactions := [];
                 awaiting := false |}
              {| isTimeout := false; connect_timer := 1;
                 has_reconnector := true; attempt_promise := Pending;
                 onmessage := false |} reqs)
    as (_ & H & _); [reflexivity..|done|].
  exact H.
Defined.

(** ** A handshake that fails while [reconnecting] is off *)

Lemma new_PubsDataError_default err :
  new_PubsDataError err = PubsDataError (code err) (default "" (msg err)).
Proof.
  unfold new_PubsDataError. destruct (msg err) as [m|]; [|done]. simpl.
  by destruct (String.eqb_spec m "") as [->|].
Qed.

(** X24.  When the handshake of a [connect()] call ends without a stream
    URL while [reconnecting] is off, the promise of the call is rejected
    with a [PubsDataError] made from the error of the response (its
    message is the empty string when the error has none), or with the code
    unknown_error when the response has no error.  No retry is scheduled
    and no socket is created.  The gate of the call is left as it was,
    pending with its [reject] still set: requests that wait there are never
    sent. *)
Theorem X24_failed_handshake_rejects_connect (w : World) (k : nat)
    (c : ConnectCall) (f : FetchResult) :
  calls (rt w) !! k = Some c → awaiting c = true →
  call_promise c = Pending → reconnecting (this w) = false →
  streamUrl (connectResponse_of f) = "" →
  let w' := step (Handshake k f) w in
  calls (rt w') !! k
  = Some {| call_promise :=
              Rejected match error (connectResponse_of f) with
                       | Some err => new_PubsDataError err
                       | None => PubsDataError "unknown_error" ""
                       end;
            gate_promise := gate_promise c; gate_reject := gate_reject c;
            gate_reactions := gate_reactions c; awaiting := false |}
  ∧ connecting (this w') = false ∧ reconnecting (this w') = false
  ∧ socket (this w') = socket (this w)
  ∧ attempts (rt w') = attempts (rt w) ∧ timers (rt w') = timers (rt w)
  ∧ wire (rt w') = wire (rt w)
  ∧ dispatched (rt w')
    = dispatched (rt w)
      ++ [PubsStateChangedEvent false (connected (this w)) false].
Proof.
  intros Hc Ha Hp Hr Hu. cbn [step]. rewrite Hc, Ha.
  unfold connect_continue. rewrite Hu.
  change (String.eqb "" "") with true. cbv iota.
  unfold dispatchStateChangedEvent, dispatchEvent, reject_call, on_call.
  simpl. rewrite Hr. simpl.
  destruct (error (connectResponse_of f)) as [err|]; simpl;
    rewrite !list_lookup_alter_eq, Hc; simpl; rewrite Hp, Hr;
    rewrite ?new_PubsDataError_default; done.
Qed.

Lemma X24_failed_handshake_rejects_connect_witness :
  calls (rt (step (Handshake 0 (FetchFailed "offline"))
               (run [Call_connect; Assign_reconnecting false] fresh)))
    !! 0%nat
  = Some {| call_promise := Rejected (PubsDataError "request_failed" "offline");
            gate_promise := Pending; gate_reject := true;
            gate_reactions := []; awaiting := false |}.
Proof.
  destruct (X24_failed_handshake_rejects_connect
              (run [Call_connect; Assign_reconnecting false] fresh) 0
              {| call_promise := Pending; gate_promise := Pending;
                 gate_reject := true; gate_reactions := [];
                 awaiting := true |} (FetchFailed "offline"))
    as (H & _); [reflexivity..|].
  exact H.
Defined.

(** ** The connect timeout *)

(** X25.  When the connect timeout of the current socket fires before the
    socket opened, and [reconnecting] is set: the socket is not tracked any
    more, the instance is neither connected nor connecting and tells so,
    the attempt is rejected with the error connect_timeout and marked as
    timed out, and a retry is scheduled with the backoff delay, while the
    promises of the [connect()] calls are not settled.  The socket is
    closed by a timer of delay 0, which leaves [closing] alone. *)
Theorem X25_connect_timeout_retries (w : World) (h : nat) (d : Z) (k : nat)
    (a : Attempt) :
  timers (rt w) !! h = Some (d, ConnectTimeout k) →
  attempts (rt w) !! k = Some a → attempt_promise a = Pending →
  socket (this w) = Some k → reconnecting (this w) = true →
  (this_reconnector (this w) < next_handle (rt w))%nat →
  let w' := step (Timer h) w in
  let w'' := step (Timer (next_handle (rt w))) w' in
  socket (this w') = None ∧ connected (this w') = false
  ∧ connecting (this w') = false
  ∧ attempts (rt w') !! k
    = Some {| isTimeout := true; connect_timer := connect_timer a;
              has_reconnector := has_reconnector a;
              attempt_promise := Rejected (Error "connect_timeout");
              onmessage := onmessage a |}
  ∧ timers (rt w') !! next_handle (rt w) = Some (0, CloseSocket k)
  ∧ timers (rt w') !! S (next_handle (rt w))
    = Some (reconnectTimeout (options (glob w)) false
              (reconnectAttempts (this w)) (Math_random w), ReconnectNow)
  ∧ reconnectAttempts (this w') = S (reconnectAttempts (this w))
  ∧ calls (rt w') = calls (rt w)
  ∧ dispatched (rt w')
    = dispatched (rt w)
      ++ [PubsStateChangedEvent false false true]
  ∧ closes (rt w') = closes (rt w)
  ∧ closes (rt w'') = closes (rt w) ++ [k]
  ∧ this w'' = this w'.
Proof.
  intros Ht Ha Hp Hs Hr Hlt w' w''.
  assert (Hw' : w' = reconnector false
    (on_attempt k (set_attempt_promise (Rejected (Error "connect_timeout")))
       (setTimeout (CloseSocket k) 0
          (dispatchStateChangedEvent
             (on_this (set_connecting false)
                (on_this (set_connected false)
                   (on_this (set_socket None)
                      (on_attempt k (set_isTimeout true)
                         (clearTimeout h w))))))))).
  { subst w'. cbn [step]. unfold fire_timer. rewrite Ht. cbn [run_timer].
    unfold connect_timeout. rewrite is_current_true by done.
    unfold reject_attempt. simpl. rewrite lookup_alter_eq, Ha. simpl.
    rewrite Hp. simpl. unfold connection_failed. simpl. by rewrite Hr. }
  assert (Hrec : w' = on_this (λ p, set_reconnectAttempts
                                      (S (reconnectAttempts p)) p)
    (on_this (set_this_reconnector (S (next_handle (rt w))))
       (setTimeout ReconnectNow
          (reconnectTimeout (options (glob w)) false
             (reconnectAttempts (this w)) (Math_random w))
          (Math_random_called
             (clearTimeout (this_reconnector (this w))
                (on_attempt k
                   (set_attempt_promise (Rejected (Error "connect_timeout")))
                   (setTimeout (CloseSocket k) 0
                      (dispatchStateChangedEvent
                         (on_this (set_connecting false)
                            (on_this (set_connected false)
                               (on_this (set_socket None)
                                  (on_attempt k (set_isTimeout true)
                                     (clearTimeout h w))))))))))))).
  { rewrite Hw'. unfold reconnector. simpl. by rewrite Hr. }
  clear Hw'.
  assert (Hclose : timers (rt w') !! next_handle (rt w) = Some (0, CloseSocket k)).
  { rewrite Hrec. simpl. rewrite lookup_insert_ne by lia.
    rewrite lookup_delete_ne by lia. by rewrite lookup_insert_eq. }
  split; [by rewrite Hrec|]. split; [by rewrite Hrec|].
  split; [by rewrite Hrec|].
  split.
  { rewrite Hrec. simpl. rewrite lookup_alter_eq, lookup_alter_eq, Ha. done. }
  split; [exact Hclose|].
  split; [rewrite Hrec; simpl; by rewrite lookup_insert_eq|].
  split; [by rewrite Hrec|]. split; [by rewrite Hrec|].
  split.
  { rewrite Hrec. unfold dispatchStateChangedEvent, dispatchEvent. simpl.
    by rewrite Hr. }
  split; [by rewrite Hrec|].
  subst w''. cbn [step]. unfold fire_timer. rewrite Hclose.
  cbn [run_timer]. unfold closeStreamWebsocket. simpl.
  split; [by rewrite Hrec|].
  rewrite bool_decide_eq_false_2; [done|]. by rewrite Hrec.
Qed.

Lemma X25_connect_timeout_retries_witness :
  let w := run [Call_connect; Handshake 0 (stream_at "/stream")] fresh in
  socket (this (step (Timer 1) w)) = None
  ∧ timers (rt (step (Timer 1) w)) !! S (next_handle (rt w))
    = Some (reconnectTimeout (options (glob w)) false
              (reconnectAttempts (this w)) (Math_random w), ReconnectNow)
  ∧ calls (rt (step (Timer 1) w)) = calls (rt w).
Proof.
  intros w.
  destruct (X25_connect_timeout_retries w 1 5000 0
              {| isTimeout := false; connect_timer := 1;
                 has_reconnector := true; attempt_promise := Pending;
                 onmessage := false |})
    as (H1 & _ & _ & _ & _ & H6 & _ & H8 & _);
    [reflexivity..|vm_compute; lia|].
  split; [exact H1|]. split; [exact H6|exact H8].
Defined.

(** ** A socket that fails before it opened *)


